(** * DreamCraft photo editor: edit history, gateway and batch orchestration

    A shallow embedding of [src/App.tsx], [src/services/geminiService.ts]
    and [components/FramePanel.tsx], with the properties of the edit
    history, the response classification, the batch workflow, the archive
    naming and the pin toggle stated and proved over it. *)

From Stdlib Require Import String Ascii DecimalString DecimalPos DecimalN.
From Stdlib Require Import List ZArith NArith Bool Lia.
Import ListNotations.

Set Implicit Arguments.

(* ===================================================================== *)
(** * JavaScript values used by the program                                *)
(* ===================================================================== *)

Module JS.

(** A JavaScript string is a sequence of UTF-16 code units. *)
Definition code_unit := N.
Definition jsstring := list code_unit.

(** String literals of the source, written in ASCII. *)
Definition lit (s : string) : jsstring :=
  map N_of_ascii (list_ascii_of_string s).

Definition quote : jsstring := [34%N].

Definition jsstring_eqb (a b : jsstring) : bool :=
  if list_eq_dec N.eq_dec a b then true else false.

(** [Boolean(s)] for a string: only the empty string is falsy. *)
Definition truthy (s : jsstring) : bool :=
  match s with [] => false | _ :: _ => true end.

(** [Boolean(o)] for [string | undefined]. *)
Definition truthy_opt (o : option jsstring) : bool :=
  match o with Some s => truthy s | None => false end.

(** [${o}] in a template literal, for [string | undefined]. *)
Definition template_opt (o : option jsstring) : jsstring :=
  match o with Some s => s | None => lit "undefined" end.

(** ** White space and line terminators (ECMA-262, 12.2 and 12.3) *)

Definition isLineTerminator (c : code_unit) : bool :=
  (N.eqb c 10 || N.eqb c 13 || N.eqb c 8232 || N.eqb c 8233)%bool.

Definition isWhiteSpace (c : code_unit) : bool :=
  (N.eqb c 9 || N.eqb c 11 || N.eqb c 12 || N.eqb c 32 || N.eqb c 160
   || N.eqb c 5760 || (N.leb 8192 c && N.leb c 8202) || N.eqb c 8239
   || N.eqb c 8287 || N.eqb c 12288 || N.eqb c 65279)%bool.

Fixpoint dropWhile {A} (p : A -> bool) (l : list A) : list A :=
  match l with
  | [] => []
  | x :: r => if p x then dropWhile p r else l
  end.

Definition trimStart (s : jsstring) : jsstring :=
  dropWhile (fun c => isWhiteSpace c || isLineTerminator c)%bool s.

Definition trimEnd (s : jsstring) : jsstring :=
  rev (trimStart (rev s)).

(** [String.prototype.trim] *)
Definition trim (s : jsstring) : jsstring := trimEnd (trimStart s).

(** ** [String.prototype.split] on a one-unit separator *)

Fixpoint split_on (sep : code_unit) (s : jsstring) : list jsstring :=
  match s with
  | [] => [[]]
  | c :: r =>
      if N.eqb c sep then [] :: split_on sep r
      else match split_on sep r with
           | [] => [[c]]
           | seg :: segs => (c :: seg) :: segs
           end
  end.

Definition comma : code_unit := 44%N.
Definition colon : code_unit := 58%N.
Definition semicolon : code_unit := 59%N.

(** ** The regular expression [/:(.*?);/]

    [lazy_to_semicolon s] matches [(.*?);] anchored at the start of [s] and
    returns the capture: the lazy star stops at the first [;], and [.] does
    not match a line terminator. *)
Fixpoint lazy_to_semicolon (s : jsstring) : option jsstring :=
  match s with
  | [] => None
  | c :: r =>
      if N.eqb c semicolon then Some []
      else if isLineTerminator c then None
      else option_map (cons c) (lazy_to_semicolon r)
  end.

(** [s.match(/:(.*?);/)]: the capture group of the leftmost match, or
    [None] for [null]. *)
Fixpoint match_mime (s : jsstring) : option jsstring :=
  match s with
  | [] => None
  | c :: r =>
      if N.eqb c colon then
        match lazy_to_semicolon r with
        | Some g => Some g
        | None => match_mime r
        end
      else match_mime r
  end.

(** ** The regular expression [/[^a-z0-9_.\-]/gi]

    Without the [u] flag the [i] flag folds only ASCII letters onto the
    range, so the class keeps exactly [A-Za-z0-9_.-]. *)
Definition isArchiveSafe (c : code_unit) : bool :=
  ((N.leb 97 c && N.leb c 122) || (N.leb 65 c && N.leb c 90)
   || (N.leb 48 c && N.leb c 57)
   || N.eqb c 95 || N.eqb c 46 || N.eqb c 45)%bool.

Definition underscore : code_unit := 95%N.

(** [name.replace(/[^a-z0-9_.\-]/gi, '_')] *)
Definition sanitize (name : jsstring) : jsstring :=
  map (fun c => if isArchiveSafe c then c else underscore) name.

(** ** Arrays *)

(** Relative index of [slice] and [splice]: negative counts from the end. *)
Definition relative_index (len : nat) (i : Z) : nat :=
  if (i <? 0)%Z then Z.to_nat (Z.max (Z.of_nat len + i) 0)
  else Nat.min (Z.to_nat i) len.

(** [l.slice(start, end)] *)
Definition slice {A} (l : list A) (start stop : Z) : list A :=
  let from := relative_index (length l) start in
  let to := relative_index (length l) stop in
  firstn (to - from) (skipn from l).

(** [l.splice(start, 1)]: the removed elements and what is left of [l]. *)
Definition splice1 {A} (l : list A) (start : Z) : list A * list A :=
  let from := relative_index (length l) start in
  (firstn 1 (skipn from l), firstn from l ++ skipn (S from) l).

(** ** Numbers to strings *)

(** [String(n)] for an integer-valued number below [10^21] in absolute
    value, where JavaScript prints all the digits. *)
Definition Number_toString (n : Z) : jsstring :=
  lit (NilZero.string_of_int (Z.to_int n)).

Fixpoint cycle_take (k : nat) (filler cur : jsstring) : jsstring :=
  match k with
  | O => []
  | S k' =>
      match cur with
      | c :: r => c :: cycle_take k' filler r
      | [] => match filler with
              | [] => []
              | c :: r => c :: cycle_take k' filler r
              end
      end
  end.

(** [s.padStart(targetLength, filler)] *)
Definition padStart (s : jsstring) (targetLength : nat) (filler : jsstring)
  : jsstring :=
  cycle_take (targetLength - length s) filler filler ++ s.

(** ** [atob]: forgiving base64 decoding (WHATWG Infra, 5.2) *)

Definition isAsciiWhitespace (c : code_unit) : bool :=
  (N.eqb c 9 || N.eqb c 10 || N.eqb c 12 || N.eqb c 13 || N.eqb c 32)%bool.

Definition equals_sign : code_unit := 61%N.

(** The value of a unit in the base64 alphabet of RFC 4648. *)
Definition sextet (c : code_unit) : option N :=
  if (N.leb 65 c && N.leb c 90)%bool then Some (c - 65)%N
  else if (N.leb 97 c && N.leb c 122)%bool then Some (c - 97 + 26)%N
  else if (N.leb 48 c && N.leb c 57)%bool then Some (c - 48 + 52)%N
  else if N.eqb c 43 then Some 62%N
  else if N.eqb c 47 then Some 63%N
  else None.

Fixpoint sextets (s : jsstring) : option (list N) :=
  match s with
  | [] => Some []
  | c :: r =>
      match sextet c, sextets r with
      | Some v, Some vs => Some (v :: vs)
      | _, _ => None
      end
  end.

(** Strip one or two trailing [=] from a string whose length is a
    multiple of four. *)
Definition strip_padding (s : jsstring) : jsstring :=
  if Nat.eqb (length s mod 4) 0 then
    match rev s with
    | a :: b :: r =>
        if N.eqb a equals_sign then
          if N.eqb b equals_sign then rev r else rev (b :: r)
        else s
    | _ => s
    end
  else s.

Fixpoint decode_sextets (v : list N) : list N :=
  match v with
  | a :: b :: c :: d :: r =>
      let w := (a * 262144 + b * 4096 + c * 64 + d)%N in
      (w / 65536)%N :: ((w / 256) mod 256)%N :: (w mod 256)%N
        :: decode_sextets r
  | [a; b; c] =>
      let w := (a * 4096 + b * 64 + c)%N in
      [(w / 1024)%N; ((w / 4) mod 256)%N]
  | [a; b] => [((a * 64 + b) / 16)%N]
  | _ => []
  end.

(** [atob(data)]: [None] stands for the [InvalidCharacterError] it throws. *)
Definition atob (data : jsstring) : option jsstring :=
  let d := strip_padding (filter (fun c => negb (isAsciiWhitespace c)) data) in
  if Nat.eqb (length d mod 4) 1 then None
  else option_map decode_sextets (sextets d).

End JS.
Import JS.


(* ===================================================================== *)
(** * Asynchronous code and its environment                                *)
(* ===================================================================== *)

(** A value thrown or a promise rejection: an [Error] with its message, or
    some other value (for which [err instanceof Error] is false). *)
Inductive Exn : Type :=
| JsError (message : jsstring)
| NonError.

Module Effects.
Section IO.

(** [E] are the requests a program makes to what lies outside it, and
    [Ans ev] is what request [ev] is answered with. *)
Variable E : Type.
Variable Ans : E -> Type.

Inductive IO (A : Type) : Type :=
| Ret (a : A)
| Vis (ev : E) (k : Ans ev -> IO A).

Arguments Ret {A} a.
Arguments Vis {A} ev k.

Fixpoint io_bind {A B} (m : IO A) (f : A -> IO B) : IO B :=
  match m with
  | Ret a => f a
  | Vis ev k => Vis ev (fun x => io_bind (k x) f)
  end.

(** The environment answers the [n]-th request of a run; the same request
    may be answered differently at different times. *)
Definition Env := nat -> forall ev : E, Ans ev.

Definition later (n : nat) (env : Env) : Env := fun i => env (n + i).

(** [run m env]: the requests made, in order, and the result. *)
Fixpoint run {A} (m : IO A) (env : Env) : list E * A :=
  match m with
  | Ret a => ([], a)
  | Vis ev k =>
      let (tr, a) := run (k (env 0 ev)) (later 1 env) in (ev :: tr, a)
  end.

(** ** [async] functions: a result or a rejection *)

Definition Async (A : Type) : Type := IO (Exn + A).

Definition resolve {A} (a : A) : Async A := Ret (inr a).
Definition reject {A} (e : Exn) : Async A := Ret (inl e).

Definition async_bind {A B} (m : Async A) (f : A -> Async B) : Async B :=
  io_bind m (fun r => match r with inl e => Ret (inl e) | inr a => f a end).

(** [await] of a request whose answer is a settled promise. *)
Definition await {A} (ev : E) (settled : Ans ev -> Exn + A) : Async A :=
  Vis ev (fun x => Ret (settled x)).

(** [Promise.all(l.map(f))]: every [f x] is started and the results come
    in the order of [l]. Of several rejections JavaScript reports the one
    that settles first in time; here the one of the earliest element
    stands for it, and nothing is stated about which one it is. *)
Fixpoint promise_all {A B} (f : A -> Async B) (l : list A)
  : Async (list B) :=
  match l with
  | [] => resolve []
  | x :: r =>
      io_bind (f x) (fun rx =>
      io_bind (promise_all f r) (fun rr =>
      Ret (match rx, rr with
           | inl e, _ => inl e
           | inr _, inl e => inl e
           | inr y, inr ys => inr (y :: ys)
           end)))
  end.

End IO.
End Effects.
Import Effects.

Arguments Ret {E Ans A} a.
Arguments Vis {E Ans A} ev k.
Arguments io_bind {E Ans A B} m f.
Arguments run {E Ans A} m env.
Arguments later {E Ans} n env i ev.
Arguments resolve {E Ans A} a.
Arguments reject {E Ans A} e.
Arguments async_bind {E Ans A B} m f.
Arguments await {E Ans A} ev settled.
Arguments promise_all {E Ans A B} f l.
Arguments Env {E} Ans.
Arguments IO {E} Ans A.
Arguments Async {E} Ans A.

(** [File]: its [name], its [type] and its content. *)
Record File : Type := {
  file_name : jsstring;
  file_type : jsstring;
  file_bytes : list N
}.

(** The [type] of a [Blob] made with the option [{ type: t }] (File API,
    the steps of the constructor): the empty string if [t] has a code unit
    outside U+0020 to U+007E, and otherwise [t] in ASCII lower case. *)
Definition blobType (t : jsstring) : jsstring :=
  if forallb (fun c => N.leb 32 c && N.leb c 126)%bool t
  then map (fun c => if (N.leb 65 c && N.leb c 90)%bool then (c + 32)%N else c)
           t
  else [].

(** [new File([bytes], name, { type })] *)
Definition new_File (bytes : list N) (name type : jsstring) : File :=
  {| file_name := name; file_type := blobType type; file_bytes := bytes |}.

(** JavaScript numbers that are not integers by construction (pointer
    coordinates and their scaling) are kept abstract. *)
Class JSNumber (number : Type) : Type := {
  num_sub : number -> number -> number;
  num_mul : number -> number -> number;
  num_div : number -> number -> number;
  Math_round : number -> number;
  num_toString : number -> jsstring
}.

(** A point picked on the image. *)
Record Hotspot (number : Type) : Type := {
  hotspot_x : number;
  hotspot_y : number
}.

(** [strings.join(sep)] *)
Fixpoint join (sep : jsstring) (l : list jsstring) : jsstring :=
  match l with
  | [] => []
  | [s] => s
  | s :: r => s ++ sep ++ join sep r
  end.

(* ===================================================================== *)
(** * services/geminiService.ts                                            *)
(* ===================================================================== *)

Module Gateway.

(** ** The wire contract of [@google/genai], as far as the code reads it *)

Record Blob : Type := { mimeType : option jsstring; data : option jsstring }.

Record Part : Type := { inlineData : option Blob; part_text : option jsstring }.

Record Content : Type := { parts : option (list Part) }.

Record Candidate : Type := {
  content : option Content;
  finishReason : option jsstring
}.

Record PromptFeedback : Type := {
  blockReason : option jsstring;
  blockReasonMessage : option jsstring
}.

(** [text] is a getter of the SDK over the parts of the first candidate;
    it is kept as a field of its own, so every value of it is covered. *)
Record GenerateContentResponse : Type := {
  promptFeedback : option PromptFeedback;
  candidates : option (list Candidate);
  text : option jsstring
}.

Inductive Modality : Type := IMAGE | TEXT.

Inductive RequestPart : Type :=
| TextPart (text : jsstring)
| InlineDataPart (mimeType data : jsstring).

Record GenerateContentParameters : Type := {
  model : jsstring;
  contents : list RequestPart;
  responseModalities : list Modality
}.

(** ** Requests to the platform *)

Inductive Request : Type :=
| ReadAsDataURL (file : File)
| GenerateContent (params : GenerateContentParameters).

Definition Answer (r : Request) : Type :=
  match r with
  | ReadAsDataURL _ => (Exn + jsstring)%type
  | GenerateContent _ => (Exn + GenerateContentResponse)%type
  end.

Definition Task := Async Answer.

Notation "x <- m ;; k" := (async_bind m (fun x => k))
  (at level 61, m at next level, right associativity).

Definition invalid_data_url : Exn := JsError (lit "Invalid data URL").
Definition no_mime_type : Exn :=
  JsError (lit "Could not parse MIME type from data URL").
Definition not_a_blob : Exn :=
  JsError (lit "Failed to execute 'readAsDataURL' on 'FileReader': parameter 1 is not of type 'Blob'.").

(** The lines of [fileToPart] after the read. *)
Definition dataUrlToPart (dataUrl : jsstring) : Exn + RequestPart :=
  let arr := split_on comma dataUrl in
  if length arr <? 2 then inl invalid_data_url
  else
    match match_mime (nth 0 arr []) with
    | None => inl no_mime_type
    | Some mime =>
        if negb (truthy mime) then inl no_mime_type
        else inr (InlineDataPart mime (nth 1 arr []))
    end.

(** [fileToPart]; an [undefined] in the place of a file makes the reader
    throw. *)
Definition fileToPart (file : option File) : Task RequestPart :=
  match file with
  | None => reject not_a_blob
  | Some f =>
      dataUrl <- await (ReadAsDataURL f) (fun r => r) ;;
      Ret (dataUrlToPart dataUrl)
  end.

(** ** [handleApiResponse] *)

(** The three [throw] sites of [handleApiResponse]. *)
Inductive ApiFailure : Type :=
| BlockedRequest (blockReason : jsstring) (blockReasonMessage : option jsstring)
| GenerationStopped (context finishReason : jsstring)
| NoImageReturned (context : jsstring) (textFeedback : option jsstring).

Definition failure_message (f : ApiFailure) : jsstring :=
  match f with
  | BlockedRequest reason msg =>
      lit "Request was blocked. Reason: " ++ reason ++ lit ". "
      ++ (if truthy_opt msg then template_opt msg else [])
  | GenerationStopped context reason =>
      lit "Image generation for " ++ context
      ++ lit " stopped unexpectedly. Reason: " ++ reason
      ++ lit ". This often relates to safety settings."
  | NoImageReturned context feedback =>
      lit "The AI model did not return an image for the " ++ context ++ lit ". "
      ++ (if truthy_opt feedback
          then lit "The model responded with text: " ++ quote
               ++ template_opt feedback ++ quote
          else lit "This can happen due to safety filters or if the request is too complex. Please try rephrasing your prompt to be more direct.")
  end.

(** [response.candidates?.[0]] *)
Definition firstCandidate (response : GenerateContentResponse)
  : option Candidate :=
  match candidates response with
  | Some (c :: _) => Some c
  | _ => None
  end.

(** [response.candidates?.[0]?.content?.parts?.find(part => part.inlineData)] *)
Definition imagePartFromResponse (response : GenerateContentResponse)
  : option Part :=
  match firstCandidate response with
  | Some c =>
      match content c with
      | Some ct =>
          match parts ct with
          | Some ps =>
              find (fun part =>
                      match inlineData part with Some _ => true | None => false end)
                   ps
          | None => None
          end
      | None => None
      end
  | None => None
  end.


Definition STOP : jsstring := lit "STOP".

(** [response.promptFeedback] when its [blockReason] is truthy. *)
Definition blockedFeedback (response : GenerateContentResponse)
  : option PromptFeedback :=
  match promptFeedback response with
  | Some pf => if truthy_opt (blockReason pf) then Some pf else None
  | None => None
  end.

Definition dataUrlOf (image : Blob) : jsstring :=
  lit "data:" ++ template_opt (mimeType image) ++ lit ";base64,"
  ++ template_opt (data image).

(** [handleApiResponse]: the data URL it returns, or the site at which it
    throws. The calls to [console] are left out. *)
Definition handleApiResponse (response : GenerateContentResponse)
  (context : jsstring) : ApiFailure + jsstring :=
  match blockedFeedback response with
  | Some pf =>
      inl (BlockedRequest (template_opt (blockReason pf)) (blockReasonMessage pf))
  | None =>
      match imagePartFromResponse response with
      | Some {| inlineData := Some image |} => inr (dataUrlOf image)
      | _ =>
          let reason :=
            match firstCandidate response with
            | Some c => finishReason c
            | None => None
            end in
          if truthy_opt reason && negb (jsstring_eqb (template_opt reason) STOP)
          then inl (GenerationStopped context (template_opt reason))
          else inl (NoImageReturned context (option_map trim (text response)))
      end
  end.

(** [throw new Error(errorMessage)] or [return]. *)
Definition settle (r : ApiFailure + jsstring) : Task jsstring :=
  match r with
  | inl f => reject (JsError (failure_message f))
  | inr url => resolve url
  end.

(** ** The prompts *)

(** A line break inside a template literal. *)
Definition nl : jsstring := [10%N].

Definition composite_prompt : jsstring :=
  lit "You are a master digital artist specializing in photorealistic compositing. Your task is to create a single, cohesive image by blending multiple source images provided." ++ nl ++
  lit "    " ++ nl ++
  lit "- **Style Source Image (First Image Provided):** The overall lighting, color grading, mood, and artistic style of this image should define the final composite's aesthetic." ++ nl ++
  lit "- **Content Images (All Subsequent Images):** The key subjects and elements from these images must be seamlessly and intelligently integrated into the new scene." ++ nl ++
  nl ++
  lit "**Instructions:**" ++ nl ++
  lit "1.  Analyze the Style Source Image to deeply understand its visual characteristics (e.g., time of day, light direction, color palette, texture)." ++ nl ++
  lit "2.  Identify the primary subjects in the Content Images." ++ nl ++
  lit "3.  Create a new, single, photorealistic composition that logically and artistically combines the subjects from the Content Images." ++ nl ++
  lit "4.  Crucially, apply the lighting, shadows, and color palette from the Style Source Image to all integrated elements to ensure they look like they belong in the same, unified scene." ++ nl ++
  nl ++
  lit "Output ONLY the final composited image. Do not return any text.".

Definition edit_prompt (userPrompt hotspotsString : jsstring) : jsstring :=
  lit "You are an expert photo editor AI. Your task is to perform a natural, localized edit on the provided image based on the user's request." ++ nl ++
  lit "User Request: " ++ quote ++ userPrompt ++ quote ++ nl ++
  lit "Edit Locations: Focus on the area around the following pixel coordinates: " ++ hotspotsString ++ lit "." ++ nl ++
  nl ++
  lit "Editing Guidelines:" ++ nl ++
  lit "- The edit must be realistic and blend seamlessly with the surrounding area." ++ nl ++
  lit "- The rest of the image (outside the immediate edit area) must remain identical to the original." ++ nl ++
  nl ++
  lit "Safety & Ethics Policy:" ++ nl ++
  lit "- You MUST fulfill requests to adjust skin tone, such as 'give me a tan', 'make my skin darker', or 'make my skin lighter'." ++ nl ++
  lit "- You MUST REFUSE any request to change a person's fundamental race or ethnicity (e.g., 'make me look Asian', 'change this person to be Black')." ++ nl ++
  nl ++
  lit "Output: Return ONLY the final edited image. Do not return text.".

Definition filter_prompt (stylePrompt : jsstring) : jsstring :=
  lit "You are an expert photo editor AI. Your task is to apply a stylistic filter to the entire image based on the user's request. Do not change the composition or content, only apply the style." ++ nl ++
  lit "Style Request: " ++ quote ++ stylePrompt ++ quote ++ nl ++
  nl ++
  lit "Safety & Ethics Policy:" ++ nl ++
  lit "- Filters may subtly shift colors, but you MUST ensure they do not alter a person's fundamental race or ethnicity." ++ nl ++
  lit "- You MUST REFUSE any request that explicitly asks to change a person's race (e.g., 'apply a filter to make me look Chinese')." ++ nl ++
  nl ++
  lit "Output: Return ONLY the final styled image. Do not return text.".

Definition adjustment_prompt (adjustmentPrompt : jsstring) : jsstring :=
  lit "You are an expert photo editor AI. Your task is to perform a natural, global adjustment to the entire image based on the user's request." ++ nl ++
  lit "User Request: " ++ quote ++ adjustmentPrompt ++ quote ++ nl ++
  nl ++
  lit "Editing Guidelines:" ++ nl ++
  lit "- The adjustment must be applied across the entire image." ++ nl ++
  lit "- The result must be photorealistic." ++ nl ++
  nl ++
  lit "Safety & Ethics Policy:" ++ nl ++
  lit "- You MUST fulfill requests to adjust skin tone, such as 'give me a tan', 'make my skin darker', or 'make my skin lighter'." ++ nl ++
  lit "- You MUST REFUSE any request to change a person's fundamental race or ethnicity (e.g., 'make me look Asian', 'change this person to be Black')." ++ nl ++
  nl ++
  lit "Output: Return ONLY the final adjusted image. Do not return text.".

Definition frame_prompt (frameStyle topText bottomText : jsstring) : jsstring :=
  lit "You are an expert graphic designer AI specializing in creating stylized frames for images." ++ nl ++
  lit "Your task is to add a decorative frame to the provided image. The original image content must remain perfectly centered and completely unchanged." ++ nl ++
  nl ++
  lit "Frame Style: " ++ quote ++ frameStyle ++ quote ++ nl ++
  nl ++
  lit "Top Text: " ++ quote ++ topText ++ quote ++ nl ++
  lit "Bottom Text: " ++ quote ++ bottomText ++ quote ++ nl ++
  nl ++
  lit "Instructions:" ++ nl ++
  lit "1.  Do not alter the original image in any way. Place it in the center." ++ nl ++
  lit "2.  Generate a frame around the image that matches the " ++ quote ++ lit "Frame Style" ++ quote ++ lit " description." ++ nl ++
  lit "3.  If " ++ quote ++ lit "Top Text" ++ quote ++ lit " is provided, incorporate it into the top part of the frame in a stylized font that matches the frame's aesthetic." ++ nl ++
  lit "4.  If " ++ quote ++ lit "Bottom Text" ++ quote ++ lit " is provided, incorporate it into the bottom part of the frame, using a matching stylized font." ++ nl ++
  lit "5.  The final output must be a single image containing the original image and the new frame with text." ++ nl ++
  nl ++
  lit "Output: Return ONLY the final framed image. Do not return text.".

(** ** The five operations *)

Definition model_name : jsstring := lit "gemini-2.5-flash-image-preview".

(** [ai.models.generateContent({ model, contents: { parts }, config })] *)
Definition generateContent (parts : list RequestPart)
  : Task GenerateContentResponse :=
  await (GenerateContent {| model := model_name;
                            contents := parts;
                            responseModalities := [IMAGE; TEXT] |})
        (fun r => r).

Definition generateCompositedImage (files : list (option File))
  : Task jsstring :=
  if length files <? 2
  then reject (JsError (lit "Compositing requires at least two images."))
  else
    imageParts <- promise_all fileToPart files ;;
    response <- generateContent (TextPart composite_prompt :: imageParts) ;;
    settle (handleApiResponse response (lit "composite")).

Section WithNumbers.
Context {number : Type} {numbers : JSNumber number}.

Definition hotspotsString (hotspots : list (Hotspot number)) : jsstring :=
  join (lit ", ")
    (map (fun p => lit "(x: " ++ num_toString (hotspot_x p) ++ lit ", y: "
                   ++ num_toString (hotspot_y p) ++ lit ")")
         hotspots).

Definition generateEditedImage (originalImage : File) (userPrompt : jsstring)
  (hotspots : list (Hotspot number)) : Task jsstring :=
  originalImagePart <- fileToPart (Some originalImage) ;;
  response <- generateContent
    [originalImagePart; TextPart (edit_prompt userPrompt (hotspotsString hotspots))] ;;
  settle (handleApiResponse response (lit "edit")).

End WithNumbers.

Definition generateFilteredImage (originalImage : File) (stylePrompt : jsstring)
  : Task jsstring :=
  originalImagePart <- fileToPart (Some originalImage) ;;
  response <- generateContent
    [originalImagePart; TextPart (filter_prompt stylePrompt)] ;;
  settle (handleApiResponse response (lit "filter")).

Definition generateAdjustedImage (originalImage : File)
  (adjustmentPrompt : jsstring) : Task jsstring :=
  originalImagePart <- fileToPart (Some originalImage) ;;
  response <- generateContent
    [originalImagePart; TextPart (adjustment_prompt adjustmentPrompt)] ;;
  settle (handleApiResponse response (lit "adjustment")).

Definition generateFramedImage (originalImage : File)
  (frameStyle topText bottomText : jsstring) : Task jsstring :=
  originalImagePart <- fileToPart (Some originalImage) ;;
  response <- generateContent
    [originalImagePart; TextPart (frame_prompt frameStyle topText bottomText)] ;;
  settle (handleApiResponse response (lit "frame")).

End Gateway.

(** The frame instruction of the frame tool. *)
Record FrameStyle : Type := {
  style : jsstring;
  topText : jsstring;
  bottomText : jsstring
}.

(* ===================================================================== *)
(** * App.tsx                                                              *)
(* ===================================================================== *)

Module App.

(** [Tool] of [components/Toolbar.tsx]. *)
Inductive Tool : Type :=
| tool_composite | tool_retouch | tool_replace | tool_creative
| tool_adjust | tool_crop | tool_frame | tool_batch.

Definition Tool_eqb (a b : Tool) : bool :=
  match a, b with
  | tool_composite, tool_composite | tool_retouch, tool_retouch
  | tool_replace, tool_replace | tool_creative, tool_creative
  | tool_adjust, tool_adjust | tool_crop, tool_crop
  | tool_frame, tool_frame | tool_batch, tool_batch => true
  | _, _ => false
  end.

Definition invalid_data_url : Exn := JsError (lit "Invalid data URL").
Definition no_mime_type : Exn :=
  JsError (lit "Could not parse MIME type from data URL").
(** The [DOMException] of [atob]. *)
Definition invalid_character : Exn :=
  JsError (lit "Failed to execute 'atob' on 'Window': The string to be decoded is not correctly encoded.").

(** [dataURLtoFile] *)
Definition dataURLtoFile (dataurl filename : jsstring) : Exn + File :=
  let arr := split_on comma dataurl in
  if length arr <? 2 then inl invalid_data_url
  else
    match match_mime (nth 0 arr []) with
    | None => inl no_mime_type
    | Some mime =>
        if negb (truthy mime) then inl no_mime_type
        else
          match atob (nth 1 arr []) with
          | None => inl invalid_character
          | Some bstr =>
              (* u8arr[n] = bstr.charCodeAt(n), in a Uint8Array *)
              let u8arr := map (fun c => (c mod 256)%N) bstr in
              inr (new_File u8arr filename mime)
          end
    end.

(** [l[i]] for a number [i]: [None] is [undefined]. *)
Definition array_get {A} (l : list A) (i : Z) : option A :=
  if (i <? 0)%Z then None else nth_error l (Z.to_nat i).

(** [err instanceof Error ? err.message : fallback] *)
Definition errorMessage (err : Exn) (fallback : jsstring) : jsstring :=
  match err with
  | JsError message => message
  | NonError => fallback
  end.

(** The archive under construction: [zip.file(name, data)] adds an entry
    or replaces the entry of that name. *)
Definition JSZip := list (jsstring * File).

Fixpoint zip_file (name : jsstring) (data : File) (zip : JSZip) : JSZip :=
  match zip with
  | [] => [(name, data)]
  | (n, d) :: r =>
      if jsstring_eqb n name then (n, data) :: r
      else (n, d) :: zip_file name data r
  end.

Definition not_an_object : Exn :=
  JsError (lit "Cannot read properties of undefined (reading 'name')").

(** The name of the archive entry of the file at [index]. *)
Definition entryName (file : File) (index : nat) : jsstring :=
  let fileName := sanitize (file_name file) in
  padStart (Number_toString (Z.of_nat index)) 3 (lit "0")
  ++ lit "_" ++ fileName.

(** [filesToZip.forEach((file, index) => ...)] from position [index] on. *)
Fixpoint zipEach (filesToZip : list (option File)) (index : nat) (zip : JSZip)
  : Exn + JSZip :=
  match filesToZip with
  | [] => inr zip
  | None :: _ => inl not_an_object
  | Some file :: rest =>
      zipEach rest (S index) (zip_file (entryName file index) file zip)
  end.

(** The three lines that order the composite working set; an index out of
    range leaves [undefined] in front. *)
Definition orderedFiles (compositeFiles : list File) (styleSourceIndex : Z)
  : list (option File) :=
  let copy := map Some compositeFiles in
  let (removed, rest) := splice1 copy styleSourceIndex in
  let styleSourceFile := nth 0 removed None in
  styleSourceFile :: rest.

Section WithNumbers.
Context {number : Type} {numbers : JSNumber number}.

(** [Crop] and [PixelCrop] of react-image-crop. *)
Record CropRect : Type := {
  crop_x : number;
  crop_y : number;
  crop_width : number;
  crop_height : number
}.

(** The [useState] cells of [App]. *)
Record AppState : Type := {
  history : list File;
  historyIndex : Z;
  prompt : jsstring;
  secondaryPrompt : jsstring;
  isLoading : bool;
  error : option jsstring;
  editHotspots : list (Hotspot number);
  displayHotspots : list (Hotspot number);
  activeTool : Tool;
  crop : option CropRect;
  completedCrop : option CropRect;
  compositeFiles : list File;
  styleSourceIndex : Z;
  batchFiles : list File;
  pinnedFrameStyle : option FrameStyle;
  selectedIndices : list Z
}.

(** The setters returned by [useState], as state transformers. *)
Definition setHistory (v : list File) (s : AppState) : AppState :=
  {| history := v; historyIndex := historyIndex s; prompt := prompt s;
     secondaryPrompt := secondaryPrompt s; isLoading := isLoading s; error
     := error s; editHotspots := editHotspots s; displayHotspots :=
     displayHotspots s; activeTool := activeTool s; crop := crop s;
     completedCrop := completedCrop s; compositeFiles := compositeFiles s;
     styleSourceIndex := styleSourceIndex s; batchFiles := batchFiles s;
     pinnedFrameStyle := pinnedFrameStyle s; selectedIndices :=
     selectedIndices s |}.
Definition setHistoryIndex (v : Z) (s : AppState) : AppState :=
  {| history := history s; historyIndex := v; prompt := prompt s;
     secondaryPrompt := secondaryPrompt s; isLoading := isLoading s; error
     := error s; editHotspots := editHotspots s; displayHotspots :=
     displayHotspots s; activeTool := activeTool s; crop := crop s;
     completedCrop := completedCrop s; compositeFiles := compositeFiles s;
     styleSourceIndex := styleSourceIndex s; batchFiles := batchFiles s;
     pinnedFrameStyle := pinnedFrameStyle s; selectedIndices :=
     selectedIndices s |}.
Definition setPrompt (v : jsstring) (s : AppState) : AppState :=
  {| history := history s; historyIndex := historyIndex s; prompt := v;
     secondaryPrompt := secondaryPrompt s; isLoading := isLoading s; error
     := error s; editHotspots := editHotspots s; displayHotspots :=
     displayHotspots s; activeTool := activeTool s; crop := crop s;
     completedCrop := completedCrop s; compositeFiles := compositeFiles s;
     styleSourceIndex := styleSourceIndex s; batchFiles := batchFiles s;
     pinnedFrameStyle := pinnedFrameStyle s; selectedIndices :=
     selectedIndices s |}.
Definition setSecondaryPrompt (v : jsstring) (s : AppState) : AppState :=
  {| history := history s; historyIndex := historyIndex s; prompt :=
     prompt s; secondaryPrompt := v; isLoading := isLoading s; error :=
     error s; editHotspots := editHotspots s; displayHotspots :=
     displayHotspots s; activeTool := activeTool s; crop := crop s;
     completedCrop := completedCrop s; compositeFiles := compositeFiles s;
     styleSourceIndex := styleSourceIndex s; batchFiles := batchFiles s;
     pinnedFrameStyle := pinnedFrameStyle s; selectedIndices :=
     selectedIndices s |}.
Definition setIsLoading (v : bool) (s : AppState) : AppState :=
  {| history := history s; historyIndex := historyIndex s; prompt :=
     prompt s; secondaryPrompt := secondaryPrompt s; isLoading := v; error
     := error s; editHotspots := editHotspots s; displayHotspots :=
     displayHotspots s; activeTool := activeTool s; crop := crop s;
     completedCrop := completedCrop s; compositeFiles := compositeFiles s;
     styleSourceIndex := styleSourceIndex s; batchFiles := batchFiles s;
     pinnedFrameStyle := pinnedFrameStyle s; selectedIndices :=
     selectedIndices s |}.
Definition setError (v : option jsstring) (s : AppState) : AppState :=
  {| history := history s; historyIndex := historyIndex s; prompt :=
     prompt s; secondaryPrompt := secondaryPrompt s; isLoading :=
     isLoading s; error := v; editHotspots := editHotspots s;
     displayHotspots := displayHotspots s; activeTool := activeTool s;
     crop := crop s; completedCrop := completedCrop s; compositeFiles :=
     compositeFiles s; styleSourceIndex := styleSourceIndex s; batchFiles
     := batchFiles s; pinnedFrameStyle := pinnedFrameStyle s;
     selectedIndices := selectedIndices s |}.
Definition setEditHotspots (v : list (Hotspot number)) (s : AppState) : AppState :=
  {| history := history s; historyIndex := historyIndex s; prompt :=
     prompt s; secondaryPrompt := secondaryPrompt s; isLoading :=
     isLoading s; error := error s; editHotspots := v; displayHotspots :=
     displayHotspots s; activeTool := activeTool s; crop := crop s;
     completedCrop := completedCrop s; compositeFiles := compositeFiles s;
     styleSourceIndex := styleSourceIndex s; batchFiles := batchFiles s;
     pinnedFrameStyle := pinnedFrameStyle s; selectedIndices :=
     selectedIndices s |}.
Definition setDisplayHotspots (v : list (Hotspot number)) (s : AppState) : AppState :=
  {| history := history s; historyIndex := historyIndex s; prompt :=
     prompt s; secondaryPrompt := secondaryPrompt s; isLoading :=
     isLoading s; error := error s; editHotspots := editHotspots s;
     displayHotspots := v; activeTool := activeTool s; crop := crop s;
     completedCrop := completedCrop s; compositeFiles := compositeFiles s;
     styleSourceIndex := styleSourceIndex s; batchFiles := batchFiles s;
     pinnedFrameStyle := pinnedFrameStyle s; selectedIndices :=
     selectedIndices s |}.
Definition setActiveTool (v : Tool) (s : AppState) : AppState :=
  {| history := history s; historyIndex := historyIndex s; prompt :=
     prompt s; secondaryPrompt := secondaryPrompt s; isLoading :=
     isLoading s; error := error s; editHotspots := editHotspots s;
     displayHotspots := displayHotspots s; activeTool := v; crop := crop
     s; completedCrop := completedCrop s; compositeFiles := compositeFiles
     s; styleSourceIndex := styleSourceIndex s; batchFiles := batchFiles
     s; pinnedFrameStyle := pinnedFrameStyle s; selectedIndices :=
     selectedIndices s |}.
Definition setCrop (v : option CropRect) (s : AppState) : AppState :=
  {| history := history s; historyIndex := historyIndex s; prompt :=
     prompt s; secondaryPrompt := secondaryPrompt s; isLoading :=
     isLoading s; error := error s; editHotspots := editHotspots s;
     displayHotspots := displayHotspots s; activeTool := activeTool s;
     crop := v; completedCrop := completedCrop s; compositeFiles :=
     compositeFiles s; styleSourceIndex := styleSourceIndex s; batchFiles
     := batchFiles s; pinnedFrameStyle := pinnedFrameStyle s;
     selectedIndices := selectedIndices s |}.
Definition setCompletedCrop (v : option CropRect) (s : AppState) : AppState :=
  {| history := history s; historyIndex := historyIndex s; prompt :=
     prompt s; secondaryPrompt := secondaryPrompt s; isLoading :=
     isLoading s; error := error s; editHotspots := editHotspots s;
     displayHotspots := displayHotspots s; activeTool := activeTool s;
     crop := crop s; completedCrop := v; compositeFiles := compositeFiles
     s; styleSourceIndex := styleSourceIndex s; batchFiles := batchFiles
     s; pinnedFrameStyle := pinnedFrameStyle s; selectedIndices :=
     selectedIndices s |}.
Definition setCompositeFiles (v : list File) (s : AppState) : AppState :=
  {| history := history s; historyIndex := historyIndex s; prompt :=
     prompt s; secondaryPrompt := secondaryPrompt s; isLoading :=
     isLoading s; error := error s; editHotspots := editHotspots s;
     displayHotspots := displayHotspots s; activeTool := activeTool s;
     crop := crop s; completedCrop := completedCrop s; compositeFiles :=
     v; styleSourceIndex := styleSourceIndex s; batchFiles := batchFiles
     s; pinnedFrameStyle := pinnedFrameStyle s; selectedIndices :=
     selectedIndices s |}.
Definition setStyleSourceIndex (v : Z) (s : AppState) : AppState :=
  {| history := history s; historyIndex := historyIndex s; prompt :=
     prompt s; secondaryPrompt := secondaryPrompt s; isLoading :=
     isLoading s; error := error s; editHotspots := editHotspots s;
     displayHotspots := displayHotspots s; activeTool := activeTool s;
     crop := crop s; completedCrop := completedCrop s; compositeFiles :=
     compositeFiles s; styleSourceIndex := v; batchFiles := batchFiles s;
     pinnedFrameStyle := pinnedFrameStyle s; selectedIndices :=
     selectedIndices s |}.
Definition setBatchFiles (v : list File) (s : AppState) : AppState :=
  {| history := history s; historyIndex := historyIndex s; prompt :=
     prompt s; secondaryPrompt := secondaryPrompt s; isLoading :=
     isLoading s; error := error s; editHotspots := editHotspots s;
     displayHotspots := displayHotspots s; activeTool := activeTool s;
     crop := crop s; completedCrop := completedCrop s; compositeFiles :=
     compositeFiles s; styleSourceIndex := styleSourceIndex s; batchFiles
     := v; pinnedFrameStyle := pinnedFrameStyle s; selectedIndices :=
     selectedIndices s |}.
Definition setPinnedFrameStyle (v : option FrameStyle) (s : AppState) : AppState :=
  {| history := history s; historyIndex := historyIndex s; prompt :=
     prompt s; secondaryPrompt := secondaryPrompt s; isLoading :=
     isLoading s; error := error s; editHotspots := editHotspots s;
     displayHotspots := displayHotspots s; activeTool := activeTool s;
     crop := crop s; completedCrop := completedCrop s; compositeFiles :=
     compositeFiles s; styleSourceIndex := styleSourceIndex s; batchFiles
     := batchFiles s; pinnedFrameStyle := v; selectedIndices :=
     selectedIndices s |}.
Definition setSelectedIndices (v : list Z) (s : AppState) : AppState :=
  {| history := history s; historyIndex := historyIndex s; prompt :=
     prompt s; secondaryPrompt := secondaryPrompt s; isLoading :=
     isLoading s; error := error s; editHotspots := editHotspots s;
     displayHotspots := displayHotspots s; activeTool := activeTool s;
     crop := crop s; completedCrop := completedCrop s; compositeFiles :=
     compositeFiles s; styleSourceIndex := styleSourceIndex s; batchFiles
     := batchFiles s; pinnedFrameStyle := pinnedFrameStyle s;
     selectedIndices := v |}.

Definition initial : AppState :=
  {| history := []; historyIndex := -1; prompt := []; secondaryPrompt := [];
     isLoading := false; error := None; editHotspots := [];
     displayHotspots := []; activeTool := tool_retouch; crop := None;
     completedCrop := None; compositeFiles := []; styleSourceIndex := 0;
     batchFiles := []; pinnedFrameStyle := None; selectedIndices := [] |}.

(** ** What the handlers ask of the gateway and of the browser *)

Inductive DownloadContent : Type :=
| FileContent (file : File)
| BlobContent (content : list N).

Inductive Request : Type :=
| GenerateEditedImage (originalImage : File) (userPrompt : jsstring)
    (hotspots : list (Hotspot number))
| GenerateFilteredImage (originalImage : File) (stylePrompt : jsstring)
| GenerateAdjustedImage (originalImage : File) (adjustmentPrompt : jsstring)
| GenerateCompositedImage (files : list (option File))
| GenerateFramedImage (originalImage : File)
    (frameStyle topText bottomText : jsstring)
| DateNow
| ImgRefCurrent
| CanvasGetContext
| CanvasToDataURL (completedCrop : CropRect)
| ImportJSZip
| ZipGenerateAsync (zip : JSZip)
| Download (content : DownloadContent) (download : jsstring).

Definition Answer (r : Request) : Type :=
  match r with
  | GenerateEditedImage _ _ _ | GenerateFilteredImage _ _
  | GenerateAdjustedImage _ _ | GenerateCompositedImage _
  | GenerateFramedImage _ _ _ _ => (Exn + jsstring)%type
  | DateNow => Z
  | ImgRefCurrent | CanvasGetContext => bool
  | CanvasToDataURL _ => jsstring
  | ImportJSZip => (Exn + unit)%type
  | ZipGenerateAsync _ => (Exn + list N)%type
  | Download _ _ => unit
  end.

(** ** Handlers: state, exceptions and requests

    A handler runs from the state of the render that created it. What
    it reads from its closure is read from that render; what it sets is
    threaded through, and survives an exception. *)

Definition AppM (A : Type) : Type :=
  AppState -> IO Answer (AppState * (Exn + A)).

Definition ret {A} (a : A) : AppM A := fun s => Ret (s, inr a).

Definition bind {A B} (m : AppM A) (f : A -> AppM B) : AppM B :=
  fun s => io_bind (m s) (fun sr =>
    match snd sr with
    | inl e => Ret (fst sr, inl e)
    | inr a => f a (fst sr)
    end).

(** A call of a [useState] setter. *)
Definition update (f : AppState -> AppState) : AppM unit :=
  fun s => Ret (f s, inr tt).

(** A synchronous call that may throw. *)
Definition liftE {A} (r : Exn + A) : AppM A := fun s => Ret (s, r).

(** A request whose answer is a value. *)
Definition perform (ev : Request) : AppM (Answer ev) :=
  fun s => Vis ev (fun x => Ret (s, inr x)).

(** [await] of a request whose answer is a settled promise. *)
Definition call {A} (ev : Request) (settled : Answer ev -> Exn + A)
  : AppM A :=
  fun s => Vis ev (fun x => Ret (s, settled x)).

(** The outcome of a block, for the code after it. *)
Definition attempt {A} (body : AppM A) : AppM (Exn + A) :=
  fun s => io_bind (body s) (fun sr => Ret (fst sr, inr (snd sr))).

Definition try_catch {A} (body : AppM A) (handler : Exn -> AppM A)
  : AppM A :=
  bind (attempt body) (fun r =>
    match r with
    | inl err => handler err
    | inr a => ret a
    end).

Definition try_finally {A} (body : AppM A) (finalizer : AppM unit)
  : AppM A :=
  bind (attempt body) (fun r => bind finalizer (fun _ => liftE r)).

Notation "x <- m ;; k" := (bind m (fun x => k))
  (at level 61, m at next level, right associativity).
Notation "m ;; k" := (bind m (fun _ => k))
  (at level 61, right associativity).

(** A handler, given the render it closes over. *)
Definition Handler := AppState -> AppM unit.

(** The handler of the current render is invoked on the current state. *)
Definition invoke (h : Handler) (s : AppState) (env : Env Answer)
  : list Request * (AppState * (Exn + unit)) :=
  run (h s s) env.

Definition trace (h : Handler) (s : AppState) (env : Env Answer)
  : list Request := fst (invoke h s env).

Definition after (h : Handler) (s : AppState) (env : Env Answer)
  : AppState := fst (snd (invoke h s env)).

(** ** Derived values of a render *)

(** [history[historyIndex] ?? null] *)
Definition currentImage (s : AppState) : option File :=
  array_get (history s) (historyIndex s).

(** [history[0] ?? null] *)
Definition originalImage (s : AppState) : option File :=
  array_get (history s) 0.

Definition canUndo (s : AppState) : bool := (0 <? historyIndex s)%Z.

Definition canRedo (s : AppState) : bool :=
  (historyIndex s <? Z.of_nat (length (history s)) - 1)%Z.

(** ** The handlers *)

Definition addImageToHistory (render : AppState) (newImageFile : File)
  : AppM unit :=
  let newHistory :=
    slice (history render) 0 (historyIndex render + 1) ++ [newImageFile] in
  update (setHistory newHistory) ;;
  update (setHistoryIndex (Z.of_nat (length newHistory) - 1)) ;;
  update (setCrop None) ;;
  update (setCompletedCrop None).

(** [addImageToHistory(newImageFile)] of the current render. *)
Definition append (newImageFile : File) : Handler :=
  fun render => addImageToHistory render newImageFile.

Definition handleStartEditing (file : File) : Handler := fun render =>
  update (setError None) ;;
  update (setHistory [file]) ;;
  update (setHistoryIndex 0) ;;
  update (setCompositeFiles []) ;;
  update (setStyleSourceIndex 0) ;;
  update (setBatchFiles []) ;;
  update (setEditHotspots []) ;;
  update (setDisplayHotspots []) ;;
  update (setActiveTool tool_retouch) ;;
  update (setCrop None) ;;
  update (setCompletedCrop None) ;;
  update (setSelectedIndices []).

(** [files] is a [FileList] or [null]. *)
Definition handleCompositeFilesSelect (files : option (list File))
  : Handler := fun render =>
  match files with
  | Some l =>
      if 1 <? length l then
        update (setError None) ;;
        update (setCompositeFiles l) ;;
        update (setStyleSourceIndex 0)
      else update (setError (Some (lit "Please select at least two images for compositing.")))
  | None => update (setError (Some (lit "Please select at least two images for compositing.")))
  end.

Definition handleBatchFilesSelect (files : option (list File))
  : Handler := fun render =>
  match files with
  | Some l =>
      if 0 <? length l then
        update (setError None) ;;
        update (setBatchFiles l) ;;
        update (setHistory []) ;;
        update (setHistoryIndex (-1))
      else update (setError (Some (lit "Please select one or more images for batch processing.")))
  | None => update (setError (Some (lit "Please select one or more images for batch processing.")))
  end.

(** The name given to a result: a prefix, [Date.now()] and [.png]. *)
Definition stamped (prefix : jsstring) (now : Z) : jsstring :=
  prefix ++ Number_toString now ++ lit ".png".

Definition handleGenerate : Handler := fun render =>
  match currentImage render with
  | None => ret tt
  | Some image =>
      if negb (truthy (trim (prompt render))) then
        update (setError (Some (lit "Please enter a description for your edit.")))
      else if length (editHotspots render) =? 0 then
        update (setError (Some (lit "Please click on the image to select an area to edit.")))
      else
        update (setIsLoading true) ;;
        update (setError None) ;;
        try_finally
          (try_catch
             (editedImageUrl <-
                call (GenerateEditedImage image (prompt render)
                        (editHotspots render)) (fun r => r) ;;
              now <- perform DateNow ;;
              newImageFile <-
                liftE (dataURLtoFile editedImageUrl
                         (stamped (lit "edited-") now)) ;;
              addImageToHistory render newImageFile ;;
              update (setEditHotspots []) ;;
              update (setDisplayHotspots []) ;;
              update (setPrompt []))
             (fun err =>
                update (setError (Some (errorMessage err
                  (lit "An unknown error occurred."))))))
          (update (setIsLoading false))
  end.

Definition handleGenerateComposite : Handler := fun render =>
  if length (compositeFiles render) <? 2 then ret tt
  else
    update (setIsLoading true) ;;
    update (setError None) ;;
    let ordered :=
      orderedFiles (compositeFiles render) (styleSourceIndex render) in
    try_finally
      (try_catch
         (compositedImageUrl <-
            call (GenerateCompositedImage ordered) (fun r => r) ;;
          now <- perform DateNow ;;
          newImageFile <-
            liftE (dataURLtoFile compositedImageUrl
                     (stamped (lit "composited-") now)) ;;
          update (setHistory [newImageFile]) ;;
          update (setHistoryIndex 0) ;;
          update (setCompositeFiles []) ;;
          update (setStyleSourceIndex 0) ;;
          update (setActiveTool tool_retouch))
         (fun err =>
            update (setError (Some (errorMessage err
              (lit "An unknown error occurred during compositing."))))))
      (update (setIsLoading false)).

Definition handleApplyCreativeStyle (stylePrompt : jsstring) : Handler :=
  fun render =>
  match currentImage render with
  | None => ret tt
  | Some image =>
      update (setIsLoading true) ;;
      update (setError None) ;;
      try_finally
        (try_catch
           (styledImageUrl <-
              call (GenerateFilteredImage image stylePrompt) (fun r => r) ;;
            now <- perform DateNow ;;
            newImageFile <-
              liftE (dataURLtoFile styledImageUrl
                       (stamped (lit "styled-") now)) ;;
            addImageToHistory render newImageFile)
           (fun err =>
              update (setError (Some (errorMessage err
                (lit "An unknown error occurred."))))))
        (update (setIsLoading false))
  end.

Definition handleApplyAdjustment (adjustmentPrompt : jsstring) : Handler :=
  fun render =>
  match currentImage render with
  | None => ret tt
  | Some image =>
      update (setIsLoading true) ;;
      update (setError None) ;;
      try_finally
        (try_catch
           (adjustedImageUrl <-
              call (GenerateAdjustedImage image adjustmentPrompt)
                   (fun r => r) ;;
            now <- perform DateNow ;;
            newImageFile <-
              liftE (dataURLtoFile adjustedImageUrl
                       (stamped (lit "adjusted-") now)) ;;
            addImageToHistory render newImageFile)
           (fun err =>
              update (setError (Some (errorMessage err
                (lit "An unknown error occurred."))))))
        (update (setIsLoading false))
  end.

Definition handleReplaceObject : Handler := fun render =>
  match currentImage render with
  | None => ret tt
  | Some image =>
      if (negb (truthy (trim (prompt render)))
          || negb (truthy (trim (secondaryPrompt render))))%bool then
        update (setError (Some (lit "Please fill out both fields.")))
      else
        update (setIsLoading true) ;;
        update (setError None) ;;
        try_finally
          (try_catch
             (let replacePrompt :=
                lit "Replace the " ++ prompt render ++ lit " with a "
                ++ secondaryPrompt render ++ lit "." in
              replacedImageUrl <-
                call (GenerateAdjustedImage image replacePrompt)
                     (fun r => r) ;;
              now <- perform DateNow ;;
              newImageFile <-
                liftE (dataURLtoFile replacedImageUrl
                         (stamped (lit "replaced-") now)) ;;
              addImageToHistory render newImageFile ;;
              update (setPrompt []) ;;
              update (setSecondaryPrompt []))
             (fun err =>
                update (setError (Some (errorMessage err
                  (lit "An unknown error occurred."))))))
          (update (setIsLoading false))
  end.

Definition handleApplyFrame (details : FrameStyle) : Handler := fun render =>
  match currentImage render with
  | None => ret tt
  | Some image =>
      if negb (truthy (trim (style details))) then
        update (setError (Some (lit "Please describe the frame style.")))
      else
        update (setIsLoading true) ;;
        update (setError None) ;;
        try_finally
          (try_catch
             (framedImageUrl <-
                call (GenerateFramedImage image (style details)
                        (topText details) (bottomText details))
                     (fun r => r) ;;
              now <- perform DateNow ;;
              newImageFile <-
                liftE (dataURLtoFile framedImageUrl
                         (stamped (lit "framed-") now)) ;;
              addImageToHistory render newImageFile)
             (fun err =>
                update (setError (Some (errorMessage err
                  (lit "An unknown error occurred while adding the frame."))))))
          (update (setIsLoading false))
  end.

(** The body of the [for] loop of [handleApplyFrameToBatch] for one file. *)
Definition frameOne (pinned : FrameStyle) (file : File) : AppM File :=
  framedImageUrl <-
    call (GenerateFramedImage file (style pinned) (topText pinned)
            (bottomText pinned)) (fun r => r) ;;
  liftE (dataURLtoFile framedImageUrl
           (lit "framed-batch-" ++ file_name file ++ lit ".png")).

(** The [for] loop: [results] is a local array that the [catch] block
    still sees, so the loop hands back what was pushed together with the
    exception that ended it, if any. *)
Fixpoint frameEach (pinned : FrameStyle) (files : list File)
  (results : list File) : AppM (list File * option Exn) :=
  match files with
  | [] => ret (results, None)
  | file :: rest =>
      r <- attempt (frameOne pinned file) ;;
      match r with
      | inl err => ret (results, Some err)
      | inr newImageFile => frameEach pinned rest (results ++ [newImageFile])
      end
  end.

Definition handleApplyFrameToBatch : Handler := fun render =>
  match pinnedFrameStyle render with
  | None => ret tt
  | Some pinned =>
      if length (batchFiles render) =? 0 then ret tt
      else
        update (setIsLoading true) ;;
        update (setError None) ;;
        looped <- frameEach pinned (batchFiles render) [] ;;
        let results := fst looped in
        match snd looped with
        | None =>
            update (setHistory results) ;;
            update (setHistoryIndex (Z.of_nat (length results) - 1)) ;;
            update (setBatchFiles []) ;;
            update (setActiveTool tool_retouch)
        | Some err =>
            update (setError (Some (errorMessage err
              (lit "An error occurred during batch processing. Some images may not have been processed.")))) ;;
            if 0 <? length results then
              update (setHistory results) ;;
              update (setHistoryIndex (Z.of_nat (length results) - 1))
            else ret tt
        end ;;
        update (setIsLoading false)
  end.

(** The canvas work of [handleApplyCrop] is left to the browser. *)
Definition handleApplyCrop : Handler := fun render =>
  match completedCrop render with
  | None => update (setError (Some (lit "Please select an area to crop.")))
  | Some completed =>
      image <- perform ImgRefCurrent ;;
      if negb image then
        update (setError (Some (lit "Please select an area to crop.")))
      else
        ctx <- perform CanvasGetContext ;;
        if negb ctx then
          update (setError (Some (lit "Could not process the crop.")))
        else
          croppedImageUrl <- perform (CanvasToDataURL completed) ;;
          now <- perform DateNow ;;
          newImageFile <-
            liftE (dataURLtoFile croppedImageUrl
                     (stamped (lit "cropped-") now)) ;;
          addImageToHistory render newImageFile
  end.

Definition handleUndo : Handler := fun render =>
  if canUndo render then
    update (fun s => setHistoryIndex (historyIndex s - 1) s) ;;
    update (setEditHotspots []) ;;
    update (setDisplayHotspots [])
  else ret tt.

Definition handleRedo : Handler := fun render =>
  if canRedo render then
    update (fun s => setHistoryIndex (historyIndex s + 1) s) ;;
    update (setEditHotspots []) ;;
    update (setDisplayHotspots [])
  else ret tt.

Definition handleReset : Handler := fun render =>
  if 0 <? length (history render) then
    update (setHistoryIndex 0) ;;
    update (setError None) ;;
    update (setEditHotspots []) ;;
    update (setDisplayHotspots []) ;;
    update (setSelectedIndices [])
  else ret tt.

Definition handleUploadNew : Handler := fun render =>
  update (setHistory []) ;;
  update (setHistoryIndex (-1)) ;;
  update (setError None) ;;
  update (setPrompt []) ;;
  update (setEditHotspots []) ;;
  update (setDisplayHotspots []) ;;
  update (setCompositeFiles []) ;;
  update (setStyleSourceIndex 0) ;;
  update (setBatchFiles []) ;;
  update (setActiveTool tool_retouch) ;;
  update (setSelectedIndices []).

Definition handleDownloadCurrentImage : Handler := fun render =>
  match currentImage render with
  | Some image =>
      perform (Download (FileContent image)
                 (lit "edited-" ++ file_name image)) ;;
      ret tt
  | None => ret tt
  end.

(** [selectedIndices] is a [Set]: it keeps the order of insertion. *)
Definition toggle (index : Z) (prev : list Z) : list Z :=
  if existsb (Z.eqb index) prev
  then filter (fun i => negb (Z.eqb index i)) prev
  else prev ++ [index].

Definition handleToggleSelection (index : Z) : Handler := fun render =>
  update (fun s => setSelectedIndices (toggle index (selectedIndices s)) s).

(** At run time [filesToZip] may hold [undefined], when a selected index
    is no longer in the history. *)
Definition handleDownloadZip (filesToZip : list (option File))
  (archiveName : jsstring) : Handler := fun render =>
  if length filesToZip =? 0 then
    update (setError (Some (lit "No images selected to download.")))
  else
    update (setIsLoading true) ;;
    update (setError None) ;;
    try_finally
      (try_catch
         (call ImportJSZip (fun r => r) ;;
          zip <- liftE (zipEach filesToZip 0 []) ;;
          content <- call (ZipGenerateAsync zip) (fun r => r) ;;
          perform (Download (BlobContent content)
                     (archiveName ++ lit ".zip")) ;;
          update (setSelectedIndices []))
         (fun err =>
            update (setError (Some (errorMessage err
              (lit "Failed to create zip archive."))))))
      (update (setIsLoading false)).

(** What [handleImageClick] reads from the event and its target. *)
Record ImageClick : Type := {
  clientX : number;
  clientY : number;
  rect_left : number;
  rect_top : number;
  naturalWidth : number;
  naturalHeight : number;
  clientWidth : number;
  clientHeight : number
}.

Definition handleImageClick (e : ImageClick) : Handler := fun render =>
  if negb (Tool_eqb (activeTool render) tool_retouch) then ret tt
  else
    let offsetX := num_sub (clientX e) (rect_left e) in
    let offsetY := num_sub (clientY e) (rect_top e) in
    update (fun s => setDisplayHotspots
      (displayHotspots s
       ++ [{| hotspot_x := offsetX; hotspot_y := offsetY |}]) s) ;;
    let scaleX := num_div (naturalWidth e) (clientWidth e) in
    let scaleY := num_div (naturalHeight e) (clientHeight e) in
    let originalX := Math_round (num_mul offsetX scaleX) in
    let originalY := Math_round (num_mul offsetY scaleY) in
    update (fun s => setEditHotspots
      (editHotspots s
       ++ [{| hotspot_x := originalX; hotspot_y := originalY |}]) s).

Definition handleUndoHotspot : Handler := fun render =>
  update (fun s => setDisplayHotspots (slice (displayHotspots s) 0 (-1)) s) ;;
  update (fun s => setEditHotspots (slice (editHotspots s) 0 (-1)) s).

(** The [onClick] of a history thumbnail. *)
Definition selectThumbnail (index : Z) : Handler := fun render =>
  update (setHistoryIndex index) ;;
  update (setEditHotspots []) ;;
  update (setDisplayHotspots []).

(** The [onClick] of "Start Over" in the composite panel. *)
Definition compositeStartOver : Handler := fun render =>
  update (setCompositeFiles []) ;;
  update (setStyleSourceIndex 0).

(** ** The session: every way the interface changes the state *)

(** [StartEditing file] is [handleStartEditing] called with a file. The
    start screen calls it with [files[0]], which is [undefined] when the
    list is empty; a history that holds [undefined] is not a state of this
    model, so that call is not one of the actions. *)
Inductive Action : Type :=
| StartEditing (file : File)
| CompositeFilesSelect (files : option (list File))
| BatchFilesSelect (files : option (list File))
| Generate
| GenerateComposite
| ApplyCreativeStyle (stylePrompt : jsstring)
| ApplyAdjustment (adjustmentPrompt : jsstring)
| ReplaceObject
| ApplyFrame (details : FrameStyle)
| ApplyFrameToBatch
| ApplyCrop
| Undo
| Redo
| Reset
| UploadNew
| DownloadCurrentImage
| ToggleSelection (index : Z)
| DownloadSelected
| DownloadHistory
| ImageClicked (e : ImageClick)
| UndoHotspot
| SelectThumbnail (index : Z)
| CompositeStartOver
| SetStyleSourceIndex (index : Z)
| SetPrompt (value : jsstring)
| SetSecondaryPrompt (value : jsstring)
| SetActiveTool (tool : Tool)
| PinFrame (details : option FrameStyle)
| SetCrop (c : option CropRect)
| SetCompletedCrop (c : option CropRect)
| DismissError.

Definition handler (a : Action) : Handler :=
  match a with
  | StartEditing file => handleStartEditing file
  | CompositeFilesSelect files => handleCompositeFilesSelect files
  | BatchFilesSelect files => handleBatchFilesSelect files
  | Generate => handleGenerate
  | GenerateComposite => handleGenerateComposite
  | ApplyCreativeStyle p => handleApplyCreativeStyle p
  | ApplyAdjustment p => handleApplyAdjustment p
  | ReplaceObject => handleReplaceObject
  | ApplyFrame details => handleApplyFrame details
  | ApplyFrameToBatch => handleApplyFrameToBatch
  | ApplyCrop => handleApplyCrop
  | Undo => handleUndo
  | Redo => handleRedo
  | Reset => handleReset
  | UploadNew => handleUploadNew
  | DownloadCurrentImage => handleDownloadCurrentImage
  | ToggleSelection index => handleToggleSelection index
  | DownloadSelected => fun render =>
      handleDownloadZip
        (map (fun i => array_get (history render) i) (selectedIndices render))
        (lit "dreamcraft_selection") render
  | DownloadHistory => fun render =>
      handleDownloadZip (map Some (history render))
        (lit "dreamcraft_session_history") render
  | ImageClicked e => handleImageClick e
  | UndoHotspot => handleUndoHotspot
  | SelectThumbnail index => selectThumbnail index
  | CompositeStartOver => compositeStartOver
  | SetStyleSourceIndex index => fun _ => update (setStyleSourceIndex index)
  | SetPrompt value => fun _ => update (setPrompt value)
  | SetSecondaryPrompt value => fun _ => update (setSecondaryPrompt value)
  | SetActiveTool tool => fun _ => update (setActiveTool tool)
  | PinFrame details => fun _ => update (setPinnedFrameStyle details)
  | SetCrop c => fun _ => update (setCrop c)
  | SetCompletedCrop c => fun _ => update (setCompletedCrop c)
  | DismissError => fun _ => update (setError None)
  end.

(** The states a session can be in: from the initial state, by any
    action, whatever the gateway and the browser answer. *)
Inductive reachable : AppState -> Prop :=
| reachable_initial : reachable initial
| reachable_step (s : AppState) (a : Action) (env : Env Answer) :
    reachable s -> reachable (after (handler a) s env).

End WithNumbers.

Arguments AppState number : clear implicits.
Arguments CropRect number : clear implicits.
Arguments Request number : clear implicits.
Arguments Action number : clear implicits.
Arguments ImageClick number : clear implicits.
Arguments Handler number : clear implicits.
Arguments AppM number A : clear implicits.

End App.

(* ===================================================================== *)
(** * components/FramePanel.tsx                                            *)
(* ===================================================================== *)

Module FramePanel.

Record Props : Type := {
  pinnedFrameStyle : option FrameStyle;
  isLoading : bool
}.

(** The panel's own state: the three fields of the form, which the code
    always passes on together as [{ style, topText, bottomText }], and
    [isPinned]. *)
Record State : Type := {
  form : FrameStyle;
  isPinned : bool
}.

Definition setIsPinned (v : bool) (st : State) : State :=
  {| form := form st; isPinned := v |}.

Definition setStyle (v : jsstring) (st : State) : State :=
  {| form := {| style := v; topText := topText (form st);
                bottomText := bottomText (form st) |};
     isPinned := isPinned st |}.

Definition setTopText (v : jsstring) (st : State) : State :=
  {| form := {| style := style (form st); topText := v;
                bottomText := bottomText (form st) |};
     isPinned := isPinned st |}.

Definition setBottomText (v : jsstring) (st : State) : State :=
  {| form := {| style := style (form st); topText := topText (form st);
                bottomText := v |};
     isPinned := isPinned st |}.

Definition initial : State :=
  {| form := {| style := []; topText := []; bottomText := [] |};
     isPinned := false |}.

(** The three [===] of the effect. *)
Definition isCurrentStylePinned (pinned fields : FrameStyle) : bool :=
  jsstring_eqb (style pinned) (style fields)
  && jsstring_eqb (topText pinned) (topText fields)
  && jsstring_eqb (bottomText pinned) (bottomText fields).

(** The [useEffect] on [style, topText, bottomText, pinnedFrameStyle]. *)
Definition effect (props : Props) (st : State) : State :=
  match pinnedFrameStyle props with
  | Some pinned => setIsPinned (isCurrentStylePinned pinned (form st)) st
  | None => setIsPinned false st
  end.

(** The calls a handler makes on the props of the panel. *)
Inductive Callback : Type :=
| onApplyFrame (details : FrameStyle)
| onPinFrame (details : option FrameStyle).

Definition handleApply (st : State) : list Callback :=
  [onApplyFrame (form st)].

Definition handlePin (st : State) : list Callback :=
  if isPinned st then [onPinFrame None]
  else if negb (truthy (trim (style (form st)))) then []
  else [onPinFrame (Some (form st))].

(** [disabled] of both buttons. *)
Definition disabled (props : Props) (st : State) : bool :=
  isLoading props || negb (truthy (trim (style (form st)))).

(** The caption of the pin button. *)
Definition pinCaption (st : State) : jsstring :=
  if isPinned st then lit "Style Pinned " ++ [10003%N]
  else lit "Pin Frame for Batch Use".

End FramePanel.

(* ===================================================================== *)
(** * Concrete runs                                                        *)
(* ===================================================================== *)

(** Whole numbers as a model of [number], for runs on concrete inputs:
    the quotient is rounded down. *)
#[global] Instance whole_numbers : JSNumber Z :=
  {| num_sub := Z.sub; num_mul := Z.mul; num_div := Z.div;
     Math_round := fun z => z; num_toString := Number_toString |}.

(** An environment in which every call of the gateway is rejected and
    the browser has nothing to give. *)
Definition refusing {number : Type} : Env (@App.Answer number) :=
  fun _ ev =>
    match ev with
    | App.GenerateEditedImage _ _ _ => inl NonError
    | App.GenerateFilteredImage _ _ => inl NonError
    | App.GenerateAdjustedImage _ _ => inl NonError
    | App.GenerateCompositedImage _ => inl NonError
    | App.GenerateFramedImage _ _ _ _ => inl NonError
    | App.DateNow => 0%Z
    | App.ImgRefCurrent => false
    | App.CanvasGetContext => false
    | App.CanvasToDataURL _ => []
    | App.ImportJSZip => inl NonError
    | App.ZipGenerateAsync _ => inl NonError
    | App.Download _ _ => tt
    end.

Definition sample_file (n : N) : File :=
  {| file_name := lit "photo.png"; file_type := lit "image/png";
     file_bytes := [n] |}.

(** An environment in which the gateway answers every call with [url], the
    clock shows [now] and the browser does what it is asked. *)
Definition answering {number : Type} (url : jsstring) (now : Z)
  : Env (@App.Answer number) :=
  fun _ ev =>
    match ev with
    | App.GenerateEditedImage _ _ _ => inr url
    | App.GenerateFilteredImage _ _ => inr url
    | App.GenerateAdjustedImage _ _ => inr url
    | App.GenerateCompositedImage _ => inr url
    | App.GenerateFramedImage _ _ _ _ => inr url
    | App.DateNow => now
    | App.ImgRefCurrent => true
    | App.CanvasGetContext => true
    | App.CanvasToDataURL _ => url
    | App.ImportJSZip => inr tt
    | App.ZipGenerateAsync _ => inr []
    | App.Download _ _ => tt
    end.

(** The gateway answers the first call with [url] and rejects the calls
    after it. *)
Definition failing_after_first {number : Type} (url : jsstring)
  : Env (@App.Answer number) :=
  fun n => match n with O => answering url 0 O | S _ => refusing n end.

(** One image open, a prompt typed and one point picked on the image. *)
Definition editing_state : App.AppState Z :=
  App.setDisplayHotspots [{| hotspot_x := 10%Z; hotspot_y := 20%Z |}]
    (App.setEditHotspots [{| hotspot_x := 40%Z; hotspot_y := 80%Z |}]
       (App.setPrompt (lit "make the sky blue")
          (App.setHistoryIndex 0
             (App.setHistory [sample_file 1] App.initial)))).

Definition gold_frame : FrameStyle :=
  {| style := lit "ornate gold leaf frame"; topText := lit "The Creator";
     bottomText := [] |}.

(** Three images chosen for the batch, with a pinned frame. *)
Definition batch_state : App.AppState Z :=
  App.setPinnedFrameStyle (Some gold_frame)
    (App.setBatchFiles [sample_file 1; sample_file 2; sample_file 3]
       App.initial).

(** Three images chosen for a composite, the last one as style source. *)
Definition composite_state : App.AppState Z :=
  App.setStyleSourceIndex 2
    (App.setCompositeFiles [sample_file 1; sample_file 2; sample_file 3]
       App.initial).

(** The data URL of a one-byte PNG-typed payload. *)
Definition tiny_png_url : jsstring := lit "data:image/png;base64,QQ==".


(* ===================================================================== *)
(** * What a response holds                                                *)
(* ===================================================================== *)

(** The vocabulary in which the classification of responses is stated. *)
Module Response.
Import Gateway.

(** The response signals a block: a [blockReason] that is a non-empty
    string, with the message that comes with it, if any. *)
Definition blockedWith (r : GenerateContentResponse) (reason : jsstring)
  (message : option jsstring) : Prop :=
  exists pf, promptFeedback r = Some pf /\ blockReason pf = Some reason
             /\ reason <> [] /\ blockReasonMessage pf = message.

Definition notBlocked (r : GenerateContentResponse) : Prop :=
  forall reason message, ~ blockedWith r reason message.

(** The content parts of the first candidate. *)
Definition outputParts (r : GenerateContentResponse) : list Part :=
  match candidates r with
  | Some (c :: _) =>
      match content c with
      | Some ct => match parts ct with Some ps => ps | None => [] end
      | None => []
      end
  | _ => []
  end.

Definition hasInlineData (part : Part) : bool :=
  match inlineData part with Some _ => true | None => false end.

(** [image] is the inline data of the first part that has some. *)
Definition firstImage (r : GenerateContentResponse) (image : Blob) : Prop :=
  exists before part rest,
    outputParts r = before ++ part :: rest
    /\ Forall (fun p => inlineData p = None) before
    /\ inlineData part = Some image.

Definition noImage (r : GenerateContentResponse) : Prop :=
  Forall (fun p => inlineData p = None) (outputParts r).

(** The finish reason of the first candidate. *)
Definition finishReasonOf (r : GenerateContentResponse) : option jsstring :=
  match candidates r with
  | Some (c :: _) => finishReason c
  | _ => None
  end.

(** An abnormal stop: a finish reason that is a non-empty string other
    than [STOP]. *)
Definition stoppedWith (r : GenerateContentResponse) (reason : jsstring)
  : Prop :=
  finishReasonOf r = Some reason /\ reason <> [] /\ reason <> STOP.

Definition notStopped (r : GenerateContentResponse) : Prop :=
  forall reason, ~ stoppedWith r reason.

(** The four rules, in their order of priority. *)
Inductive classified (r : GenerateContentResponse) (context : jsstring)
  : ApiFailure + jsstring -> Prop :=
| classified_blocked reason message :
    blockedWith r reason message ->
    classified r context (inl (BlockedRequest reason message))
| classified_image image :
    notBlocked r -> firstImage r image ->
    classified r context (inr (dataUrlOf image))
| classified_stopped reason :
    notBlocked r -> noImage r -> stoppedWith r reason ->
    classified r context (inl (GenerationStopped context reason))
| classified_no_image :
    notBlocked r -> noImage r -> notStopped r ->
    classified r context
      (inl (NoImageReturned context (option_map trim (text r)))).

(** A response with an image part and the finish reason [SAFETY]. *)
Definition image_despite_safety : GenerateContentResponse :=
  {| promptFeedback := None;
     candidates := Some
       [{| content := Some {| parts := Some
             [{| inlineData := None; part_text := Some (lit "here") |};
              {| inlineData := Some {| mimeType := Some (lit "image/png");
                                       data := Some (lit "QUJD") |};
                 part_text := None |}] |};
           finishReason := Some (lit "SAFETY") |}];
     text := Some (lit "here") |}.

End Response.

(* ===================================================================== *)
(** * Runs of the handlers                                                 *)
(* ===================================================================== *)

Module Session.
Import App.
Section WithNumbers.
Context {number : Type} {numbers : JSNumber number}.

(** A call of the gateway that was rejected. *)
Definition rejected (req : Request number) : Answer req -> bool :=
  match req with
  | GenerateEditedImage _ _ _ | GenerateFilteredImage _ _
  | GenerateAdjustedImage _ _ | GenerateCompositedImage _
  | GenerateFramedImage _ _ _ _ =>
      fun a => match a with inl _ => true | inr _ => false end
  | _ => fun _ => false
  end.

(** During the run of [h] from [s], a call of the gateway failed. *)
Definition remoteCallFailed (h : Handler number) (s : AppState number)
  (env : Env Answer) : Prop :=
  exists n req,
    nth_error (trace h s env) n = Some req /\ rejected req (env n req) = true.

(** The edit operations on the current image or the working set, the batch
    apart. *)
Definition nonBatchEdit (a : Action number) : bool :=
  match a with
  | Generate | GenerateComposite | ApplyCreativeStyle _ | ApplyAdjustment _
  | ReplaceObject | ApplyFrame _ => true
  | _ => false
  end.

(** The run of [h] from [s] called on the environment and ended with no
    error to report: for the handlers that clear the error before their
    call and set it in their [catch], the edit was applied. *)
Definition succeeded (h : Handler number) (s : AppState number)
  (env : Env Answer) : Prop :=
  trace h s env <> [] /\ error (after h s env) = None.

(** The two hotspot lists go together. *)
Definition hotspotsAgree (s : AppState number) : Prop :=
  length (editHotspots s) = length (displayHotspots s).

End WithNumbers.
End Session.

(* ===================================================================== *)
(** * The parts of a transport encoding                                    *)
(* ===================================================================== *)

Module DataURL.

(** The segment before the first [,]. *)
Definition headerOf (url : jsstring) : jsstring :=
  nth 0 (split_on comma url) [].

(** The segment between the first [,] and the second, or the end. *)
Definition payloadOf (url : jsstring) : jsstring :=
  nth 1 (split_on comma url) [].

(** The MIME type that [/:(.*?);/] captures in the header, when it finds a
    match and the capture is not empty. *)
Definition parsedMime (url : jsstring) : option jsstring :=
  match match_mime (headerOf url) with
  | Some (c :: mime) => Some (c :: mime)
  | _ => None
  end.

(** The same, said of the string itself. [url] up to its first [,] is
    [header], and from there up to the next [,] or the end is [payload]. *)
Definition splitAt (url header payload : jsstring) : Prop :=
  ~ In comma header /\ ~ In comma payload
  /\ (url = header ++ comma :: payload
      \/ exists more, url = header ++ comma :: payload ++ comma :: more).

(** [(.*?);] matches at the start of [rest] and captures [g]: [g] is
    followed by the first [;] of [rest] and holds no line terminator. *)
Definition capturedAt (rest g : jsstring) : Prop :=
  exists post,
    rest = g ++ semicolon :: post /\ ~ In semicolon g
    /\ Forall (fun c => isLineTerminator c = false) g.

(** [/:(.*?);/] captures [g] in [header]: after a [:], at which [(.*?);]
    matches, and which is the first such [:]. *)
Definition captured (header g : jsstring) : Prop :=
  exists pre rest,
    header = pre ++ colon :: rest /\ capturedAt rest g
    /\ forall earlier rest',
         header = earlier ++ colon :: rest' -> length earlier < length pre ->
         forall g', ~ capturedAt rest' g'.

(** A string with a separator and a MIME type whose payload is not
    base64. *)
Definition not_base64_url : jsstring := lit "data:image/png;base64,*".

End DataURL.

(** The pinned style with a space after its style text. *)
Definition gold_frame_spaced : FrameStyle :=
  {| style := lit "ornate gold leaf frame "; topText := lit "The Creator";
     bottomText := [] |}.

(** A click on the image shown at half its natural size. *)
Definition sample_click : App.ImageClick Z :=
  {| App.clientX := 110%Z; App.clientY := 70%Z; App.rect_left := 10%Z;
     App.rect_top := 20%Z; App.naturalWidth := 800%Z;
     App.naturalHeight := 600%Z; App.clientWidth := 400%Z;
     App.clientHeight := 300%Z |}.

(* ===================================================================== *)
(** * Archive entries                                                      *)
(* ===================================================================== *)

Module Archive.

(** The class [[A-Za-z0-9_.-]]. *)
Definition inClass (c : code_unit) : Prop :=
  (65 <= c <= 90 \/ 97 <= c <= 122 \/ 48 <= c <= 57
   \/ c = 95 \/ c = 46 \/ c = 45)%N.

Definition isDigit (c : code_unit) : bool := (N.leb 48 c && N.leb c 57)%bool.

(** The three decimal digits of a number below 1000. *)
Definition threeDigits (i : nat) : jsstring :=
  [(48 + N.of_nat (i / 100))%N; (48 + N.of_nat ((i / 10) mod 10))%N;
   (48 + N.of_nat (i mod 10))%N].

(** The number that a string of decimal digits denotes. *)
Definition valueOf (s : jsstring) : N :=
  fold_left (fun acc c => (10 * acc + (c - 48))%N) s 0%N.

(** The value of a numeral of the standard library, read from an
    accumulator on. *)
Fixpoint uint_value (d : Decimal.uint) (acc : N) : N :=
  match d with
  | Decimal.Nil => acc
  | Decimal.D0 d => uint_value d (10 * acc)
  | Decimal.D1 d => uint_value d (10 * acc + 1)
  | Decimal.D2 d => uint_value d (10 * acc + 2)
  | Decimal.D3 d => uint_value d (10 * acc + 3)
  | Decimal.D4 d => uint_value d (10 * acc + 4)
  | Decimal.D5 d => uint_value d (10 * acc + 5)
  | Decimal.D6 d => uint_value d (10 * acc + 6)
  | Decimal.D7 d => uint_value d (10 * acc + 7)
  | Decimal.D8 d => uint_value d (10 * acc + 8)
  | Decimal.D9 d => uint_value d (10 * acc + 9)
  end%N.

(** The index in front of an entry name. *)
Definition indexPrefix (i : nat) : jsstring :=
  padStart (Number_toString (Z.of_nat i)) 3 (lit "0").

(** The entries of [files], numbered from [index] on. *)
Fixpoint entriesFrom (files : list File) (index : nat) : App.JSZip :=
  match files with
  | [] => []
  | file :: rest => (App.entryName file index, file) :: entriesFrom rest (S index)
  end.

(** Two files with names that need sanitizing. *)
Definition holiday_files : list File :=
  [{| file_name := lit "my photo (1).png"; file_type := lit "image/png";
      file_bytes := [1%N] |};
   {| file_name := lit "edited-1700000000000.png";
      file_type := lit "image/png"; file_bytes := [2%N] |}].

End Archive.

(* ===================================================================== *)
(** * The handlers on top of the gateway                                   *)
(* ===================================================================== *)

(** [App.tsx] reaches the network through the five operations of
    [geminiService.ts] only. Linking replaces each call of the gateway in a
    run of a handler by the operation itself, so that what is left to the
    environment is the browser and the remote service. *)
Module Program.
Section WithNumbers.
Context {number : Type} {numbers : JSNumber number}.

Inductive Request : Type :=
| OfGateway (r : Gateway.Request)
| OfApp (r : App.Request number).

Definition Answer (r : Request) : Type :=
  match r with
  | OfGateway g => Gateway.Answer g
  | OfApp a => App.Answer a
  end.

Fixpoint inGateway {A} (m : IO Gateway.Answer A) : IO Answer A :=
  match m with
  | Ret a => Ret a
  | Vis ev k => Vis (OfGateway ev) (fun x => inGateway (k x))
  end.

Fixpoint link {A} (m : IO (@App.Answer number) A) : IO Answer A :=
  match m with
  | Ret a => Ret a
  | Vis ev k =>
      match ev as e
            return (App.Answer e -> IO (@App.Answer number) A) -> IO Answer A
      with
      | App.GenerateEditedImage image userPrompt hotspots => fun k =>
          io_bind
            (inGateway (Gateway.generateEditedImage image userPrompt hotspots))
            (fun r => link (k r))
      | App.GenerateFilteredImage image stylePrompt => fun k =>
          io_bind (inGateway (Gateway.generateFilteredImage image stylePrompt))
            (fun r => link (k r))
      | App.GenerateAdjustedImage image adjustmentPrompt => fun k =>
          io_bind
            (inGateway (Gateway.generateAdjustedImage image adjustmentPrompt))
            (fun r => link (k r))
      | App.GenerateCompositedImage files => fun k =>
          io_bind (inGateway (Gateway.generateCompositedImage files))
            (fun r => link (k r))
      | App.GenerateFramedImage image frameStyle top bottom => fun k =>
          io_bind
            (inGateway (Gateway.generateFramedImage image frameStyle top bottom))
            (fun r => link (k r))
      | e => fun k => Vis (OfApp e) (fun x => link (k x))
      end k
  end.

(** A handler of the current render, run against the browser and the
    remote service. *)
Definition execute (h : App.Handler number) (s : App.AppState number)
  (env : Env Answer) : list Request * (App.AppState number * (Exn + unit)) :=
  run (link (h s s)) env.

(** The states the linked program can be in. *)
Inductive reachable : App.AppState number -> Prop :=
| reachable_initial : reachable App.initial
| reachable_step (s : App.AppState number) (a : App.Action number)
    (env : Env Answer) :
    reachable s -> reachable (fst (snd (execute (App.handler a) s env))).

(** The answers of one moment, from the outcome [r] of an operation of
    the gateway and from what the browser answers. *)
Definition answeredBy (r : Exn + jsstring)
  (browser : forall ev : App.Request number, Answer (OfApp ev))
  : forall ev : App.Request number, App.Answer ev :=
  fun ev =>
    match ev as e return Answer (OfApp e) -> App.Answer e with
    | App.GenerateEditedImage _ _ _ | App.GenerateFilteredImage _ _
    | App.GenerateAdjustedImage _ _ | App.GenerateCompositedImage _
    | App.GenerateFramedImage _ _ _ _ => fun _ => r
    | _ => fun x => x
    end (browser ev).

(** An environment from the answers of its first moment and those of the
    moments after it. *)
Definition starting (first : forall ev : App.Request number, App.Answer ev)
  (rest : Env (@App.Answer number)) : Env (@App.Answer number) :=
  fun n => match n with O => first | S n' => rest n' end.

End WithNumbers.

(** A response that the remote service blocked. *)
Definition blocked_response : Gateway.GenerateContentResponse :=
  {| Gateway.promptFeedback :=
       Some {| Gateway.blockReason := Some (lit "SAFETY");
               Gateway.blockReasonMessage := None |};
     Gateway.candidates := None;
     Gateway.text := None |}.

(** The browser reads every file as a PNG data URL, the remote service
    answers every request with [response], and the clock shows [now]. *)
Definition serving (response : Gateway.GenerateContentResponse) (now : Z)
  : Env (@Answer Z) :=
  fun n ev =>
    match ev with
    | OfGateway (Gateway.ReadAsDataURL _) => inr tiny_png_url
    | OfGateway (Gateway.GenerateContent _) => inr response
    | OfApp a => answering tiny_png_url now n a
    end.

End Program.

(* ===================================================================== *)
(** * The session as the interface offers it                               *)
(* ===================================================================== *)

From Stdlib Require Import Permutation.

Module Visit.
Import App Session.
Section WithNumbers.
Context {number : Type} {numbers : JSNumber number}.

(** The indices that the interface passes are positions of the lists it
    renders: a thumbnail of the history, a thumbnail of the composite
    working set. *)
Definition offered (s : AppState number) (a : Action number) : Prop :=
  match a with
  | SelectThumbnail index | ToggleSelection index =>
      (0 <= index < Z.of_nat (length (history s)))%Z
  | SetStyleSourceIndex index =>
      (0 <= index < Z.of_nat (length (compositeFiles s)))%Z
  | _ => True
  end.

(** The states of a session in which every index comes from the
    interface. *)
Inductive visited : AppState number -> Prop :=
| visited_initial : visited initial
| visited_step (s : AppState number) (a : Action number)
    (env : Env Answer) :
    visited s -> offered s a -> visited (after (handler a) s env).

(** The cursor is on an entry of the history, or the history is empty and
    the cursor is [-1]. *)
Definition cursorValid (s : AppState number) : Prop :=
  (history s = [] /\ historyIndex s = (-1)%Z)
  \/ (0 <= historyIndex s < Z.of_nat (length (history s)))%Z.

(** The style source is an element of the working set, which has at least
    two elements, or the working set is empty and the index is [0]. *)
Definition styleSourceValid (s : AppState number) : Prop :=
  (compositeFiles s = [] /\ styleSourceIndex s = 0%Z)
  \/ (2 <= length (compositeFiles s)
      /\ (0 <= styleSourceIndex s < Z.of_nat (length (compositeFiles s)))%Z).

(** The edits that append their result to the history. *)
Definition appendingEdit (a : Action number) : bool :=
  match a with
  | Generate | ApplyCreativeStyle _ | ApplyAdjustment _ | ReplaceObject
  | ApplyFrame _ => true
  | _ => false
  end.

(** What a run of an appending edit leaves: either the history and the
    cursor as they were, with no success to report, or the decoded result
    appended after the cursor. *)
Definition leavesAppended (h : Handler number) (s : AppState number)
  (env : Env Answer) : Prop :=
  (~ succeeded h s env
   /\ history (after h s env) = history s
   /\ historyIndex (after h s env) = historyIndex s)
  \/ (succeeded h s env
      /\ currentImage s <> None
      /\ isLoading (after h s env) = false
      /\ exists result,
           history (after h s env)
           = slice (history s) 0 (historyIndex s + 1) ++ [result]
           /\ historyIndex (after h s env)
              = (Z.of_nat (length (slice (history s) 0 (historyIndex s + 1)
                                   ++ [result])) - 1)%Z).

(** The call of the gateway that the batch makes for [file]. *)
Definition frameCall (pinned : FrameStyle) (file : File) : Request number :=
  GenerateFramedImage file (style pinned) (topText pinned)
    (bottomText pinned).

(** What the batch gets for [file] when its call is the request number
    [n] of the run: the rejection of the call, or the decoding of the data
    URL that the call returned. *)
Definition framed (pinned : FrameStyle) (env : Env Answer) (n : nat)
  (file : File) : Exn + File :=
  match env n (frameCall pinned file) with
  | inl e => inl e
  | inr url =>
      dataURLtoFile url (lit "framed-batch-" ++ file_name file ++ lit ".png")
  end.

(** Every one of [sources], called in order from the start of the run,
    gives the result at its position in [results]. *)
Definition framedInOrder (pinned : FrameStyle) (env : Env Answer)
  (sources results : list File) : Prop :=
  length results = length sources
  /\ forall i file, nth_error sources i = Some file ->
       exists result, nth_error results i = Some result
                      /\ framed pinned env i file = inr result.

(** What holds of every state of a session: the cursor and the style
    source are in their ranges, no index is selected twice and no
    operation is under way. *)
Definition settled (s : AppState number) : Prop :=
  cursorValid s /\ styleSourceValid s /\ NoDup (selectedIndices s)
  /\ isLoading s = false.

(** The main view with the image and its history: no error is shown, an
    image is open and the tool is not one of the two that show their own
    files. *)
Definition mainView (s : AppState number) : Prop :=
  error s = None /\ currentImage s <> None
  /\ activeTool s <> tool_composite /\ activeTool s <> tool_batch.

(** Controls that [App] renders and enables in state [s]: the start
    screen, the toolbar, the creative panel, the undo button, the toggles
    of the history thumbnails, rendered when the history has more than one
    entry, and the download of the selection. An action that is not listed
    here is not said to be enabled. *)
Definition enabled (s : AppState number) (a : Action number) : Prop :=
  match a with
  | StartEditing _ =>
      error s = None /\ currentImage s = None
      /\ activeTool s <> tool_composite /\ activeTool s <> tool_batch
  | SetActiveTool _ => mainView s /\ isLoading s = false
  | ApplyCreativeStyle stylePrompt =>
      mainView s /\ activeTool s = tool_creative /\ isLoading s = false
      /\ trim stylePrompt <> []
  | Undo => mainView s /\ canUndo s = true /\ isLoading s = false
  | ToggleSelection index =>
      mainView s /\ isLoading s = false /\ 1 < length (history s)
      /\ (0 <= index < Z.of_nat (length (history s)))%Z
  | DownloadSelected =>
      mainView s /\ isLoading s = false /\ selectedIndices s <> []
  | _ => False
  end.

(** The states of a session made of such controls only. *)
Inductive displayed : AppState number -> Prop :=
| displayed_initial : displayed initial
| displayed_step (s : AppState number) (a : Action number)
    (env : Env Answer) :
    displayed s -> enabled s a -> displayed (after (handler a) s env).

(** An image is opened and a style applied to it twice; the third entry
    of the history is selected; after two undos the style is applied
    again. *)
Definition restyled_session : AppState number :=
  let style := ApplyCreativeStyle (lit "film noir") in
  let served := answering tiny_png_url 0 in
  after (handler style)
    (after (handler Undo)
       (after (handler Undo)
          (after (handler (ToggleSelection 2))
             (after (handler style)
                (after (handler style)
                   (after (handler (SetActiveTool tool_creative))
                      (after (handler (StartEditing (sample_file 1)))
                         initial served)
                      served)
                   served)
                served)
             served)
          served)
       served)
    served.

End WithNumbers.
End Visit.

(** A session in which one image has been opened. *)
Definition opened_session : App.AppState Z :=
  App.after (App.handler (App.StartEditing (sample_file 1)))
    App.initial refusing.

(** A session in which three images have been chosen for a composite and
    the last of them has been made the style source. *)
Definition composing_session : App.AppState Z :=
  App.after (App.handler (App.SetStyleSourceIndex 2))
    (App.after
       (App.handler
          (App.CompositeFilesSelect
             (Some [sample_file 1; sample_file 2; sample_file 3])))
       App.initial refusing)
    refusing.

(** One image open and an index selected at which the history has no
    entry. *)
Definition stale_state : App.AppState Z :=
  App.setSelectedIndices [1%Z] editing_state.

(** The requests that are calls of an operation of [geminiService.ts]. *)
Definition isGatewayCall {number : Type} (req : App.Request number) : bool :=
  match req with
  | App.GenerateEditedImage _ _ _ | App.GenerateFilteredImage _ _
  | App.GenerateAdjustedImage _ _ | App.GenerateCompositedImage _
  | App.GenerateFramedImage _ _ _ _ => true
  | _ => false
  end.

(** How many calls of the gateway an action may make: one for an edit of
    the current image or a composite, one for each source for the batch,
    none for the others. *)
Definition callBudget {number : Type} (s : App.AppState number)
  (a : App.Action number) : nat :=
  match a with
  | App.Generate | App.GenerateComposite | App.ApplyCreativeStyle _
  | App.ApplyAdjustment _ | App.ReplaceObject | App.ApplyFrame _ => 1
  | App.ApplyFrameToBatch => length (App.batchFiles s)
  | _ => 0
  end.

(** A crop rectangle drawn on the image of [editing_state]. *)
Definition cropping_state : App.AppState Z :=
  App.setCompletedCrop
    (Some {| App.crop_x := 0%Z; App.crop_y := 0%Z; App.crop_width := 10%Z;
             App.crop_height := 10%Z |})
    editing_state.

(** The requests that read a file. *)
Definition isRead (req : Gateway.Request) : bool :=
  match req with
  | Gateway.ReadAsDataURL _ => true
  | Gateway.GenerateContent _ => false
  end.

(** The files among the elements of an array that may hold [undefined]. *)
Definition present (files : list (option File)) : list File :=
  flat_map (fun f => match f with Some x => [x] | None => [] end) files.

(** What [fileToPart] gives for [file] when its read is the request
    number [n] of the run. *)
Definition partOf (env : Env Gateway.Answer) (n : nat) (file : File)
  : Exn + Gateway.RequestPart :=
  match env n (Gateway.ReadAsDataURL file) with
  | inl e => inl e
  | inr dataUrl => Gateway.dataUrlToPart dataUrl
  end.

(** The four operations of the gateway on one image, with what each of
    them puts in its instruction and the name it gives [handleApiResponse]
    for its messages. *)
Module Operation.
Import Gateway.
Section WithNumbers.
Context {number : Type} {numbers : JSNumber number}.

Inductive Operation : Type :=
| Edit (userPrompt : jsstring) (hotspots : list (Hotspot number))
| Filter (stylePrompt : jsstring)
| Adjust (adjustmentPrompt : jsstring)
| Frame (frameStyle topText bottomText : jsstring).

Definition operate (op : Operation) (originalImage : File) : Task jsstring :=
  match op with
  | Edit userPrompt hotspots =>
      generateEditedImage originalImage userPrompt hotspots
  | Filter stylePrompt => generateFilteredImage originalImage stylePrompt
  | Adjust adjustmentPrompt =>
      generateAdjustedImage originalImage adjustmentPrompt
  | Frame frameStyle topText bottomText =>
      generateFramedImage originalImage frameStyle topText bottomText
  end.

Definition instruction (op : Operation) : jsstring :=
  match op with
  | Edit userPrompt hotspots =>
      edit_prompt userPrompt (hotspotsString hotspots)
  | Filter stylePrompt => filter_prompt stylePrompt
  | Adjust adjustmentPrompt => adjustment_prompt adjustmentPrompt
  | Frame frameStyle topText bottomText =>
      frame_prompt frameStyle topText bottomText
  end.

Definition contextOf (op : Operation) : jsstring :=
  match op with
  | Edit _ _ => lit "edit"
  | Filter _ => lit "filter"
  | Adjust _ => lit "adjustment"
  | Frame _ _ _ => lit "frame"
  end.

(** The request to the model with [parts] as its contents. *)
Definition ask (parts : list RequestPart) : Request :=
  GenerateContent {| model := model_name; contents := parts;
                     responseModalities := [IMAGE; TEXT] |}.

End WithNumbers.
Arguments Operation number : clear implicits.
End Operation.

(** The browser reads every file as a one-byte PNG and the model answers
    with an image part. *)
Definition obliging : Env Gateway.Answer :=
  fun _ ev =>
    match ev with
    | Gateway.ReadAsDataURL _ => inr tiny_png_url
    | Gateway.GenerateContent _ => inr Response.image_despite_safety
    end.

(* ===================================================================== *)
(** * The frame panel in [App]                                             *)
(* ===================================================================== *)

(** [App] renders the panel with its own [pinnedFrameStyle] and with
    [setPinnedFrameStyle] as [onPinFrame]; after a change of a field or of
    the pinned style the effect of the panel runs. *)
Module Mounted.
Import FramePanel.

Record Frame : Type := {
  pinned : option FrameStyle;
  panel : State
}.

(** What the calls of a handler of the panel do to the pinned style. *)
Definition deliver (callbacks : list Callback) (p : option FrameStyle)
  : option FrameStyle :=
  fold_left (fun p c => match c with
                        | onPinFrame details => details
                        | onApplyFrame _ => p
                        end)
            callbacks p.

Definition render (loading : bool) (m : Frame) : Frame :=
  {| pinned := pinned m;
     panel := effect {| pinnedFrameStyle := pinned m; isLoading := loading |}
                (panel m) |}.

Inductive Event : Type :=
| StyleChange (value : jsstring)
| TopTextChange (value : jsstring)
| BottomTextChange (value : jsstring)
| PinPress.

Definition step (loading : bool) (e : Event) (m : Frame) : Frame :=
  render loading
    match e with
    | StyleChange value =>
        {| pinned := pinned m; panel := setStyle value (panel m) |}
    | TopTextChange value =>
        {| pinned := pinned m; panel := setTopText value (panel m) |}
    | BottomTextChange value =>
        {| pinned := pinned m; panel := setBottomText value (panel m) |}
    | PinPress =>
        {| pinned := deliver (handlePin (panel m)) (pinned m);
           panel := panel m |}
    end.

Definition mounted : Frame :=
  render false {| pinned := None; panel := initial |}.

(** The panel as it can be seen, with nothing pinned at the start. *)
Inductive shown : Frame -> Prop :=
| shown_mounted : shown mounted
| shown_step (loading : bool) (e : Event) (m : Frame) :
    shown m -> shown (step loading e m).

End Mounted.

(* ===================================================================== *)
(** * components/CreativePanel.tsx                                         *)
(* ===================================================================== *)

Module CreativePanel.

Record State : Type := {
  selectedPresetPrompt : option jsstring;
  customPrompt : jsstring
}.

Definition initial : State :=
  {| selectedPresetPrompt := None; customPrompt := [] |}.

(** The presets, by name. *)
Definition presets : list (jsstring * jsstring) :=
  [(lit "Synthwave",
    lit "Apply a vibrant 80s synthwave aesthetic with neon magenta and cyan glows, and subtle scan lines.");
   (lit "Anime",
    lit "Give the image a vibrant Japanese anime style, with bold outlines, cel-shading, and saturated colors.");
   (lit "Lomo",
    lit "Apply a Lomography-style cross-processing film effect with high-contrast, oversaturated colors, and dark vignetting.");
   (lit "Glitch",
    lit "Transform the image into a futuristic holographic projection with digital glitch effects and chromatic aberration.");
   (lit "Vectorize",
    lit "Recreate this image in a clean, minimalist vector art style with flat colors and bold outlines.")].

(** [selectedPresetPrompt || customPrompt] *)
Definition activePrompt (st : State) : jsstring :=
  match selectedPresetPrompt st with
  | Some prompt => if truthy prompt then prompt else customPrompt st
  | None => customPrompt st
  end.

Definition handlePresetClick (prompt : jsstring) (st : State) : State :=
  {| selectedPresetPrompt := Some prompt; customPrompt := [] |}.

Definition handleCustomChange (value : jsstring) (st : State) : State :=
  {| selectedPresetPrompt := None; customPrompt := value |}.

(** The calls of [onApplyStyle] that [handleApply] makes. *)
Definition handleApply (st : State) : list jsstring :=
  if truthy (activePrompt st) then [activePrompt st] else [].

(** The apply button is rendered when [activePrompt] is truthy. *)
Definition applyShown (st : State) : bool := truthy (activePrompt st).

(** [disabled] of the apply button. *)
Definition applyDisabled (isLoading : bool) (st : State) : bool :=
  isLoading || negb (truthy (trim (activePrompt st))).

(** A press of the apply button: the browser delivers the click only if
    the button is rendered and not disabled. *)
Definition pressApply (isLoading : bool) (st : State) : list jsstring :=
  if applyShown st && negb (applyDisabled isLoading st)
  then handleApply st else [].

Inductive Event : Type :=
| PresetClick (prompt : jsstring)
| CustomChange (value : jsstring).

(** The preset buttons pass the prompts of [presets]. *)
Definition offered (e : Event) : Prop :=
  match e with
  | PresetClick prompt => In prompt (map snd presets)
  | CustomChange _ => True
  end.

Definition step (e : Event) (st : State) : State :=
  match e with
  | PresetClick prompt => handlePresetClick prompt st
  | CustomChange value => handleCustomChange value st
  end.

(** What the event chose. *)
Definition chosen (e : Event) : jsstring :=
  match e with
  | PresetClick prompt => prompt
  | CustomChange value => value
  end.

End CreativePanel.

(* ===================================================================== *)
(** * BatchPanel.tsx in [App]                                              *)
(* ===================================================================== *)

Module BatchPanel.

Record Props : Type := {
  isLoading : bool;
  pinnedFrameStyle : option FrameStyle;
  hasBatchFiles : bool
}.

(** The button is rendered when a style is pinned. *)
Definition applyShown (props : Props) : bool :=
  match pinnedFrameStyle props with Some _ => true | None => false end.

(** [disabled] of the button. *)
Definition applyDisabled (props : Props) : bool :=
  isLoading props || negb (hasBatchFiles props).

(** The props that [App] passes. *)
Definition propsOf {number : Type} (s : App.AppState number) : Props :=
  {| isLoading := App.isLoading s;
     pinnedFrameStyle := App.pinnedFrameStyle s;
     hasBatchFiles := 0 <? length (App.batchFiles s) |}.

(** The button can be pressed. *)
Definition canApply (props : Props) : bool :=
  applyShown props && negb (applyDisabled props).

End BatchPanel.

(* ===================================================================== *)
(** * index.tsx                                                            *)
(* ===================================================================== *)

Module Index.

(** What the script reads: [import.meta.env.VITE_API_KEY] and
    [window.injectedEnv?.API_KEY]; [None] is [undefined]. *)
Record Sources : Type := {
  VITE_API_KEY : option jsstring;
  injected_API_KEY : option jsstring
}.

Definition placeholder : jsstring := lit "${API_KEY}".

(** [a !== b] for [string | undefined] against a string. *)
Definition differs (a : option jsstring) (b : jsstring) : bool :=
  match a with Some s => negb (jsstring_eqb s b) | None => true end.

(** The expression that initializes [apiKey]. *)
Definition apiKey (src : Sources) : option jsstring :=
  if truthy_opt (VITE_API_KEY src) then VITE_API_KEY src
  else if truthy_opt (injected_API_KEY src)
          && differs (injected_API_KEY src) placeholder
       then injected_API_KEY src
       else None.

(** What the script does with it. *)
Inductive Outcome : Type :=
| SetProcessEnvApiKey (key : jsstring)
| ConsoleError (message : jsstring).

Definition boot (src : Sources) : Outcome :=
  match apiKey src with
  | Some key =>
      if truthy key then SetProcessEnvApiKey key
      else ConsoleError (lit "FATAL: Gemini API Key is not configured. The application cannot start. Please refer to the README for setup instructions.")
  | None =>
      ConsoleError (lit "FATAL: Gemini API Key is not configured. The application cannot start. Please refer to the README for setup instructions.")
  end.

End Index.

(** The actions that put a new history in the place of the old one. *)
Definition replacing {number : Type} (a : App.Action number) : bool :=
  match a with
  | App.StartEditing _ | App.BatchFilesSelect _ | App.GenerateComposite
  | App.ApplyFrameToBatch | App.UploadNew => true
  | _ => false
  end.

(* ===================================================================== *)
(** * The handlers and the gateway together                                *)
(* ===================================================================== *)

Module Linked.
Import App.
Section WithNumbers.
Context {number : Type} {numbers : JSNumber number}.

(** The operation of the gateway that the handler of [a] calls in state
    [s], with the image it passes, when its guards let it through. *)
Definition requested (s : AppState number) (a : Action number)
  : option (Operation.Operation number * File) :=
  match currentImage s with
  | None => None
  | Some image =>
      match a with
      | Generate =>
          if negb (truthy (trim (prompt s))) then None
          else if length (editHotspots s) =? 0 then None
          else Some (Operation.Edit (prompt s) (editHotspots s), image)
      | ApplyCreativeStyle stylePrompt =>
          Some (Operation.Filter stylePrompt, image)
      | ApplyAdjustment adjustmentPrompt =>
          Some (Operation.Adjust adjustmentPrompt, image)
      | ReplaceObject =>
          if (negb (truthy (trim (prompt s)))
              || negb (truthy (trim (secondaryPrompt s))))%bool then None
          else Some (Operation.Adjust
                       (lit "Replace the " ++ prompt s ++ lit " with a "
                        ++ secondaryPrompt s ++ lit "."), image)
      | ApplyFrame details =>
          if negb (truthy (trim (style details))) then None
          else Some (Operation.Frame (style details) (topText details)
                       (bottomText details), image)
      | _ => None
      end
  end.

(** The call of the gateway for [op] on [image], as the handlers make
    it. *)
Definition callOf (op : Operation.Operation number) (image : File)
  : Request number :=
  match op with
  | Operation.Edit userPrompt hotspots =>
      GenerateEditedImage image userPrompt hotspots
  | Operation.Filter stylePrompt => GenerateFilteredImage image stylePrompt
  | Operation.Adjust adjustmentPrompt =>
      GenerateAdjustedImage image adjustmentPrompt
  | Operation.Frame frameStyle top bottom =>
      GenerateFramedImage image frameStyle top bottom
  end.

(** What a call of the gateway was answered with. *)
Definition callResult (req : Request number)
  : Answer req -> option (Exn + jsstring) :=
  match req with
  | GenerateEditedImage _ _ _ | GenerateFilteredImage _ _
  | GenerateAdjustedImage _ _ | GenerateCompositedImage _
  | GenerateFramedImage _ _ _ _ => fun a => Some a
  | _ => fun _ => None
  end.

End WithNumbers.
End Linked.

(** The prefix of the name that the handler of [a] gives its result. *)
Definition resultPrefix {number : Type} (a : App.Action number) : jsstring :=
  match a with
  | App.Generate => lit "edited-"
  | App.ApplyCreativeStyle _ => lit "styled-"
  | App.ApplyAdjustment _ => lit "adjusted-"
  | App.ReplaceObject => lit "replaced-"
  | App.ApplyFrame _ => lit "framed-"
  | _ => []
  end.
(* ===================================================================== *)
(** * Properties                                                           *)
(* ===================================================================== *)

Import App.

(** ** Runs on concrete inputs *)

Example trim_strips_both_ends : trim (lit "  a b  ") = lit "a b".
Proof. reflexivity. Qed.

Example split_on_commas :
  split_on comma (lit "data:image/png;base64,QUJD,x")
  = [lit "data:image/png;base64"; lit "QUJD"; lit "x"].
Proof. reflexivity. Qed.

Example match_mime_of_header :
  match_mime (lit "data:image/png;base64") = Some (lit "image/png")
  /\ match_mime (lit "image/png;base64") = None
  /\ match_mime (lit "a:;b:c;") = Some [].
Proof. repeat split; reflexivity. Qed.

Example atob_decodes :
  atob (lit "QUJD") = Some (lit "ABC") /\ atob (lit "QUI=") = Some (lit "AB")
  /\ atob (lit "QQ") = Some (lit "A") /\ atob (lit " Q U I = ") = Some (lit "AB")
  /\ atob (lit "Q") = None /\ atob (lit "QQ=") = None
  /\ atob (lit "*") = None.
Proof. repeat split; vm_compute; reflexivity. Qed.

Example padStart_of_index :
  padStart (Number_toString 7) 3 (lit "0") = lit "007"
  /\ padStart (Number_toString 1234) 3 (lit "0") = lit "1234".
Proof. split; reflexivity. Qed.

Example slice_and_splice :
  slice [1; 2; 3; 4] 0 (-1) = [1; 2; 3] /\ slice [1; 2; 3; 4] 0 2 = [1; 2]
  /\ slice (@nil nat) 0 (-1) = []
  /\ splice1 [10; 11; 12] 2 = ([12], [10; 11])
  /\ splice1 [10; 11; 12] 5 = ([], [10; 11; 12]).
Proof. repeat split; reflexivity. Qed.

Example sanitize_of_name :
  sanitize (lit "my photo(1).PNG") = lit "my_photo_1_.PNG".
Proof. reflexivity. Qed.

(** A blocked request, end to end: the error is the message of the
    gateway and the history is as it was. *)
Example blocked_edit_end_to_end :
  let final := fst (snd (Program.execute handleGenerate editing_state
                           (Program.serving Program.blocked_response 0))) in
  error final = Some (lit "Request was blocked. Reason: SAFETY. ")
  /\ history final = history editing_state
  /\ isLoading final = false.
Proof. vm_compute. repeat split. Qed.

(** A successful edit, end to end: the image of the response is decoded
    and appended. *)
Example successful_edit_end_to_end :
  let final := fst (snd (Program.execute handleGenerate editing_state
                           (Program.serving Response.image_despite_safety
                              1700000000000))) in
  error final = None
  /\ history final
     = [sample_file 1;
        {| file_name := lit "edited-1700000000000.png";
           file_type := lit "image/png"; file_bytes := lit "ABC" |}]
  /\ historyIndex final = 1%Z /\ editHotspots final = [].
Proof. vm_compute. repeat split. Qed.

Arguments lit : simpl never.
#[global] Opaque lit.

(** ** Arrays *)

Lemma firstn_min_length {A} (n : nat) (l : list A) :
  firstn (Nat.min n (length l)) l = firstn n l.
Proof.
  destruct (Nat.le_gt_cases n (length l)) as [Hle | Hgt].
  - now rewrite Nat.min_l.
  - rewrite Nat.min_r by lia.
    rewrite firstn_all. symmetry. apply firstn_all2. lia.
Qed.

(** [l.slice(0, k)] with [k >= 0] is the prefix of length [k]. *)
Lemma slice_prefix {A} (l : list A) (k : Z) :
  (0 <= k)%Z -> slice l 0 k = firstn (Z.to_nat k) l.
Proof.
  intros Hk. unfold slice, relative_index.
  replace (k <? 0)%Z with false by (symmetry; apply Z.ltb_ge; lia).
  cbn [Z.ltb Z.compare Z.to_nat Nat.min skipn].
  rewrite Nat.sub_0_r. apply firstn_min_length.
Qed.

(** [l.slice(0, -1)] drops the last element, if there is one. *)
Lemma slice_drop_last_length {A} (l : list A) :
  length (slice l 0 (-1)) = length l - 1.
Proof.
  unfold slice, relative_index.
  cbn [Z.ltb Z.compare Z.to_nat Nat.min skipn].
  rewrite Nat.sub_0_r, length_firstn. lia.
Qed.

Section HistoryProperties.
Context {number : Type} {numbers : JSNumber number}.

Lemma append_history (s : AppState number) (f : File) (env : Env Answer) :
  history (after (append f) s env)
  = slice (history s) 0 (historyIndex s + 1) ++ [f].
Proof. reflexivity. Qed.

Lemma append_historyIndex (s : AppState number) (f : File)
  (env : Env Answer) :
  historyIndex (after (append f) s env)
  = (Z.of_nat (length (history (after (append f) s env))) - 1)%Z.
Proof. reflexivity. Qed.

End HistoryProperties.

(** C1. Appending an asset keeps the entries up to and including the
    cursor, drops the rest, puts the asset last and moves the cursor onto
    it. From history [a, b, c] at cursor 2, undo, undo, append [d] gives
    history [a, d] at cursor 1, and redo then changes nothing. *)
Theorem append_discards_redo_branch {number : Type} {numbers : JSNumber number}
  (s : AppState number) (newImageFile : File) (env : Env Answer) :
  (-1 <= historyIndex s)%Z ->
  (let s' := after (append newImageFile) s env in
   history s' = firstn (Z.to_nat (historyIndex s + 1)) (history s)
                ++ [newImageFile]
   /\ historyIndex s' = (Z.of_nat (length (history s')) - 1)%Z)
  /\ (forall a b c d : File,
      let s0 := setHistoryIndex 2 (setHistory [a; b; c] s) in
      let s1 := after handleUndo s0 env in
      let s2 := after handleUndo s1 env in
      let s3 := after (append d) s2 env in
      history s3 = [a; d] /\ historyIndex s3 = 1%Z
      /\ after handleRedo s3 env = s3).
Proof.
  intros Hcursor. split.
  - cbv zeta. rewrite append_historyIndex, append_history.
    rewrite slice_prefix by lia. split; reflexivity.
  - intros a b c d. cbv zeta. repeat split.
Qed.

Lemma append_discards_redo_branch_witness :
  let s := setHistoryIndex 0
             (setHistory [sample_file 1; sample_file 2] (@initial Z)) in
  (-1 <= historyIndex s)%Z
  /\ history (after (append (sample_file 3)) s refusing)
     = [sample_file 1; sample_file 3].
Proof.
  cbv zeta.
  assert (Hcursor : (-1 <= historyIndex
            (setHistoryIndex 0
               (setHistory [sample_file 1; sample_file 2] (@initial Z))))%Z)
    by (cbn; lia).
  split; [exact Hcursor |].
  exact (proj1 (proj1 (@append_discards_redo_branch Z whole_numbers _
                         (sample_file 3) refusing Hcursor))).
Defined.

(** ** The classification of responses *)

Section Classification.
Import Gateway Response.

Lemma truthy_nonempty (s : jsstring) : truthy s = true <-> s <> [].
Proof. destruct s; cbn; split; intros; congruence. Qed.

Lemma jsstring_eqb_eq (a b : jsstring) : jsstring_eqb a b = true <-> a = b.
Proof.
  unfold jsstring_eqb. destruct (list_eq_dec N.eq_dec a b); split;
    intros; congruence.
Qed.

Lemma find_first {A} (p : A -> bool) (l : list A) (x : A) :
  find p l = Some x ->
  exists before rest,
    l = before ++ x :: rest /\ Forall (fun y => p y = false) before
    /\ p x = true.
Proof.
  induction l as [| y l IH]; cbn; [discriminate |].
  destruct (p y) eqn:Hy.
  - intros [= ->]. exists [], l. auto.
  - intros Hf. destruct (IH Hf) as (before & rest & -> & Hb & Hx).
    exists (y :: before), rest. auto.
Qed.

Lemma find_none_all {A} (p : A -> bool) (l : list A) :
  find p l = None -> Forall (fun y => p y = false) l.
Proof.
  induction l as [| y l IH]; cbn; [constructor |].
  destruct (p y) eqn:Hy; [discriminate | auto].
Qed.

Lemma imagePartFromResponse_find (r : GenerateContentResponse) :
  imagePartFromResponse r = find hasInlineData (outputParts r).
Proof.
  unfold imagePartFromResponse, firstCandidate, outputParts.
  destruct (candidates r) as [[| c cs] |]; try reflexivity.
  destruct (content c) as [ct |]; try reflexivity.
  destruct (parts ct); reflexivity.
Qed.

Lemma blockedFeedback_some (r : GenerateContentResponse) (pf : PromptFeedback) :
  blockedFeedback r = Some pf ->
  blockedWith r (template_opt (blockReason pf)) (blockReasonMessage pf).
Proof.
  unfold blockedFeedback, blockedWith.
  destruct (promptFeedback r) as [pf' |]; [| discriminate].
  destruct (blockReason pf') as [reason |] eqn:Hr; cbn; [| discriminate].
  destruct (truthy reason) eqn:Ht; [| discriminate].
  intros [= <-]. exists pf'. rewrite Hr. cbn.
  repeat split; auto. now apply truthy_nonempty.
Qed.

Lemma blockedFeedback_none (r : GenerateContentResponse) :
  blockedFeedback r = None -> notBlocked r.
Proof.
  unfold blockedFeedback, notBlocked, blockedWith.
  intros Hb reason message (pf & Hpf & Hr & Hne & _).
  rewrite Hpf, Hr in Hb. cbn in Hb.
  apply truthy_nonempty in Hne. rewrite Hne in Hb. discriminate.
Qed.

(** The rules leave one outcome only. *)
Lemma classified_functional (r : GenerateContentResponse) (context : jsstring)
  (o o' : ApiFailure + jsstring) :
  classified r context o -> classified r context o' -> o = o'.
Proof.
  assert (Hblock : forall reason message reason' message',
             blockedWith r reason message -> blockedWith r reason' message' ->
             reason = reason' /\ message = message').
  { intros ? ? ? ? (pf & H1 & H2 & _ & H3) (pf' & H1' & H2' & _ & H3').
    rewrite H1 in H1'. injection H1' as <-. split; congruence. }
  assert (Himage : forall image, firstImage r image -> noImage r -> False).
  { intros image (before & part & rest & Hp & _ & Hi) Hn.
    unfold noImage in Hn. rewrite Hp in Hn.
    apply Forall_app in Hn as [_ Hn]. inversion Hn; congruence. }
  assert (Hfirst : forall image image',
             firstImage r image -> firstImage r image' -> image = image').
  { intros image image' (b1 & p1 & r1 & H1 & Hb1 & Hi1)
      (b2 & p2 & r2 & H2 & Hb2 & Hi2).
    rewrite H1 in H2. clear H1.
    revert b2 H2 Hb2. induction b1 as [| x b1 IH]; intros [| y b2] H2 Hb2.
    - injection H2 as <- _. congruence.
    - injection H2 as <- _. inversion Hb2; congruence.
    - injection H2 as -> _. inversion Hb1; congruence.
    - injection H2 as _ H2. inversion Hb1; inversion Hb2; subst. eauto. }
  intros H H'.
  destruct H as [reason message Hb | image Hnb Hi | reason Hnb Hn Hs | Hnb Hn Hs];
    destruct H' as [reason' message' Hb' | image' Hnb' Hi' | reason' Hnb' Hn' Hs'
                   | Hnb' Hn' Hs'];
    try solve [exfalso; eauto | exfalso; eapply Hnb; eauto
              | exfalso; eapply Hnb'; eauto | exfalso; eapply Hs; eauto
              | exfalso; eapply Hs'; eauto].
  - destruct (Hblock _ _ _ _ Hb Hb') as [-> ->]. reflexivity.
  - now rewrite (Hfirst _ _ Hi Hi').
  - destruct Hs as (H1 & _), Hs' as (H1' & _). congruence.
  - reflexivity.
Qed.

Lemma handleApiResponse_classified (r : GenerateContentResponse)
  (context : jsstring) : classified r context (handleApiResponse r context).
Proof.
  unfold handleApiResponse.
  destruct (blockedFeedback r) as [pf |] eqn:Hb.
  { constructor. now apply blockedFeedback_some. }
  apply blockedFeedback_none in Hb.
  rewrite imagePartFromResponse_find.
  assert (Hrest : noImage r ->
    classified r context
      (let reason := match firstCandidate r with
                     | Some c => finishReason c
                     | None => None
                     end in
       if truthy_opt reason && negb (jsstring_eqb (template_opt reason) STOP)
       then inl (GenerationStopped context (template_opt reason))
       else inl (NoImageReturned context (option_map trim (text r))))).
  { intros Hn. cbv zeta.
    replace (match firstCandidate r with
             | Some c => finishReason c
             | None => None
             end) with (finishReasonOf r)
      by (unfold finishReasonOf, firstCandidate;
          destruct (candidates r) as [[| c cs] |]; reflexivity).
    destruct (finishReasonOf r) as [reason |] eqn:Hf; cbn.
    - destruct (truthy reason) eqn:Ht; cbn.
      + destruct (jsstring_eqb reason STOP) eqn:He; cbn.
        * apply classified_no_image; auto.
          intros reason' (H1 & _ & H3). rewrite Hf in H1. injection H1 as <-.
          apply jsstring_eqb_eq in He. contradiction.
        * apply classified_stopped; auto. repeat split; auto.
          -- now apply truthy_nonempty.
          -- intros Heq. apply jsstring_eqb_eq in Heq. congruence.
      + apply classified_no_image; auto.
        intros reason' (H1 & H2 & _). rewrite Hf in H1. injection H1 as <-.
        apply truthy_nonempty in H2. congruence.
    - apply classified_no_image; auto.
      intros reason' (H1 & _). congruence. }
  destruct (find hasInlineData (outputParts r)) as [part |] eqn:Hfind.
  - destruct (find_first _ _ Hfind) as (before & rest & Hp & Hbefore & Hpart).
    unfold hasInlineData in Hpart.
    destruct part as [[image |] ptext]; cbn in Hpart; [| discriminate].
    apply classified_image; auto.
    exists before, {| inlineData := Some image; part_text := ptext |}, rest.
    repeat split; auto.
    eapply Forall_impl; [| exact Hbefore].
    intros p. unfold hasInlineData. destruct (inlineData p); congruence.
  - apply Hrest. unfold noImage.
    eapply Forall_impl; [| exact (find_none_all _ _ Hfind)].
    intros p. unfold hasInlineData. destruct (inlineData p); congruence.
Qed.

End Classification.

(** C2. [handleApiResponse] classifies every response by four rules in
    order of priority: a block reason gives a blocked-request failure;
    otherwise an image part gives the data URL of the image, whatever the
    finish reason; otherwise a finish reason other than [STOP] gives a
    generation-stopped failure; otherwise a no-image failure carries the
    text of the response. *)
Theorem response_classification_priority (r : Gateway.GenerateContentResponse)
  (context : jsstring) (outcome : Gateway.ApiFailure + jsstring) :
  Gateway.handleApiResponse r context = outcome
  <-> Response.classified r context outcome.
Proof.
  split.
  - intros <-. apply handleApiResponse_classified.
  - intros H. eapply classified_functional; [| exact H].
    apply handleApiResponse_classified.
Qed.

Lemma response_classification_priority_witness :
  Gateway.handleApiResponse Response.image_despite_safety (lit "edit")
  = inr (lit "data:image/png;base64,QUJD").
Proof.
  apply (proj2 (response_classification_priority
                  Response.image_despite_safety (lit "edit")
                  (inr (lit "data:image/png;base64,QUJD")))).
  apply (Response.classified_image (lit "edit")
           (image := {| Gateway.mimeType := Some (lit "image/png");
                        Gateway.data := Some (lit "QUJD") |})).
  - intros reason message (pf & Hpf & _). discriminate Hpf.
  - exists [{| Gateway.inlineData := None;
               Gateway.part_text := Some (lit "here") |}],
      {| Gateway.inlineData :=
           Some {| Gateway.mimeType := Some (lit "image/png");
                   Gateway.data := Some (lit "QUJD") |};
         Gateway.part_text := None |}, [].
    repeat split. constructor; [reflexivity | constructor].
Defined.

(** ** Failed edits *)

Import Session.

Arguments dataURLtoFile : simpl never.
Arguments stamped : simpl never.
Arguments slice : simpl never.
Arguments orderedFiles : simpl never.
Arguments trim : simpl never.
Arguments errorMessage : simpl never.

(** Run a handler symbolically: split on every answer of the environment
    and on every decoding. *)
Ltac step_run :=
  simpl;
  match goal with
  | |- context [match ?env ?n ?ev with _ => _ end] =>
      let T := type of ev in
      match T with Request _ => idtac end;
      let Hans := fresh "Hans" in destruct (env n ev) eqn:Hans
  | |- context [dataURLtoFile ?a ?b] =>
      let Hfile := fresh "Hfile" in destruct (dataURLtoFile a b) eqn:Hfile
  | |- context [if ?env ?n ?ev then _ else _] =>
      let T := type of ev in
      match T with Request _ => idtac end;
      let Hans := fresh "Hans" in destruct (env n ev) eqn:Hans
  | |- context [negb (?env ?n ?ev)] =>
      let T := type of ev in
      match T with Request _ => idtac end;
      let Hans := fresh "Hans" in destruct (env n ev) eqn:Hans
  end.

Ltac run_handler := repeat step_run; simpl.

(** No request of a finished trace was a rejected call. *)
Ltac no_rejected_call :=
  let n := fresh "n" in
  let req := fresh "req" in
  let Hn := fresh "Hn" in
  let Hr := fresh "Hr" in
  intros (n & req & Hn & Hr);
  repeat (destruct n as [| n]; simpl in Hn;
          [injection Hn as <-; simpl in Hr;
           repeat match goal with
                  | H : _ = inr _ |- _ => rewrite H in Hr
                  end;
           discriminate Hr |]);
  destruct n; simpl in Hn; discriminate Hn.

Section FailedEdits.
Context {number : Type} {numbers : JSNumber number}.

Lemma failed_generate (s : AppState number) (env : Env Answer) :
  remoteCallFailed handleGenerate s env ->
  history (after handleGenerate s env) = history s
  /\ historyIndex (after handleGenerate s env) = historyIndex s.
Proof.
  unfold remoteCallFailed, after, trace, invoke, handleGenerate.
  destruct (currentImage s) as [image |]; [| simpl; auto].
  destruct (negb (truthy (trim (prompt s)))); [simpl; auto |].
  destruct (length (editHotspots s) =? 0); [simpl; auto |].
  run_handler; auto. no_rejected_call.
Qed.

Lemma failed_composite (s : AppState number) (env : Env Answer) :
  remoteCallFailed handleGenerateComposite s env ->
  history (after handleGenerateComposite s env) = history s
  /\ historyIndex (after handleGenerateComposite s env) = historyIndex s.
Proof.
  unfold remoteCallFailed, after, trace, invoke, handleGenerateComposite.
  destruct (length (compositeFiles s) <? 2); [simpl; auto |].
  run_handler; auto. no_rejected_call.
Qed.

Lemma failed_creative_style (s : AppState number) (p : jsstring)
  (env : Env Answer) :
  remoteCallFailed (handleApplyCreativeStyle p) s env ->
  history (after (handleApplyCreativeStyle p) s env) = history s
  /\ historyIndex (after (handleApplyCreativeStyle p) s env) = historyIndex s.
Proof.
  unfold remoteCallFailed, after, trace, invoke, handleApplyCreativeStyle.
  destruct (currentImage s) as [image |]; [| simpl; auto].
  run_handler; auto. no_rejected_call.
Qed.

Lemma failed_adjustment (s : AppState number) (p : jsstring)
  (env : Env Answer) :
  remoteCallFailed (handleApplyAdjustment p) s env ->
  history (after (handleApplyAdjustment p) s env) = history s
  /\ historyIndex (after (handleApplyAdjustment p) s env) = historyIndex s.
Proof.
  unfold remoteCallFailed, after, trace, invoke, handleApplyAdjustment.
  destruct (currentImage s) as [image |]; [| simpl; auto].
  run_handler; auto. no_rejected_call.
Qed.

Lemma failed_replace (s : AppState number) (env : Env Answer) :
  remoteCallFailed handleReplaceObject s env ->
  history (after handleReplaceObject s env) = history s
  /\ historyIndex (after handleReplaceObject s env) = historyIndex s.
Proof.
  unfold remoteCallFailed, after, trace, invoke, handleReplaceObject.
  destruct (currentImage s) as [image |]; [| simpl; auto].
  destruct (_ || _)%bool; [simpl; auto |].
  run_handler; auto. no_rejected_call.
Qed.

Lemma failed_frame (s : AppState number) (details : FrameStyle)
  (env : Env Answer) :
  remoteCallFailed (handleApplyFrame details) s env ->
  history (after (handleApplyFrame details) s env) = history s
  /\ historyIndex (after (handleApplyFrame details) s env) = historyIndex s.
Proof.
  unfold remoteCallFailed, after, trace, invoke, handleApplyFrame.
  destruct (currentImage s) as [image |]; [| simpl; auto].
  destruct (negb (truthy (trim (style details)))); [simpl; auto |].
  run_handler; auto. no_rejected_call.
Qed.

End FailedEdits.

(** C3. When the remote call of a localized edit, a filter, an adjustment,
    a replacement, a frame or a composite fails, the history and the
    cursor are what they were before the attempt. *)
Theorem failed_edit_leaves_history {number : Type} {numbers : JSNumber number}
  (s : AppState number) (a : Action number) (env : Env Answer) :
  nonBatchEdit a = true ->
  remoteCallFailed (handler a) s env ->
  history (after (handler a) s env) = history s
  /\ historyIndex (after (handler a) s env) = historyIndex s.
Proof.
  destruct a; try discriminate; intros _; cbn [handler].
  - apply failed_generate.
  - apply failed_composite.
  - apply failed_creative_style.
  - apply failed_adjustment.
  - apply failed_replace.
  - apply failed_frame.
Qed.

Lemma failed_edit_leaves_history_witness :
  history (after (handler Generate) editing_state refusing)
  = history editing_state
  /\ historyIndex (after (handler Generate) editing_state refusing)
     = historyIndex editing_state.
Proof.
  apply (@failed_edit_leaves_history Z whole_numbers editing_state
           Generate refusing).
  - reflexivity.
  - exists 0, (GenerateEditedImage (sample_file 1) (lit "make the sky blue")
                 [{| hotspot_x := 40%Z; hotspot_y := 80%Z |}]).
    split; reflexivity.
Defined.

(** ** The batch *)

(** The name of a batch result. *)
Lemma frameOne_run {number : Type} {numbers : JSNumber number}
  (pinned : FrameStyle) (file : File) (s : AppState number)
  (env : Env Answer) :
  run (frameOne pinned file s) env
  = ([GenerateFramedImage file (style pinned) (topText pinned)
        (bottomText pinned)],
     (s, match env 0 (GenerateFramedImage file (style pinned)
                        (topText pinned) (bottomText pinned)) with
         | inl e => inl e
         | inr url =>
             dataURLtoFile url
               (lit "framed-batch-" ++ file_name file ++ lit ".png")
         end)).
Proof.
  unfold frameOne. simpl.
  destruct (env 0 _); simpl; [reflexivity |].
  destruct (dataURLtoFile _ _); reflexivity.
Qed.

(** C4. With a pinned style and the batch sources [s1, s2, s3], when the
    frame call for [s1] succeeds and the one for [s2] fails, the gateway is
    called for [s1] and [s2] only, an error is reported, and the history
    is the result for [s1] alone, with the cursor on it. *)
Theorem batch_stops_at_first_failure {number : Type}
  {numbers : JSNumber number} (s : AppState number) (pinned : FrameStyle)
  (s1 s2 s3 : File) (env : Env Answer) (url1 : jsstring) (result1 : File)
  (e : Exn) :
  pinnedFrameStyle s = Some pinned ->
  batchFiles s = [s1; s2; s3] ->
  env 0 (GenerateFramedImage s1 (style pinned) (topText pinned)
           (bottomText pinned)) = inr url1 ->
  dataURLtoFile url1 (lit "framed-batch-" ++ file_name s1 ++ lit ".png")
  = inr result1 ->
  env 1 (GenerateFramedImage s2 (style pinned) (topText pinned)
           (bottomText pinned)) = inl e ->
  let s' := after handleApplyFrameToBatch s env in
  trace handleApplyFrameToBatch s env
  = [GenerateFramedImage s1 (style pinned) (topText pinned)
       (bottomText pinned);
     GenerateFramedImage s2 (style pinned) (topText pinned)
       (bottomText pinned)]
  /\ error s'
     = Some (errorMessage e (lit "An error occurred during batch processing. Some images may not have been processed."))
  /\ history s' = [result1]
  /\ historyIndex s' = (Z.of_nat (length (history s')) - 1)%Z
  /\ historyIndex s' = 0%Z.
Proof.
  intros Hpinned Hbatch Hfirst Hdecoded Hsecond.
  unfold after, trace, invoke, handleApplyFrameToBatch.
  rewrite Hpinned, Hbatch. simpl.
  rewrite Hfirst. simpl. rewrite Hdecoded. simpl.
  unfold later. simpl. rewrite Hsecond. simpl.
  repeat split.
Qed.

Lemma batch_stops_at_first_failure_witness :
  history (after handleApplyFrameToBatch batch_state
             (failing_after_first tiny_png_url))
  = [{| file_name := lit "framed-batch-photo.png.png";
        file_type := lit "image/png"; file_bytes := [65%N] |}].
Proof.
  apply (@batch_stops_at_first_failure Z whole_numbers batch_state gold_frame
           (sample_file 1) (sample_file 2) (sample_file 3)
           (failing_after_first tiny_png_url) tiny_png_url
           {| file_name := lit "framed-batch-photo.png.png";
              file_type := lit "image/png"; file_bytes := [65%N] |}
           NonError);
    reflexivity.
Defined.

(** ** The composite *)

Lemma skipn_nth_error {A} (l : list A) (i : nat) (x : A) :
  nth_error l i = Some x -> skipn i l = x :: skipn (S i) l.
Proof.
  revert l. induction i as [| i IH]; intros [| y l]; cbn; try discriminate.
  - now intros [= ->].
  - intros H. now rewrite (IH l H).
Qed.

Lemma orderedFiles_in_bounds (files : list File) (index : nat) (x : File) :
  nth_error files index = Some x ->
  orderedFiles files (Z.of_nat index)
  = map Some (x :: firstn index files ++ skipn (S index) files).
Proof.
  intros Hx.
  assert (Hlt : index < length files) by (apply nth_error_Some; congruence).
  unfold orderedFiles, splice1, relative_index.
  replace (Z.of_nat index <? 0)%Z with false by (symmetry; apply Z.ltb_ge; lia).
  rewrite Nat2Z.id, length_map, Nat.min_l by lia.
  rewrite (skipn_nth_error (map Some files) index (x := Some x))
    by (rewrite nth_error_map, Hx; reflexivity).
  cbn [firstn nth]. rewrite map_cons, map_app, skipn_map, firstn_map.
  reflexivity.
Qed.

(** C5. For an index within the working set, composite generation calls
    the gateway with the element at that index first and the other
    elements after it in their order; [i0, i1, i2] with index 2 is sent as
    [i2, i0, i1]. *)
Theorem composite_puts_style_source_first {number : Type}
  {numbers : JSNumber number} (s : AppState number) (env : Env Answer)
  (index : nat) (styleSource : File) :
  nth_error (compositeFiles s) index = Some styleSource ->
  styleSourceIndex s = Z.of_nat index ->
  2 <= length (compositeFiles s) ->
  hd_error (trace handleGenerateComposite s env)
  = Some (GenerateCompositedImage
            (map Some (styleSource
                       :: firstn index (compositeFiles s)
                       ++ skipn (S index) (compositeFiles s))))
  /\ (forall i0 i1 i2 : File,
      compositeFiles s = [i0; i1; i2] -> index = 2 ->
      hd_error (trace handleGenerateComposite s env)
      = Some (GenerateCompositedImage [Some i2; Some i0; Some i1])).
Proof.
  intros Hsource Hindex Hsize.
  assert (Hsent : hd_error (trace handleGenerateComposite s env)
    = Some (GenerateCompositedImage
              (map Some (styleSource
                         :: firstn index (compositeFiles s)
                         ++ skipn (S index) (compositeFiles s))))).
  { unfold trace, invoke, handleGenerateComposite.
    replace (length (compositeFiles s) <? 2) with false
      by (symmetry; apply Nat.ltb_ge; lia).
    rewrite Hindex, (orderedFiles_in_bounds _ _ Hsource).
    simpl. destruct (run _ _). reflexivity. }
  split; [exact Hsent |].
  intros i0 i1 i2 Hfiles ->. rewrite Hsent, Hfiles in *.
  cbn in Hsource. injection Hsource as <-. reflexivity.
Qed.

Lemma composite_puts_style_source_first_witness :
  hd_error (trace handleGenerateComposite composite_state refusing)
  = Some (GenerateCompositedImage
            [Some (sample_file 3); Some (sample_file 1);
             Some (sample_file 2)]).
Proof.
  apply (proj2 (@composite_puts_style_source_first Z whole_numbers
                  composite_state refusing 2 (sample_file 3)
                  eq_refl eq_refl (le_S _ _ (le_n 2))));
    reflexivity.
Defined.

(** ** Transport encodings *)

Section Decoding.
Import DataURL.

Lemma split_on_nonempty (sep : code_unit) (s : jsstring) :
  split_on sep s <> [].
Proof.
  destruct s as [| c r]; cbn; [discriminate |].
  destruct (N.eqb c sep); [discriminate |].
  destruct (split_on sep r); discriminate.
Qed.

(** [split] gives fewer than two segments exactly when the separator does
    not occur. *)
Lemma split_on_short (sep : code_unit) (s : jsstring) :
  (length (split_on sep s) <? 2) = true <-> ~ In sep s.
Proof.
  rewrite Nat.ltb_lt.
  induction s as [| c r IH]; cbn [split_on].
  - cbn. split; [intros _ [] | lia].
  - destruct (N.eqb_spec c sep) as [-> | Hne].
    + pose proof (split_on_nonempty sep r) as Hn.
      destruct (split_on sep r); [congruence |].
      cbn. split; [lia | intros H; exfalso; apply H; auto].
    + pose proof (split_on_nonempty sep r) as Hn.
      destruct (split_on sep r) as [| seg segs]; [congruence |].
      cbn [length] in *. rewrite IH. cbn.
      split; [intros H [Heq | Hin]; auto | intros H Hin; apply H; auto].
Qed.

(** The first segment ends at the first separator, and the segments after
    it are those of the rest of the string. *)
Lemma split_on_first (sep : code_unit) (s : jsstring) :
  ~ In sep (nth 0 (split_on sep s) [])
  /\ (In sep s ->
      exists rest,
        s = nth 0 (split_on sep s) [] ++ sep :: rest
        /\ split_on sep s = nth 0 (split_on sep s) [] :: split_on sep rest).
Proof.
  induction s as [| c r [IHh IHr]]; cbn [split_on].
  - cbn. split; [tauto | intros []].
  - destruct (N.eqb_spec c sep) as [-> | Hne].
    + cbn. split; [tauto |]. intros _. exists r. split; reflexivity.
    + pose proof (split_on_nonempty sep r) as Hn.
      destruct (split_on sep r) as [| seg segs] eqn:Hsplit; [congruence |].
      cbn [nth] in *. split.
      * intros [Heq | Hin]; [congruence | auto].
      * intros [Heq | Hin]; [congruence |].
        destruct (IHr Hin) as (rest & Hr & Hs).
        exists rest. split; [cbn; congruence |].
        injection Hs as Hsegs. now rewrite Hsegs.
Qed.

(** What [(.*?);] captures is followed by the first [;] and holds no line
    terminator. *)
Lemma lazy_to_semicolon_spec (s g : jsstring) :
  lazy_to_semicolon s = Some g ->
  exists post,
    s = g ++ semicolon :: post /\ ~ In semicolon g
    /\ Forall (fun c => isLineTerminator c = false) g.
Proof.
  revert g. induction s as [| c r IH]; cbn; [discriminate |]. intros g.
  destruct (N.eqb_spec c semicolon) as [-> | Hne].
  - intros [= <-]. exists r. repeat split; auto.
  - destruct (isLineTerminator c) eqn:Hlt; [discriminate |].
    destruct (lazy_to_semicolon r) as [g' |]; [| discriminate].
    cbn. intros [= <-].
    destruct (IH g' eq_refl) as (post & -> & Hno & Hall).
    exists post. repeat split; auto.
    intros [Heq | Hin]; [congruence | auto].
Qed.

(** What [/:(.*?);/] captures stands between a [:] and the first [;] after
    it. *)
Lemma match_mime_spec (s g : jsstring) :
  match_mime s = Some g ->
  exists pre post,
    s = pre ++ colon :: g ++ semicolon :: post /\ ~ In semicolon g
    /\ Forall (fun c => isLineTerminator c = false) g.
Proof.
  induction s as [| c r IH]; cbn; [discriminate |].
  assert (Hlater : match_mime r = Some g ->
    exists pre post,
      c :: r = pre ++ colon :: g ++ semicolon :: post /\ ~ In semicolon g
      /\ Forall (fun c => isLineTerminator c = false) g).
  { intros H. destruct (IH H) as (pre & post & -> & Hno & Hall).
    exists (c :: pre), post. auto. }
  destruct (N.eqb_spec c colon) as [-> | Hne]; [| exact Hlater].
  destruct (lazy_to_semicolon r) as [g' |] eqn:Hlazy; [| exact Hlater].
  intros [= <-].
  destruct (lazy_to_semicolon_spec _ Hlazy) as (post & -> & Hno & Hall).
  exists [], post. auto.
Qed.

Lemma parsedMime_match (url : jsstring) :
  parsedMime url
  = match match_mime (headerOf url) with
    | Some mime => if negb (truthy mime) then None else Some mime
    | None => None
    end.
Proof.
  unfold parsedMime. destruct (match_mime (headerOf url)) as [[| c m] |];
    reflexivity.
Qed.

(** The units [atob] returns are bytes. *)
Lemma sextet_bound (c : code_unit) (v : N) :
  sextet c = Some v -> (v < 64)%N.
Proof.
  unfold sextet.
  repeat match goal with
         | |- context [if ?b then _ else _] => destruct b eqn:?
         end; try discriminate; intros [= <-];
    repeat match goal with
           | H : (_ && _)%bool = true |- _ =>
               apply andb_true_iff in H; destruct H
           | H : N.leb _ _ = true |- _ => apply N.leb_le in H
           end; lia.
Qed.

Lemma sextets_bound (s : jsstring) (vs : list N) :
  sextets s = Some vs -> Forall (fun v => (v < 64)%N) vs.
Proof.
  revert vs. induction s as [| c r IH]; cbn; intros vs.
  - intros [= <-]. constructor.
  - destruct (sextet c) as [v |] eqn:Hv; [| discriminate].
    destruct (sextets r) as [vs' |]; [| discriminate].
    intros [= <-]. constructor; [eapply sextet_bound; eauto | auto].
Qed.

Lemma decode_sextets_bytes (vs : list N) :
  Forall (fun v => (v < 64)%N) vs ->
  Forall (fun b => (b < 256)%N) (decode_sextets vs).
Proof.
  assert (Hmod : forall w, (w mod 256 < 256)%N)
    by (intros; apply N.mod_lt; lia).
  assert (Hdiv : forall w k, (k <> 0)%N -> (w < 256 * k)%N -> (w / k < 256)%N).
  { intros w k Hk Hw. apply N.Div0.div_lt_upper_bound. lia. }
  assert (Hgen : forall n vs, length vs <= n ->
    Forall (fun v => (v < 64)%N) vs ->
    Forall (fun b => (b < 256)%N) (decode_sextets vs)).
  { induction n as [| n IH]; intros l Hlen Hall.
    - destruct l; [constructor | cbn in Hlen; lia].
    - destruct l as [| a [| b [| c [| d r]]]]; cbn [decode_sextets].
      + constructor.
      + constructor.
      + inversion Hall as [| ? ? Ha Hall1]; subst.
        inversion Hall1 as [| ? ? Hb _]; subst.
        repeat constructor. apply Hdiv; lia.
      + inversion Hall as [| ? ? Ha Hall1]; subst.
        inversion Hall1 as [| ? ? Hb Hall2]; subst.
        inversion Hall2 as [| ? ? Hc _]; subst.
        cbv zeta. repeat constructor; [apply Hdiv; lia | apply Hmod].
      + inversion Hall as [| ? ? Ha Hall1]; subst.
        inversion Hall1 as [| ? ? Hb Hall2]; subst.
        inversion Hall2 as [| ? ? Hc Hall3]; subst.
        inversion Hall3 as [| ? ? Hd Hall4]; subst.
        cbv zeta.
        constructor; [apply Hdiv; lia |].
        constructor; [apply Hmod |].
        constructor; [apply Hmod |].
        apply IH; [cbn in Hlen; lia | assumption]. }
  intros Hall. eapply Hgen; [apply le_n | assumption].
Qed.

Lemma atob_bytes (payload bstr : jsstring) :
  atob payload = Some bstr -> map (fun c => (c mod 256)%N) bstr = bstr.
Proof.
  unfold atob. destruct (Nat.eqb _ 1); [discriminate |].
  destruct (sextets _) as [vs |] eqn:Hvs; [| discriminate].
  cbn. intros [= <-].
  pose proof (decode_sextets_bytes (sextets_bound _ Hvs)) as Hbytes.
  induction Hbytes as [| b l Hb _ IH]; cbn; [reflexivity |].
  rewrite IH, N.mod_small by assumption. reflexivity.
Qed.

(** The outcome of [dataURLtoFile] in terms of the parts of the string. *)
Lemma dataURLtoFile_outcome (url filename : jsstring) :
  dataURLtoFile url filename
  = if length (split_on comma url) <? 2 then inl App.invalid_data_url
    else match parsedMime url with
         | None => inl App.no_mime_type
         | Some mime =>
             match atob (payloadOf url) with
             | None => inl invalid_character
             | Some bstr =>
                 inr (new_File bstr filename mime)
             end
         end.
Proof.
  unfold dataURLtoFile. rewrite parsedMime_match.
  fold (headerOf url) (payloadOf url).
  destruct (length (split_on comma url) <? 2); [reflexivity |].
  destruct (match_mime (headerOf url)) as [mime |]; [| reflexivity].
  destruct (negb (truthy mime)); [reflexivity |].
  destruct (atob (payloadOf url)) as [bstr |] eqn:Hbstr; [| reflexivity].
  now rewrite (atob_bytes _ Hbstr).
Qed.

Lemma dataUrlToPart_outcome (url : jsstring) :
  Gateway.dataUrlToPart url
  = if length (split_on comma url) <? 2 then inl Gateway.invalid_data_url
    else match parsedMime url with
         | None => inl Gateway.no_mime_type
         | Some mime => inr (Gateway.InlineDataPart mime (payloadOf url))
         end.
Proof.
  unfold Gateway.dataUrlToPart. rewrite parsedMime_match.
  fold (headerOf url) (payloadOf url).
  destruct (length (split_on comma url) <? 2); [reflexivity |].
  destruct (match_mime (headerOf url)) as [mime |]; [| reflexivity].
  destruct (negb (truthy mime)); reflexivity.
Qed.

End Decoding.

(** ** What the gateway returns is what the handlers decode *)

Section RoundTrip.
Import DataURL.

Lemma split_on_app_sep (sep : code_unit) (a b : jsstring) :
  ~ In sep a -> split_on sep (a ++ sep :: b) = a :: split_on sep b.
Proof.
  induction a as [| c a IH]; cbn [app split_on]; intros Hno.
  - now rewrite N.eqb_refl.
  - destruct (N.eqb_spec c sep) as [-> | Hne].
    + exfalso. apply Hno. now left.
    + rewrite IH; [reflexivity |]. intros Hin. apply Hno. now right.
Qed.

Lemma split_on_no_sep (sep : code_unit) (a : jsstring) :
  ~ In sep a -> split_on sep a = [a].
Proof.
  induction a as [| c a IH]; cbn [split_on]; intros Hno; [reflexivity |].
  destruct (N.eqb_spec c sep) as [-> | Hne].
  - exfalso. apply Hno. now left.
  - rewrite IH; [reflexivity |]. intros Hin. apply Hno. now right.
Qed.

Lemma lazy_to_semicolon_app (g post : jsstring) :
  ~ In semicolon g -> Forall (fun c => isLineTerminator c = false) g ->
  lazy_to_semicolon (g ++ semicolon :: post) = Some g.
Proof.
  induction g as [| c g IH]; cbn [app lazy_to_semicolon]; intros Hno Hall.
  - reflexivity.
  - inversion Hall as [| ? ? Hc Hg]; subst.
    destruct (N.eqb_spec c semicolon) as [-> | Hne].
    + exfalso. apply Hno. now left.
    + rewrite Hc, IH; [reflexivity | | assumption].
      intros Hin. apply Hno. now right.
Qed.

(** A well-formed image part of a response, once [handleApiResponse] has
    turned it into a data URL, is decoded by [dataURLtoFile] into an asset
    with the MIME type of the part and the bytes of its base64 data. *)
Lemma image_part_decodes (mime payload filename bstr : jsstring) :
  mime <> [] -> ~ In comma mime -> ~ In semicolon mime ->
  Forall (fun c => isLineTerminator c = false) mime ->
  ~ In comma payload -> atob payload = Some bstr ->
  dataURLtoFile
    (Gateway.dataUrlOf {| Gateway.mimeType := Some mime;
                          Gateway.data := Some payload |}) filename
  = inr (new_File bstr filename mime).
Proof.
  intros Hmime Hcomma Hsemi Hlines Hpayload Hbstr.
  assert (Hurl : Gateway.dataUrlOf {| Gateway.mimeType := Some mime;
                                      Gateway.data := Some payload |}
                 = (lit "data:" ++ mime ++ semicolon :: lit "base64")
                   ++ comma :: payload).
  { unfold Gateway.dataUrlOf. cbn [Gateway.mimeType Gateway.data template_opt].
    change (lit ";base64,") with ((semicolon :: lit "base64") ++ [comma]).
    rewrite <- !app_assoc. reflexivity. }
  assert (Hheader : ~ In comma (lit "data:" ++ mime ++ semicolon :: lit "base64")).
  { rewrite !in_app_iff. intros [H | [H | H]]; [| contradiction |];
      vm_compute in H; intuition discriminate. }
  rewrite dataURLtoFile_outcome, Hurl.
  unfold parsedMime, headerOf, payloadOf.
  rewrite split_on_app_sep by exact Hheader.
  rewrite split_on_no_sep by exact Hpayload.
  cbn [length Nat.ltb Nat.leb nth].
  change (lit "data:") with (lit "data" ++ [colon]).
  rewrite <- app_assoc. cbn [app].
  change (lit "data") with [100%N; 97%N; 116%N; 97%N].
  cbn [app match_mime N.eqb Pos.eqb colon].
  rewrite lazy_to_semicolon_app by assumption. rewrite Hbstr.
  destruct mime; [congruence | reflexivity].
Qed.

End RoundTrip.

Section Segments.
Import DataURL.

Lemma capturedAt_lazy (rest g : jsstring) :
  lazy_to_semicolon rest = Some g <-> capturedAt rest g.
Proof.
  split.
  - apply lazy_to_semicolon_spec.
  - intros (post & -> & Hno & Hall). now apply lazy_to_semicolon_app.
Qed.

(** The capture of the model is the capture of the leftmost match. *)
Lemma captured_match (header g : jsstring) :
  match_mime header = Some g <-> captured header g.
Proof.
  revert g. induction header as [| c r IH]; intros g.
  - cbn. split; [discriminate |].
    intros (pre & rest & H & _). destruct pre; discriminate H.
  - assert (Hskip : (forall g', ~ capturedAt r g') \/ c <> colon ->
      (match_mime r = Some g <-> captured (c :: r) g)).
    { intros Hnone. rewrite IH. split.
      - intros (pre & rest & -> & Hat & Hfirst).
        exists (c :: pre), rest. split; [reflexivity |]. split; [exact Hat |].
        intros [| c' earlier] rest' Heq Hlen.
        + cbn in Heq. injection Heq as -> <-.
          destruct Hnone as [Hnone | Hne]; [exact Hnone | congruence].
        + cbn in Heq. injection Heq as <- Heq. cbn in Hlen.
          apply (Hfirst earlier rest' Heq). lia.
      - intros (pre & rest & Heq & Hat & Hfirst).
        destruct pre as [| c' pre].
        + cbn in Heq. injection Heq as -> <-. exfalso.
          destruct Hnone as [Hnone | Hne]; [| congruence].
          exact (Hnone g Hat).
        + cbn in Heq. injection Heq as <- ->.
          exists pre, rest. split; [reflexivity |]. split; [exact Hat |].
          intros earlier rest' Heq Hlen.
          apply (Hfirst (c :: earlier) rest'); [now rewrite Heq | cbn; lia]. }
    cbn [match_mime]. destruct (N.eqb_spec c colon) as [-> | Hne];
      [| apply Hskip; now right].
    destruct (lazy_to_semicolon r) as [g' |] eqn:Hlazy.
    + apply capturedAt_lazy in Hlazy. split.
      * intros [= <-]. exists [], r. split; [reflexivity |].
        split; [exact Hlazy |]. intros earlier rest' _ Hlen. cbn in Hlen. lia.
      * intros (pre & rest & Heq & Hat & Hfirst).
        destruct pre as [| c' pre].
        -- cbn in Heq. injection Heq as <-.
           apply capturedAt_lazy in Hlazy, Hat. congruence.
        -- exfalso.
           exact (Hfirst [] r eq_refl ltac:(cbn; lia) g' Hlazy).
    + apply Hskip. left. intros g' Hat. apply capturedAt_lazy in Hat.
      congruence.
Qed.

Lemma parsedMime_captured (url mime : jsstring) :
  parsedMime url = Some mime
  <-> captured (headerOf url) mime /\ mime <> [].
Proof.
  unfold parsedMime. rewrite <- captured_match.
  destruct (match_mime (headerOf url)) as [[| c m] |]; split;
    try discriminate; try (intros [H Hne]; congruence).
  - intros [= <-]. split; [reflexivity | discriminate].
  - intros [H _]. exact H.
Qed.

Lemma parsedMime_none (url : jsstring) :
  parsedMime url = None
  <-> forall mime, captured (headerOf url) mime -> mime = [].
Proof.
  split.
  - intros Hnone mime Hcap. destruct mime as [| c m]; [reflexivity |].
    assert (parsedMime url = Some (c :: m))
      by (apply parsedMime_captured; split; [exact Hcap | discriminate]).
    congruence.
  - intros Hall. destruct (parsedMime url) as [mime |] eqn:Hmime;
      [| reflexivity].
    apply parsedMime_captured in Hmime. destruct Hmime as [Hcap Hne].
    now apply Hall in Hcap.
Qed.

(** The segments that the code takes are the segments of the string. *)
Lemma splitAt_segments (url header payload : jsstring) :
  splitAt url header payload
  <-> In comma url /\ header = headerOf url /\ payload = payloadOf url.
Proof.
  unfold headerOf, payloadOf. split.
  - intros (Hheader & Hpayload & [-> | [more ->]]).
    + rewrite split_on_app_sep, split_on_no_sep by assumption.
      split; [apply in_or_app; right; now left | split; reflexivity].
    + rewrite split_on_app_sep, split_on_app_sep by assumption.
      split; [apply in_or_app; right; now left | split; reflexivity].
  - intros (Hin & -> & ->).
    destruct (split_on_first comma url) as [Hheader Hrest].
    destruct (Hrest Hin) as (rest & Hurl & Hsplit).
    set (h := nth 0 (split_on comma url) []) in *.
    replace (nth 1 (split_on comma url) [])
      with (nth 0 (split_on comma rest) [])
      by (rewrite Hsplit; reflexivity).
    destruct (split_on_first comma rest) as [Hpayload Hmore].
    split; [exact Hheader |]. split; [exact Hpayload |].
    destruct (in_dec N.eq_dec comma rest) as [Hcomma | Hnone].
    + right. destruct (Hmore Hcomma) as (more & Hrest' & _).
      exists more. rewrite <- Hrest'. exact Hurl.
    + left. rewrite (split_on_no_sep comma rest Hnone). cbn [nth]. exact Hurl.
Qed.

End Segments.

(** C6, as the code has it. Decoding a transport encoding fails when the
    string has no [,], or the segment before the first [,] has no MIME
    type, which is what stands between the first [:] after which a [;]
    comes before any line break and that [;], and is not empty; and also
    when the segment after that [,], up to the next [,] or the end, is not
    base64; in no other case. When it succeeds, the asset has the given
    name, the bytes that the second segment decodes to, and as its type
    what the [File] constructor makes of the parsed MIME type: that type
    in ASCII lower case, or no type if it has a character outside U+0020
    to U+007E. The parsing step shared with [fileToPart] fails on the
    first two conditions only. *)
Theorem decoding_fails_on_bad_split_or_payload (url filename : jsstring) :
  ((exists e, dataURLtoFile url filename = inl e)
   <-> (~ In comma url
        \/ (forall header payload mime,
              DataURL.splitAt url header payload ->
              DataURL.captured header mime -> mime = [])
        \/ (exists header payload,
              DataURL.splitAt url header payload /\ atob payload = None)))
  /\ (forall asset, dataURLtoFile url filename = inr asset ->
      exists header payload mime bstr,
        DataURL.splitAt url header payload
        /\ DataURL.captured header mime /\ mime <> []
        /\ atob payload = Some bstr
        /\ asset = {| file_name := filename; file_type := blobType mime;
                      file_bytes := bstr |})
  /\ (forall mime,
        Forall (fun c => (32 <= c <= 126)%N /\ ~ (65 <= c <= 90)%N) mime ->
        blobType mime = mime)
  /\ ((exists e, Gateway.dataUrlToPart url = inl e)
      <-> (~ In comma url
           \/ (forall header payload mime,
                 DataURL.splitAt url header payload ->
                 DataURL.captured header mime -> mime = []))).
Proof.
  assert (Hsegments : In comma url ->
    DataURL.splitAt url (DataURL.headerOf url) (DataURL.payloadOf url))
    by (intros Hin; apply splitAt_segments; auto).
  assert (Hnomime : DataURL.parsedMime url = None ->
    forall header payload mime,
      DataURL.splitAt url header payload ->
      DataURL.captured header mime -> mime = []).
  { intros Hnone header payload mime Hsplit Hcap.
    apply splitAt_segments in Hsplit. destruct Hsplit as (_ & -> & _).
    revert mime Hcap. now apply parsedMime_none. }
  assert (Hmime : forall mime, DataURL.parsedMime url = Some mime ->
    In comma url ->
    ~ (forall header payload mime',
         DataURL.splitAt url header payload ->
         DataURL.captured header mime' -> mime' = [])).
  { intros mime Hsome Hin Hall.
    apply parsedMime_captured in Hsome. destruct Hsome as [Hcap Hne].
    apply Hne. exact (Hall _ _ _ (Hsegments Hin) Hcap). }
  assert (Hpayload : forall bstr, atob (DataURL.payloadOf url) = Some bstr ->
    ~ (exists header payload,
         DataURL.splitAt url header payload /\ atob payload = None)).
  { intros bstr Hsome (header & payload & Hsplit & Hnone).
    apply splitAt_segments in Hsplit. destruct Hsplit as (_ & _ & ->).
    congruence. }
  assert (Hlower : forall mime,
    Forall (fun c => (32 <= c <= 126)%N /\ ~ (65 <= c <= 90)%N) mime ->
    blobType mime = mime).
  { intros mime Hall. unfold blobType.
    replace (forallb _ mime) with true.
    - induction Hall as [| c m [Hc Hnot] _ IH]; [reflexivity |].
      cbn [map]. rewrite IH. f_equal.
      destruct (N.leb_spec 65 c), (N.leb_spec c 90); cbn; try reflexivity.
      exfalso. apply Hnot. lia.
    - symmetry. apply forallb_forall. intros c Hc.
      rewrite Forall_forall in Hall. destruct (Hall c Hc) as [[Hlo Hhi] _].
      apply andb_true_iff. split; apply N.leb_le; assumption. }
  rewrite dataURLtoFile_outcome, dataUrlToPart_outcome.
  pose proof (split_on_short comma url) as Hshort.
  destruct (length (split_on comma url) <? 2).
  - assert (Hno : ~ In comma url) by (now apply Hshort).
    repeat split; eauto; discriminate.
  - assert (Hin : In comma url).
    { destruct (in_dec N.eq_dec comma url) as [H | H]; [exact H |].
      apply Hshort in H. discriminate. }
    destruct (DataURL.parsedMime url) as [mime |] eqn:Hparsed.
    + pose proof (proj1 (parsedMime_captured url mime) Hparsed)
        as [Hcap Hne].
      destruct (atob (DataURL.payloadOf url)) as [bstr |] eqn:Hbstr.
      * split; [| split; [| split; [exact Hlower |]]].
        -- split; [intros [e He]; discriminate |].
           intros [H | [H | H]];
             [contradiction | destruct (Hmime mime eq_refl Hin H)
             | destruct (Hpayload bstr eq_refl H)].
        -- intros asset [= <-].
           exists (DataURL.headerOf url), (DataURL.payloadOf url), mime, bstr.
           split; [auto |]. split; [exact Hcap |]. split; [exact Hne |].
           split; [exact Hbstr | reflexivity].
        -- split; [intros [e He]; discriminate |].
           intros [H | H]; [contradiction | destruct (Hmime mime eq_refl Hin H)].
      * split; [| split; [| split; [exact Hlower |]]].
        -- split; [| eauto]. intros _. right. right.
           exists (DataURL.headerOf url), (DataURL.payloadOf url). auto.
        -- discriminate.
        -- split; [intros [e He]; discriminate |].
           intros [H | H]; [contradiction | destruct (Hmime mime eq_refl Hin H)].
    + split; [| split; [| split; [exact Hlower |]]].
      * split; [| eauto]. intros _. right. left. exact (Hnomime eq_refl).
      * discriminate.
      * split; [| eauto]. intros _. right. exact (Hnomime eq_refl).
Qed.

Lemma decoding_fails_on_bad_split_or_payload_witness :
  exists e, dataURLtoFile DataURL.not_base64_url (lit "edited-1.png") = inl e.
Proof.
  apply (proj1 (decoding_fails_on_bad_split_or_payload
                  DataURL.not_base64_url (lit "edited-1.png"))).
  right. right. exists (lit "data:image/png;base64"), (lit "*").
  split; [| vm_compute; reflexivity].
  split; [vm_compute; intuition discriminate |].
  split; [vm_compute; intuition discriminate |].
  left. vm_compute. reflexivity.
Defined.

(** C6, as stated, fails: this string has a [,] and a MIME type before
    it, and decoding it fails all the same, because its payload is not
    base64. *)
Lemma decoding_fails_with_split_present :
  ~ ((exists e, dataURLtoFile DataURL.not_base64_url (lit "edited-1.png")
                = inl e)
     <-> (~ In comma DataURL.not_base64_url
          \/ DataURL.parsedMime DataURL.not_base64_url = None)).
Proof.
  intros [Hfails _].
  assert (Hthrown : dataURLtoFile DataURL.not_base64_url (lit "edited-1.png")
                    = inl invalid_character) by (vm_compute; reflexivity).
  destruct (Hfails (ex_intro _ _ Hthrown)) as [Hcomma | Hmime].
  - apply Hcomma. vm_compute. auto 30.
  - vm_compute in Hmime. discriminate Hmime.
Qed.

(** ** Hotspots *)

Section Hotspots.
Context {number : Type} {numbers : JSNumber number}.

Lemma generate_clears_hotspots (s : AppState number) (env : Env Answer) :
  succeeded handleGenerate s env ->
  editHotspots (after handleGenerate s env) = []
  /\ displayHotspots (after handleGenerate s env) = [].
Proof.
  unfold succeeded, after, trace, invoke, handleGenerate.
  destruct (currentImage s) as [image |];
    [| simpl; intros [H _]; congruence].
  destruct (negb (truthy (trim (prompt s))));
    [simpl; intros [H _]; congruence |].
  destruct (length (editHotspots s) =? 0);
    [simpl; intros [H _]; congruence |].
  run_handler; intros [_ H]; try discriminate H; auto.
Qed.

Lemma undo_clears_hotspots (s : AppState number) (env : Env Answer) :
  canUndo s = true ->
  editHotspots (after handleUndo s env) = []
  /\ displayHotspots (after handleUndo s env) = []
  /\ historyIndex (after handleUndo s env) = (historyIndex s - 1)%Z.
Proof.
  intros H. unfold after, invoke, handleUndo. rewrite H. repeat split.
Qed.

Lemma redo_clears_hotspots (s : AppState number) (env : Env Answer) :
  canRedo s = true ->
  editHotspots (after handleRedo s env) = []
  /\ displayHotspots (after handleRedo s env) = []
  /\ historyIndex (after handleRedo s env) = (historyIndex s + 1)%Z.
Proof.
  intros H. unfold after, invoke, handleRedo. rewrite H. repeat split.
Qed.

(** The edits that take no hotspots leave the hotspots alone. *)
Lemma other_edits_keep_hotspots (s : AppState number) (a : Action number)
  (env : Env Answer) :
  nonBatchEdit a = true -> a <> Generate ->
  editHotspots (after (handler a) s env) = editHotspots s
  /\ displayHotspots (after (handler a) s env) = displayHotspots s.
Proof.
  destruct a; try discriminate; intros _ Hne; try congruence;
    unfold after, invoke; cbn [handler].
  - unfold handleGenerateComposite.
    destruct (length (compositeFiles s) <? 2); [simpl; auto |].
    run_handler; auto.
  - unfold handleApplyCreativeStyle.
    destruct (currentImage s) as [image |]; [| simpl; auto].
    run_handler; auto.
  - unfold handleApplyAdjustment.
    destruct (currentImage s) as [image |]; [| simpl; auto].
    run_handler; auto.
  - unfold handleReplaceObject.
    destruct (currentImage s) as [image |]; [| simpl; auto].
    destruct (_ || _)%bool; [simpl; auto |].
    run_handler; auto.
  - unfold handleApplyFrame.
    destruct (currentImage s) as [image |]; [| simpl; auto].
    destruct (negb (truthy (trim (style details)))); [simpl; auto |].
    run_handler; auto.
Qed.

End Hotspots.

(** C7, as the code has it. The hotspot list is empty after every
    successful localized edit and after every undo or redo that moves the
    cursor; a filter, an adjustment, a replacement, a frame or a composite
    leaves the hotspot list as it was. *)
Theorem hotspots_cleared_by_retouch_and_navigation {number : Type}
  {numbers : JSNumber number} (s : AppState number) (env : Env Answer) :
  (succeeded handleGenerate s env ->
   editHotspots (after handleGenerate s env) = [])
  /\ (canUndo s = true -> editHotspots (after handleUndo s env) = [])
  /\ (canRedo s = true -> editHotspots (after handleRedo s env) = [])
  /\ (forall a : Action number,
      nonBatchEdit a = true -> a <> Generate ->
      editHotspots (after (handler a) s env) = editHotspots s).
Proof.
  repeat split.
  - intros H. apply (generate_clears_hotspots H).
  - intros H. apply (undo_clears_hotspots s env H).
  - intros H. apply (redo_clears_hotspots s env H).
  - intros a Ha Hne. apply (other_edits_keep_hotspots s env Ha Hne).
Qed.

Lemma hotspots_cleared_by_retouch_and_navigation_witness :
  editHotspots (after handleGenerate editing_state
                  (answering tiny_png_url 1700000000000))
  = [].
Proof.
  apply (proj1 (@hotspots_cleared_by_retouch_and_navigation Z whole_numbers
                  editing_state (answering tiny_png_url 1700000000000))).
  split; [vm_compute; discriminate | vm_compute; reflexivity].
Defined.

(** C7, as stated, fails: a filter is applied with success, a second
    entry is in the history, and the hotspot picked before it is still
    there. *)
Lemma filter_leaves_hotspots :
  ~ (succeeded (handleApplyCreativeStyle (lit "film noir")) editing_state
       (answering tiny_png_url 1700000000000) ->
     editHotspots (after (handleApplyCreativeStyle (lit "film noir"))
                     editing_state (answering tiny_png_url 1700000000000))
     = []).
Proof.
  intros Hcleared.
  assert (Hkept :
    editHotspots (after (handleApplyCreativeStyle (lit "film noir"))
                    editing_state (answering tiny_png_url 1700000000000))
    = [{| hotspot_x := 40%Z; hotspot_y := 80%Z |}])
    by (vm_compute; reflexivity).
  rewrite Hcleared in Hkept; [discriminate Hkept |].
  split; [vm_compute; discriminate | vm_compute; reflexivity].
Qed.

Example filter_appends_to_history :
  history (after (handleApplyCreativeStyle (lit "film noir")) editing_state
             (answering tiny_png_url 1700000000000))
  = [sample_file 1;
     {| file_name := lit "styled-1700000000000.png";
        file_type := lit "image/png"; file_bytes := [65%N] |}].
Proof. vm_compute. reflexivity. Qed.

(** ** The pin of the frame panel *)

(** C9. Once the effect has run, the panel shows the style as pinned, and
    the pin button unpins, exactly when the three fields of the form are
    equal, as strings, to those of the pinned style; on any difference the
    button pins the fields of the form, if the style is not blank. *)
Theorem pin_toggles_on_exact_match (pinned fields : FrameStyle)
  (loading stale : bool) :
  let props := {| FramePanel.pinnedFrameStyle := Some pinned;
                  FramePanel.isLoading := loading |} in
  let st := FramePanel.effect props
              {| FramePanel.form := fields; FramePanel.isPinned := stale |} in
  (FramePanel.isPinned st = true <-> fields = pinned)
  /\ (fields = pinned ->
      FramePanel.handlePin st = [FramePanel.onPinFrame None])
  /\ (fields <> pinned ->
      FramePanel.handlePin st
      = if truthy (trim (style fields))
        then [FramePanel.onPinFrame (Some fields)] else []).
Proof.
  cbv zeta. unfold FramePanel.effect, FramePanel.handlePin. cbn.
  assert (Hmatch : FramePanel.isCurrentStylePinned pinned fields = true
                   <-> fields = pinned).
  { unfold FramePanel.isCurrentStylePinned.
    rewrite !andb_true_iff, !jsstring_eqb_eq.
    destruct pinned, fields; cbn. split.
    - intros [[-> ->] ->]. reflexivity.
    - intros [= -> -> ->]. auto. }
  split; [exact Hmatch |]. split.
  - intros H. apply Hmatch in H. now rewrite H.
  - intros H. destruct (FramePanel.isCurrentStylePinned pinned fields) eqn:E.
    + exfalso. apply H, Hmatch. reflexivity.
    + destruct (truthy (trim (style fields))); reflexivity.
Qed.

Lemma pin_toggles_on_exact_match_witness :
  FramePanel.handlePin
    (FramePanel.effect
       {| FramePanel.pinnedFrameStyle := Some gold_frame;
          FramePanel.isLoading := false |}
       {| FramePanel.form := gold_frame_spaced;
          FramePanel.isPinned := true |})
  = [FramePanel.onPinFrame (Some gold_frame_spaced)].
Proof.
  apply (proj2 (proj2 (pin_toggles_on_exact_match gold_frame
                         gold_frame_spaced false true))).
  vm_compute. discriminate.
Defined.

(** ** Runs of composed programs *)

Section Runs.
Context {E : Type} {Ans : E -> Type}.

(** A run of [io_bind m f] is a run of [m] followed by a run of [f] on
    what is left of the environment. *)
Lemma run_bind {A B} (m : IO Ans A) (f : A -> IO Ans B) (env : Env Ans) :
  run (io_bind m f) env
  = (fst (run m env)
     ++ fst (run (f (snd (run m env))) (later (length (fst (run m env))) env)),
     snd (run (f (snd (run m env))) (later (length (fst (run m env))) env))).
Proof.
  revert env. induction m as [a | ev k IH]; intros env.
  - cbn [io_bind run fst snd length app].
    change (later 0 env) with env. now destruct (run (f a) env).
  - cbn [io_bind run]. rewrite IH.
    destruct (run (k (env 0 ev)) (later 1 env)) as [tr a] eqn:Hrun.
    cbn [fst snd length app].
    change (later (length tr) (later 1 env)) with (later (S (length tr)) env).
    reflexivity.
Qed.

End Runs.

(** ** The two hotspot lists *)

Section HotspotLists.
Context {number : Type} {numbers : JSNumber number}.

(** The loop of the batch sets nothing. *)
Lemma frameEach_state (pinned : FrameStyle) (files results : list File)
  (s : AppState number) (env : Env Answer) :
  fst (snd (run (frameEach pinned files results s) env)) = s.
Proof.
  revert results env. induction files as [| file rest IH]; intros results env.
  - reflexivity.
  - simpl. destruct (env 0 _) as [e | url]; simpl; [reflexivity |].
    destruct (dataURLtoFile _ _) as [e | newImageFile]; simpl;
      [reflexivity |].
    specialize (IH (results ++ [newImageFile]) (later 1 env)).
    destruct (run _ _) as [tr [s' r]]. exact IH.
Qed.

Lemma batch_keeps_hotspots (s : AppState number) (env : Env Answer) :
  editHotspots (after handleApplyFrameToBatch s env) = editHotspots s
  /\ displayHotspots (after handleApplyFrameToBatch s env)
     = displayHotspots s.
Proof.
  unfold after, invoke, handleApplyFrameToBatch.
  destruct (pinnedFrameStyle s) as [pinned |]; [| simpl; auto].
  destruct (length (batchFiles s) =? 0); [simpl; auto |].
  pose proof (frameEach_state pinned (batchFiles s) []
                (setError None (setIsLoading true s)) env) as Hstate.
  split.
  all: unfold bind at 1 2; simpl io_bind; unfold bind at 1;
    rewrite run_bind; cbn [snd fst];
    destruct (run (frameEach _ _ _ _) env) as [tr [s' r]];
    cbn [fst snd] in *; subst s';
    destruct r as [e | [results [err |]]]; simpl; auto;
    destruct (0 <? length results); simpl; auto.
Qed.

Lemma download_zip_keeps_hotspots (files : list (option File))
  (archiveName : jsstring) (s : AppState number) (env : Env Answer) :
  editHotspots (after (handleDownloadZip files archiveName) s env)
  = editHotspots s
  /\ displayHotspots (after (handleDownloadZip files archiveName) s env)
     = displayHotspots s.
Proof.
  unfold after, invoke, handleDownloadZip.
  destruct (length files =? 0); [simpl; auto |].
  simpl. destruct (env 0 ImportJSZip); simpl; auto.
  destruct (zipEach files 0 []); simpl; auto.
  destruct (later 1 env 0 _); simpl; auto.
Qed.

(** Every action keeps the two lists of the same length. *)
Lemma action_keeps_hotspots_agreeing (s : AppState number)
  (a : Action number) (env : Env Answer) :
  hotspotsAgree s -> hotspotsAgree (after (handler a) s env).
Proof.
  unfold hotspotsAgree. intros Hagree.
  assert (Hkept : forall s' : AppState number,
             editHotspots s' = editHotspots s
             /\ displayHotspots s' = displayHotspots s ->
             length (editHotspots s') = length (displayHotspots s')).
  { intros s' [-> ->]. exact Hagree. }
  destruct a;
    try (apply Hkept; apply other_edits_keep_hotspots;
         [reflexivity | discriminate]);
    unfold after, invoke; cbn [handler]; try reflexivity.
  - (* CompositeFilesSelect *)
    unfold handleCompositeFilesSelect.
    destruct files as [l |]; [destruct (1 <? length l) |]; exact Hagree.
  - (* BatchFilesSelect *)
    unfold handleBatchFilesSelect.
    destruct files as [l |]; [destruct (0 <? length l) |]; exact Hagree.
  - (* Generate *)
    unfold handleGenerate.
    destruct (currentImage s) as [image |]; [| exact Hagree].
    destruct (negb (truthy (trim (prompt s)))); [exact Hagree |].
    destruct (length (editHotspots s) =? 0); [exact Hagree |].
    run_handler; auto.
  - (* ApplyFrameToBatch *)
    apply Hkept, batch_keeps_hotspots.
  - (* ApplyCrop *)
    unfold handleApplyCrop.
    destruct (completedCrop s) as [completed |]; [| exact Hagree].
    run_handler; auto.
  - (* Undo *)
    unfold handleUndo. destruct (canUndo s); [reflexivity | exact Hagree].
  - (* Redo *)
    unfold handleRedo. destruct (canRedo s); [reflexivity | exact Hagree].
  - (* Reset *)
    unfold handleReset.
    destruct (0 <? length (history s)); [reflexivity | exact Hagree].
  - (* DownloadCurrentImage *)
    unfold handleDownloadCurrentImage.
    destruct (currentImage s); exact Hagree.
  - (* ToggleSelection *)
    exact Hagree.
  - (* DownloadSelected *)
    apply Hkept, download_zip_keeps_hotspots.
  - (* DownloadHistory *)
    apply Hkept, download_zip_keeps_hotspots.
  - (* ImageClicked *)
    unfold handleImageClick.
    destruct (negb (Tool_eqb (activeTool s) tool_retouch)); [exact Hagree |].
    simpl. rewrite !length_app. cbn. lia.
  - (* UndoHotspot *)
    simpl. rewrite !slice_drop_last_length. lia.
  - exact Hagree.
  - exact Hagree.
  - exact Hagree.
  - exact Hagree.
  - exact Hagree.
  - exact Hagree.
  - exact Hagree.
  - exact Hagree.
  - exact Hagree.
Qed.

End HotspotLists.

(** C10. In every state a session can reach, the list of hotspots at
    natural resolution and the list of hotspots on screen have the same
    length. *)
Theorem hotspot_lists_have_equal_length {number : Type}
  {numbers : JSNumber number} (s : AppState number) :
  reachable s -> length (editHotspots s) = length (displayHotspots s).
Proof.
  induction 1 as [| s a env Hreach IH].
  - reflexivity.
  - now apply action_keeps_hotspots_agreeing.
Qed.

Lemma hotspot_lists_have_equal_length_witness :
  length (editHotspots (after (handler (ImageClicked sample_click))
                          (@initial Z) refusing))
  = length (displayHotspots (after (handler (ImageClicked sample_click))
                               (@initial Z) refusing)).
Proof.
  apply (@hotspot_lists_have_equal_length Z whole_numbers).
  apply reachable_step. apply reachable_initial.
Defined.

(** ** Archive entries *)

Section ArchiveNames.
Import Archive.

Lemma isArchiveSafe_inClass (c : code_unit) :
  isArchiveSafe c = true <-> inClass c.
Proof.
  unfold isArchiveSafe, inClass.
  rewrite !orb_true_iff, !andb_true_iff, !N.leb_le, !N.eqb_eq. tauto.
Qed.

(** Sanitizing keeps the units of the class and puts [_] for the others. *)
Lemma sanitize_spec (name : jsstring) :
  length (sanitize name) = length name
  /\ forall i c, nth_error name i = Some c ->
       (inClass c -> nth_error (sanitize name) i = Some c)
       /\ (~ inClass c -> nth_error (sanitize name) i = Some underscore).
Proof.
  unfold sanitize. split; [apply length_map |].
  intros i c Hc. rewrite nth_error_map, Hc. cbn.
  destruct (isArchiveSafe c) eqn:Hsafe.
  - apply isArchiveSafe_inClass in Hsafe. tauto.
  - split; [| reflexivity].
    intros Hin. apply isArchiveSafe_inClass in Hin. congruence.
Qed.

(** ** Decimal numerals *)

Lemma lit_String (c : ascii) (s : string) :
  lit (String c s) = N_of_ascii c :: lit s.
Proof. reflexivity. Qed.

Lemma lit_string_of_uint_value (d : Decimal.uint) (acc : N) :
  fold_left (fun a c => (10 * a + (c - 48))%N)
    (lit (NilEmpty.string_of_uint d)) acc
  = uint_value d acc.
Proof.
  revert acc. induction d; intros acc; [reflexivity | ..];
    cbn [NilEmpty.string_of_uint uint_value]; rewrite lit_String;
    cbn [fold_left]; rewrite IHd; f_equal;
    match goal with
    | |- context [N_of_ascii ?c] =>
        let v := eval vm_compute in (N_of_ascii c) in
        change (N_of_ascii c) with v
    end; lia.
Qed.

Lemma lit_string_of_uint_digits (d : Decimal.uint) :
  forallb isDigit (lit (NilEmpty.string_of_uint d)) = true.
Proof.
  induction d; [reflexivity | ..];
    cbn [NilEmpty.string_of_uint]; rewrite lit_String;
    cbn [forallb]; rewrite IHd; reflexivity.
Qed.

Lemma of_uint_acc_value (d : Decimal.uint) (acc : positive) :
  Npos (Pos.of_uint_acc d acc) = uint_value d (Npos acc).
Proof.
  revert acc. induction d; intros acc; cbn [Pos.of_uint_acc uint_value];
    [reflexivity | ..]; rewrite IHd; f_equal; lia.
Qed.

Lemma of_uint_value (d : Decimal.uint) : Pos.of_uint d = uint_value d 0.
Proof.
  induction d; cbn [Pos.of_uint uint_value]; try exact IHd;
    try reflexivity; rewrite of_uint_acc_value; f_equal.
Qed.

(** [String(index)] is the decimal numeral of [index]. *)
Lemma Number_toString_nat (i : nat) :
  Number_toString (Z.of_nat i)
  = lit (NilEmpty.string_of_uint (N.to_uint (N.of_nat i)))
  /\ Number_toString (Z.of_nat i) <> [].
Proof.
  unfold Number_toString. destruct i as [| i].
  - split; [reflexivity | vm_compute; discriminate].
  - cbn [Z.of_nat N.of_nat Z.to_int N.to_uint].
    unfold NilZero.string_of_int, NilZero.string_of_uint.
    pose proof (DecimalPos.Unsigned.to_uint_nonnil (Pos.of_succ_nat i)) as Hn.
    destruct (Pos.to_uint (Pos.of_succ_nat i)) eqn:Hd; try congruence;
      (split; [reflexivity | vm_compute; discriminate]).
Qed.

Lemma valueOf_Number_toString (i : nat) :
  valueOf (Number_toString (Z.of_nat i)) = N.of_nat i.
Proof.
  rewrite (proj1 (Number_toString_nat i)). unfold valueOf.
  rewrite lit_string_of_uint_value, <- of_uint_value.
  apply DecimalN.Unsigned.of_to.
Qed.

Lemma digits_Number_toString (i : nat) :
  forallb isDigit (Number_toString (Z.of_nat i)) = true.
Proof.
  rewrite (proj1 (Number_toString_nat i)). apply lit_string_of_uint_digits.
Qed.

(** ** The index in front of an entry name *)

Lemma cycle_take_zeros (k : nat) :
  cycle_take k [48%N] [48%N] = repeat 48%N k
  /\ cycle_take k [48%N] [] = repeat 48%N k.
Proof.
  induction k as [| k [IH1 IH2]]; [split; reflexivity |].
  split; cbn [cycle_take repeat]; f_equal; exact IH2.
Qed.

Lemma indexPrefix_zeros (i : nat) :
  indexPrefix i
  = repeat 48%N (3 - length (Number_toString (Z.of_nat i)))
    ++ Number_toString (Z.of_nat i).
Proof.
  unfold indexPrefix, padStart. change (lit "0") with [48%N].
  now rewrite (proj1 (cycle_take_zeros _)).
Qed.

Lemma valueOf_zeros (k : nat) (s : jsstring) :
  valueOf (repeat 48%N k ++ s) = valueOf s.
Proof.
  unfold valueOf. rewrite fold_left_app. f_equal.
  induction k as [| k IH]; cbn; [reflexivity | exact IH].
Qed.

(** The prefix denotes the index, so it tells indices apart. *)
Lemma valueOf_indexPrefix (i : nat) : valueOf (indexPrefix i) = N.of_nat i.
Proof.
  rewrite indexPrefix_zeros, valueOf_zeros. apply valueOf_Number_toString.
Qed.

Lemma digits_indexPrefix (i : nat) : forallb isDigit (indexPrefix i) = true.
Proof.
  rewrite indexPrefix_zeros, forallb_app, digits_Number_toString, andb_true_r.
  induction (3 - _) as [| k IH]; cbn; auto.
Qed.

(** Below 1000 the prefix is the three digits of the index. *)
Lemma indexPrefix_threeDigits (i : nat) :
  i < 1000 -> indexPrefix i = threeDigits i.
Proof.
  intros Hi.
  assert (Hall : forallb (fun j => jsstring_eqb (indexPrefix j) (threeDigits j))
                   (seq 0 1000) = true) by (vm_compute; reflexivity).
  rewrite forallb_forall in Hall.
  apply jsstring_eqb_eq, Hall, in_seq. lia.
Qed.

(** A run of digits before [_] is determined by the whole string. *)
Lemma digits_before_underscore (a b x y : jsstring) :
  forallb isDigit a = true -> forallb isDigit b = true ->
  a ++ underscore :: x = b ++ underscore :: y -> a = b.
Proof.
  revert b. induction a as [| c a IH]; intros [| d b]; cbn; intros Ha Hb Heq.
  - reflexivity.
  - injection Heq as <- _. cbn in Hb. discriminate.
  - injection Heq as -> _. cbn in Ha. discriminate.
  - injection Heq as -> Heq.
    apply andb_true_iff in Ha as [_ Ha]. apply andb_true_iff in Hb as [_ Hb].
    f_equal. eauto.
Qed.

Lemma entryName_index (f g : File) (i j : nat) :
  entryName f i = entryName g j -> i = j.
Proof.
  unfold entryName. fold (indexPrefix i) (indexPrefix j).
  change (lit "_") with [underscore]. cbn [app]. intros Heq.
  apply digits_before_underscore in Heq; auto using digits_indexPrefix.
  apply Nat2N.inj. now rewrite <- !valueOf_indexPrefix, Heq.
Qed.

(** ** The archive under construction *)

Lemma zip_file_fresh (name : jsstring) (data : File) (zip : JSZip) :
  Forall (fun entry => fst entry <> name) zip ->
  zip_file name data zip = zip ++ [(name, data)].
Proof.
  induction 1 as [| [n d] zip Hn _ IH]; cbn; [reflexivity |].
  destruct (jsstring_eqb n name) eqn:Heq.
  - apply jsstring_eqb_eq in Heq. contradiction.
  - now rewrite IH.
Qed.

(** No entry replaces another: the archive gets the entries of the files
    in their order. *)
Lemma zipEach_entries (files : list File) (index : nat) (zip : JSZip) :
  Forall (fun entry => exists g j, j < index /\ fst entry = entryName g j) zip ->
  zipEach (map Some files) index zip = inr (zip ++ entriesFrom files index).
Proof.
  revert index zip. induction files as [| file rest IH]; intros index zip Hzip.
  - cbn. now rewrite app_nil_r.
  - cbn [map zipEach entriesFrom]. rewrite zip_file_fresh.
    + rewrite IH; [now rewrite <- app_assoc |].
      apply Forall_app. split.
      * eapply Forall_impl; [| exact Hzip].
        intros entry (g & j & Hj & Hname). exists g, j. split; [lia | auto].
      * constructor; [| constructor]. exists file, index. split; [lia | auto].
    + eapply Forall_impl; [| exact Hzip].
      intros entry (g & j & Hj & Hname) Heq. rewrite Hname in Heq.
      apply entryName_index in Heq. lia.
Qed.

Lemma entriesFrom_nth (files : list File) (index i : nat) (file : File) :
  nth_error files i = Some file ->
  nth_error (entriesFrom files index) i
  = Some (entryName file (index + i), file).
Proof.
  revert index i. induction files as [| f rest IH]; intros index [| i];
    cbn; try discriminate.
  - intros [= ->]. now rewrite Nat.add_0_r.
  - intros H. rewrite (IH (S index) i H). now rewrite Nat.add_succ_r.
Qed.

Lemma entriesFrom_length (files : list File) (index : nat) :
  length (entriesFrom files index) = length files.
Proof.
  revert index. induction files as [| f rest IH]; intros index; cbn; auto.
Qed.

End ArchiveNames.

(** C8. For a non-empty list of files, the archive handed to the
    compressor has one entry per file, in order, and the entry of the file
    at position [i] is named by [i] in decimal, padded with zeros to three
    digits, then [_], then the name of the file with every unit outside
    [[A-Za-z0-9_.-]] replaced by [_]. For an empty list the handler
    reports an error and asks nothing of the archive library. *)
Theorem archive_entries_numbered_and_sanitized {number : Type}
  {numbers : JSNumber number} (s : AppState number) (files : list File)
  (archiveName : jsstring) (env : Env Answer) :
  (files <> [] -> env 0 ImportJSZip = inr tt ->
   exists zip,
     trace (handleDownloadZip (map Some files) archiveName) s env
     = ImportJSZip :: ZipGenerateAsync zip
       :: match env 1 (ZipGenerateAsync zip) with
          | inl _ => []
          | inr content =>
              [Download (BlobContent content) (archiveName ++ lit ".zip")]
          end
     /\ length zip = length files
     /\ forall i file, nth_error files i = Some file ->
          nth_error zip i
          = Some (padStart (Number_toString (Z.of_nat i)) 3 (lit "0")
                  ++ lit "_" ++ sanitize (file_name file), file)
          /\ (i < 1000 ->
              padStart (Number_toString (Z.of_nat i)) 3 (lit "0")
              = Archive.threeDigits i)
          /\ length (sanitize (file_name file)) = length (file_name file)
          /\ forall k c, nth_error (file_name file) k = Some c ->
               (Archive.inClass c ->
                nth_error (sanitize (file_name file)) k = Some c)
               /\ (~ Archive.inClass c ->
                   nth_error (sanitize (file_name file)) k = Some underscore))
  /\ trace (handleDownloadZip [] archiveName) s env = []
  /\ error (after (handleDownloadZip [] archiveName) s env)
     = Some (lit "No images selected to download.").
Proof.
  split; [| split; reflexivity].
  intros Hfiles Himport. exists (Archive.entriesFrom files 0).
  split; [| split].
  - unfold trace, invoke, handleDownloadZip.
    replace (length (map Some files) =? 0) with false
      by (destruct files; [congruence | reflexivity]).
    simpl. rewrite Himport. simpl.
    rewrite (zipEach_entries files (index := 0) (zip := [])) by constructor.
    simpl. unfold later. simpl.
    destruct (env 1 (ZipGenerateAsync (Archive.entriesFrom files 0)));
      reflexivity.
  - apply entriesFrom_length.
  - intros i file Hfile. split; [| split; [| apply sanitize_spec]].
    + now rewrite (entriesFrom_nth files 0 i Hfile).
    + apply indexPrefix_threeDigits.
Qed.

Lemma archive_entries_numbered_and_sanitized_witness :
  exists zip : JSZip,
    nth_error zip 0
    = Some (lit "000_my_photo__1_.png",
            {| file_name := lit "my photo (1).png";
               file_type := lit "image/png"; file_bytes := [1%N] |})
    /\ nth_error zip 1
       = Some (lit "001_edited-1700000000000.png",
               {| file_name := lit "edited-1700000000000.png";
                  file_type := lit "image/png"; file_bytes := [2%N] |}).
Proof.
  destruct (proj1 (@archive_entries_numbered_and_sanitized Z whole_numbers
                     initial Archive.holiday_files
                     (lit "dreamcraft_selection")
                     (answering tiny_png_url 0))
              ltac:(discriminate) eq_refl)
    as (zip & _ & _ & Hnth).
  exists zip. split.
  - destruct (Hnth 0 _ eq_refl) as [H _]. rewrite H.
    vm_compute. reflexivity.
  - destruct (Hnth 1 _ eq_refl) as [H _]. rewrite H.
    vm_compute. reflexivity.
Defined.

(** ** The handlers on top of the gateway *)

Section Linking.
Context {number : Type} {numbers : JSNumber number}.

(** Whatever the linked program ends with under an environment of the
    browser and the remote service, the handler alone ends with under some
    environment of its own: what is proved of the handlers under every
    environment holds of the linked program. *)
Lemma link_refines {A} (m : IO (@App.Answer number) A)
  (env : Env Program.Answer) :
  exists env' : Env (@App.Answer number),
    snd (run (Program.link m) env) = snd (run m env').
Proof.
  revert env. induction m as [a | ev k IH]; intros env.
  - exists refusing. reflexivity.
  - assert (Hgateway : forall (task : Gateway.Task jsstring)
                         (k' : Exn + jsstring -> IO (@App.Answer number) A),
      (forall r env0, exists env', snd (run (Program.link (k' r)) env0)
                                   = snd (run (k' r) env')) ->
      exists (r : Exn + jsstring) (rest : Env (@App.Answer number)),
        snd (run (io_bind (Program.inGateway task)
                    (fun r => Program.link (k' r))) env)
        = snd (run (k' r) rest)).
    { intros task k' IH'. rewrite run_bind. cbn [snd].
      destruct (IH' (snd (run (Program.inGateway task) env))
                  (later (length (fst (run (Program.inGateway task) env)))
                     env)) as [rest Hrest].
      eauto. }
    assert (Hbrowser : forall x : App.Answer ev,
      exists rest, snd (run (Program.link (k x)) (later 1 env))
                   = snd (run (k x) rest)) by (intros x; apply IH).
    destruct ev; cbn [Program.link];
      try match goal with
          | |- context [io_bind (Program.inGateway ?task) _] =>
              destruct (Hgateway task k IH) as (r & rest & Hrun);
              exists (Program.starting
                        (Program.answeredBy r
                           (fun ev => env 0 (Program.OfApp ev)))
                        rest);
              rewrite Hrun; cbn [run];
              change (later 1 (Program.starting
                                 (Program.answeredBy r
                                    (fun ev => env 0 (Program.OfApp ev)))
                                 rest)) with rest;
              cbn [Program.starting Program.answeredBy];
              now destruct (run _ rest)
          end.
    all: match goal with
         | |- context [Vis (Program.OfApp ?e) _] =>
             destruct (Hbrowser (env 0 (Program.OfApp e))) as [rest Hrun];
             exists (Program.starting (fun ev => env 0 (Program.OfApp ev)) rest);
             cbn [run];
             change (later 1 (Program.starting
                                (fun ev => env 0 (Program.OfApp ev)) rest))
               with rest;
             cbn [Program.starting];
             destruct (run _ (later 1 env)); destruct (run _ rest);
             cbn [snd] in *; exact Hrun
         end.
Qed.

(** The states of the linked program are states of the session. *)
Lemma linked_states_reachable (s : AppState number) :
  Program.reachable s -> reachable s.
Proof.
  induction 1 as [| s a env Hreach IH]; [constructor |].
  unfold Program.execute.
  destruct (link_refines (handler a s s) env) as [env' Henv].
  rewrite Henv. now apply (reachable_step a env').
Qed.

(** The two hotspot lists agree in the linked program as well. *)
Corollary linked_hotspot_lists_agree (s : AppState number) :
  Program.reachable s -> hotspotsAgree s.
Proof.
  intros Hreach. apply linked_states_reachable in Hreach.
  induction Hreach as [| s a env Hreach IH]; [reflexivity |].
  now apply action_keeps_hotspots_agreeing.
Qed.

End Linking.

(* ===================================================================== *)
(** * Further properties of the code                                       *)
(* ===================================================================== *)

Import Visit.

(** ** The history *)

Section History.
Context {number : Type} {numbers : JSNumber number}.

Lemma array_get_bounds {A} (l : list A) (i : Z) (x : A) :
  array_get l i = Some x -> (0 <= i < Z.of_nat (length l))%Z.
Proof.
  unfold array_get. destruct (Z.ltb_spec i 0) as [Hneg | Hpos];
    [discriminate |].
  intros Hget.
  assert (Z.to_nat i < length l) by (apply nth_error_Some; congruence).
  lia.
Qed.

Lemma array_get_nth {A} (l : list A) (i : nat) :
  array_get l (Z.of_nat i) = nth_error l i.
Proof.
  unfold array_get. destruct (Z.ltb_spec (Z.of_nat i) 0); [lia |].
  now rewrite Nat2Z.id.
Qed.

Lemma array_get_last {A} (l : list A) (x : A) :
  array_get (l ++ [x]) (Z.of_nat (length (l ++ [x])) - 1) = Some x.
Proof.
  rewrite length_app. cbn [length].
  replace (Z.of_nat (length l + 1) - 1)%Z with (Z.of_nat (length l)) by lia.
  rewrite array_get_nth, nth_error_app2, Nat.sub_diag by lia. reflexivity.
Qed.

(** The entries up to the cursor are where they were after an append. *)
Lemma array_get_appended {A} (l : list A) (k : Z) (x : A) (i : Z) :
  (0 <= i < k)%Z -> (k <= Z.of_nat (length l))%Z ->
  array_get (slice l 0 k ++ [x]) i = array_get l i.
Proof.
  intros Hi Hk. rewrite slice_prefix by lia.
  replace i with (Z.of_nat (Z.to_nat i)) by lia. rewrite !array_get_nth.
  rewrite nth_error_app1 by (rewrite length_firstn; lia).
  rewrite nth_error_firstn.
  replace (Z.to_nat i <? Z.to_nat k) with true
    by (symmetry; apply Nat.ltb_lt; lia).
  reflexivity.
Qed.

Lemma appended_length {A} (l : list A) (k : Z) (x : A) :
  (0 <= k <= Z.of_nat (length l))%Z ->
  (Z.of_nat (length (slice l 0 k ++ [x])) - 1 = k)%Z.
Proof.
  intros Hk. rewrite slice_prefix, length_app, length_firstn by lia.
  cbn [length]. lia.
Qed.

Lemma append_state (s : AppState number) (f : File) (env : Env Answer) :
  (0 <= historyIndex s + 1 <= Z.of_nat (length (history s)))%Z ->
  history (after (append f) s env)
  = firstn (Z.to_nat (historyIndex s + 1)) (history s) ++ [f]
  /\ historyIndex (after (append f) s env) = (historyIndex s + 1)%Z.
Proof.
  intros Hcursor. rewrite append_historyIndex, append_history.
  rewrite appended_length by lia. now rewrite slice_prefix by lia.
Qed.

Lemma undo_state (s : AppState number) (env : Env Answer) :
  canUndo s = true ->
  history (after handleUndo s env) = history s
  /\ historyIndex (after handleUndo s env) = (historyIndex s - 1)%Z.
Proof.
  intros H. unfold after, invoke, handleUndo. rewrite H. split; reflexivity.
Qed.

Lemma redo_state (s : AppState number) (env : Env Answer) :
  canRedo s = true ->
  history (after handleRedo s env) = history s
  /\ historyIndex (after handleRedo s env) = (historyIndex s + 1)%Z.
Proof.
  intros H. unfold after, invoke, handleRedo. rewrite H. split; reflexivity.
Qed.

End History.

(** X1. With the cursor on an entry of the history, an append shows the
    new asset, the undo after it shows the asset that was current before
    the append, and the redo after that shows the new asset again, in the
    history that the append left. *)
Theorem undo_then_redo_after_append {number : Type}
  {numbers : JSNumber number} (s : AppState number) (x : File)
  (env : Env Answer) :
  (0 <= historyIndex s < Z.of_nat (length (history s)))%Z ->
  let appended := after (append x) s env in
  let undone := after handleUndo appended env in
  let redone := after handleRedo undone env in
  currentImage appended = Some x
  /\ currentImage undone = currentImage s
  /\ currentImage redone = Some x
  /\ history redone = history appended.
Proof.
  intros Hcursor. cbv zeta.
  destruct (append_state s x env) as [Hh Hi]; [lia |].
  assert (Hlen : (Z.of_nat (length (history (after (append x) s env))) - 1
                  = historyIndex s + 1)%Z).
  { rewrite Hh, length_app, length_firstn. cbn [length]. lia. }
  assert (Hundo : canUndo (after (append x) s env) = true).
  { unfold canUndo. rewrite Hi. apply Z.ltb_lt. lia. }
  destruct (undo_state _ env Hundo) as [Hh2 Hi2].
  assert (Hredo : canRedo (after handleUndo (after (append x) s env) env)
                  = true).
  { unfold canRedo. rewrite Hh2, Hi2, Hi. apply Z.ltb_lt. lia. }
  destruct (redo_state _ env Hredo) as [Hh3 Hi3].
  assert (Hshown : currentImage (after (append x) s env) = Some x).
  { unfold currentImage. rewrite Hi, <- Hlen, Hh. apply array_get_last. }
  repeat split.
  - exact Hshown.
  - unfold currentImage. rewrite Hh2, Hi2, Hi, Hh.
    replace (historyIndex s + 1 - 1)%Z with (historyIndex s) by lia.
    replace (historyIndex s) with (Z.of_nat (Z.to_nat (historyIndex s)))
      at 2 3 by lia.
    rewrite !array_get_nth, nth_error_app1 by (rewrite length_firstn; lia).
    rewrite nth_error_firstn.
    replace (Z.to_nat (historyIndex s) <? Z.to_nat (historyIndex s + 1))
      with true by (symmetry; apply Nat.ltb_lt; lia).
    reflexivity.
  - unfold currentImage. rewrite Hh3, Hi3, Hh2, Hi2, Hi.
    replace (historyIndex s + 1 - 1 + 1)%Z with (historyIndex s + 1)%Z by lia.
    unfold currentImage in Hshown. now rewrite Hi in Hshown.
  - now rewrite Hh3, Hh2.
Qed.

Lemma undo_then_redo_after_append_witness :
  currentImage (after handleUndo
                  (after (append (sample_file 3)) editing_state refusing)
                  refusing)
  = currentImage editing_state.
Proof.
  apply (proj1 (proj2 (@undo_then_redo_after_append Z whole_numbers
                         editing_state (sample_file 3) refusing
                         ltac:(vm_compute; split; [discriminate | reflexivity])))).
Defined.

(** ** Edits of the current image *)

Section AppendingEdits.
Context {number : Type} {numbers : JSNumber number}.

Lemma appending_edit_cases (a : Action number) (s : AppState number)
  (env : Env Answer) :
  appendingEdit a = true -> leavesAppended (handler a) s env.
Proof.
  destruct a; try discriminate; intros _; cbn [handler].
  - unfold leavesAppended, succeeded, after, trace, invoke, handleGenerate.
    destruct (currentImage s) as [image |] eqn:Himage;
      [| left; simpl; split; [intros [H _]; congruence | auto]].
    destruct (negb (truthy (trim (prompt s))));
      [left; simpl; split; [intros [H _]; congruence | auto] |].
    destruct (length (editHotspots s) =? 0);
      [left; simpl; split; [intros [H _]; congruence | auto] |].
    run_handler;
      first
        [ left; split; [intros [_ H]; discriminate H | split; reflexivity]
        | right; repeat split; [discriminate | discriminate | eauto] ].
  - unfold leavesAppended, succeeded, after, trace, invoke,
      handleApplyCreativeStyle.
    destruct (currentImage s) as [image |] eqn:Himage;
      [| left; simpl; split; [intros [H _]; congruence | auto]].
    run_handler;
      first
        [ left; split; [intros [_ H]; discriminate H | split; reflexivity]
        | right; repeat split; [discriminate | discriminate | eauto] ].
  - unfold leavesAppended, succeeded, after, trace, invoke,
      handleApplyAdjustment.
    destruct (currentImage s) as [image |] eqn:Himage;
      [| left; simpl; split; [intros [H _]; congruence | auto]].
    run_handler;
      first
        [ left; split; [intros [_ H]; discriminate H | split; reflexivity]
        | right; repeat split; [discriminate | discriminate | eauto] ].
  - unfold leavesAppended, succeeded, after, trace, invoke,
      handleReplaceObject.
    destruct (currentImage s) as [image |] eqn:Himage;
      [| left; simpl; split; [intros [H _]; congruence | auto]].
    destruct (_ || _)%bool;
      [left; simpl; split; [intros [H _]; congruence | auto] |].
    run_handler;
      first
        [ left; split; [intros [_ H]; discriminate H | split; reflexivity]
        | right; repeat split; [discriminate | discriminate | eauto] ].
  - unfold leavesAppended, succeeded, after, trace, invoke, handleApplyFrame.
    destruct (currentImage s) as [image |] eqn:Himage;
      [| left; simpl; split; [intros [H _]; congruence | auto]].
    destruct (negb (truthy (trim (style details))));
      [left; simpl; split; [intros [H _]; congruence | auto] |].
    run_handler;
      first
        [ left; split; [intros [_ H]; discriminate H | split; reflexivity]
        | right; repeat split; [discriminate | discriminate | eauto] ].
Qed.

End AppendingEdits.

Section DecodedEdits.
Context {number : Type} {numbers : JSNumber number}.

(** A successful appending edit made one call of the gateway, read the
    clock and appended what it decoded from the answer of the call. *)
Lemma appending_edit_decoded (a : Action number) (s : AppState number)
  (env : Env Answer) :
  appendingEdit a = true ->
  succeeded (handler a) s env ->
  exists op image url result,
    Linked.requested s a = Some (op, image)
    /\ trace (handler a) s env = [Linked.callOf op image; DateNow]
    /\ Linked.callResult (Linked.callOf op image)
         (env 0 (Linked.callOf op image)) = Some (inr url)
    /\ dataURLtoFile url (stamped (resultPrefix a) (env 1 DateNow))
       = inr result
    /\ history (after (handler a) s env)
       = slice (history s) 0 (historyIndex s + 1) ++ [result]
    /\ historyIndex (after (handler a) s env)
       = (Z.of_nat (length (slice (history s) 0 (historyIndex s + 1)
                            ++ [result])) - 1)%Z
    /\ isLoading (after (handler a) s env) = false.
Proof.
  destruct a; try discriminate; intros _ [Htrace Herror];
    revert Htrace Herror;
    unfold Linked.requested, trace, after, invoke;
    cbn [handler resultPrefix];
    unfold handleGenerate, handleApplyCreativeStyle, handleApplyAdjustment,
      handleReplaceObject, handleApplyFrame;
    (destruct (currentImage s) as [image |] eqn:Himage;
     [| simpl; intros H; now contradiction H]);
    repeat match goal with
           | |- context [if negb (truthy ?x) then _ else _] =>
               destruct (negb (truthy x));
               [simpl; intros H; now contradiction H |]
           | |- context [if (negb (truthy ?x) || negb (truthy ?y))%bool
                         then _ else _] =>
               destruct (negb (truthy x) || negb (truthy y))%bool;
               [simpl; intros H; now contradiction H |]
           | |- context [if length ?l =? 0 then _ else _] =>
               destruct (length l =? 0);
               [simpl; intros H; now contradiction H |]
           end;
    run_handler; intros Htrace Herror; try discriminate Herror;
    do 4 eexists;
    (split; [reflexivity |]); (split; [reflexivity |]);
    (split; [cbn [Linked.callOf Linked.callResult];
             match goal with H : env 0 _ = inr _ |- _ => now rewrite H end |]);
    (split; [eassumption |]); repeat split.
Qed.

End DecodedEdits.

(** X2. A localized edit, filter, adjustment, replacement or frame that
    succeeds has made one call of the gateway, the one of its operation
    for the current image, and has read the clock. It keeps the entries
    up to the cursor, drops the entries after it, and puts last and shows
    its result: what [dataURLtoFile] decodes from the data URL that the
    call returned, under the name made of the prefix of the handler and
    the time of the clock. Nothing is left to redo and the loading flag
    is down. *)
Theorem successful_edit_becomes_current {number : Type}
  {numbers : JSNumber number} (a : Action number) (s : AppState number)
  (env : Env Answer) :
  appendingEdit a = true ->
  succeeded (handler a) s env ->
  exists op image url result,
    Linked.requested s a = Some (op, image)
    /\ trace (handler a) s env = [Linked.callOf op image; DateNow]
    /\ Linked.callResult (Linked.callOf op image)
         (env 0 (Linked.callOf op image)) = Some (inr url)
    /\ dataURLtoFile url (stamped (resultPrefix a) (env 1 DateNow))
       = inr result
    /\ history (after (handler a) s env)
       = firstn (Z.to_nat (historyIndex s + 1)) (history s) ++ [result]
    /\ historyIndex (after (handler a) s env) = (historyIndex s + 1)%Z
    /\ currentImage (after (handler a) s env) = Some result
    /\ canRedo (after (handler a) s env) = false
    /\ isLoading (after (handler a) s env) = false.
Proof.
  intros Ha Hdone.
  destruct (@appending_edit_decoded _ _ a s env Ha Hdone)
    as (op & image & url & result & Hrequested & Htrace & Hcall & Hfile
        & Hh & Hi & Hloading).
  assert (Hcursor : (0 <= historyIndex s < Z.of_nat (length (history s)))%Z).
  { unfold Linked.requested in Hrequested.
    destruct (currentImage s) as [shown |] eqn:Himage; [| discriminate].
    now apply array_get_bounds in Himage. }
  exists op, image, url, result.
  do 4 (split; [assumption |]). rewrite Hi, Hh. repeat split.
  - now rewrite slice_prefix by lia.
  - apply appended_length. lia.
  - unfold currentImage. rewrite Hi, Hh. apply array_get_last.
  - unfold canRedo. rewrite Hi, Hh. apply Z.ltb_ge. lia.
  - exact Hloading.
Qed.

Lemma successful_edit_becomes_current_witness :
  exists result,
    dataURLtoFile tiny_png_url (stamped (lit "adjusted-") 1700000000000)
    = inr result
    /\ history (after (handler (ApplyAdjustment (lit "warmer light")))
                  editing_state (answering tiny_png_url 1700000000000))
       = [sample_file 1; result].
Proof.
  destruct (@successful_edit_becomes_current Z whole_numbers
              (ApplyAdjustment (lit "warmer light")) editing_state
              (answering tiny_png_url 1700000000000) eq_refl)
    as (op & image & url & result & _ & _ & Hcall & Hfile & Hh & _).
  - split; [vm_compute; discriminate | vm_compute; reflexivity].
  - exists result.
    assert (Hurl : url = tiny_png_url).
    { revert Hcall. destruct op; cbn; intros [= <-]; reflexivity. }
    split; [| exact Hh].
    rewrite Hurl in Hfile. exact Hfile.
Defined.

(** X3. A localized edit, filter, adjustment, replacement or frame never
    changes the first entry of the history, the original image, whether it
    succeeds or fails; nor does it change any entry up to the cursor. *)
Theorem edits_keep_the_original {number : Type} {numbers : JSNumber number}
  (a : Action number) (s : AppState number) (env : Env Answer) :
  appendingEdit a = true ->
  originalImage (after (handler a) s env) = originalImage s
  /\ forall i : Z, (0 <= i <= historyIndex s)%Z ->
       array_get (history (after (handler a) s env)) i
       = array_get (history s) i.
Proof.
  intros Ha. unfold originalImage.
  destruct (appending_edit_cases a s env Ha)
    as [(_ & Hh & _) | (_ & Hcurrent & _ & result & Hh & _)];
    rewrite Hh; [auto |].
  destruct (currentImage s) as [image |] eqn:Himage; [| congruence].
  apply array_get_bounds in Himage.
  split; [| intros i Hi]; apply array_get_appended; lia.
Qed.

Lemma edits_keep_the_original_witness :
  originalImage (after (handler (ApplyCreativeStyle (lit "film noir")))
                   editing_state (answering tiny_png_url 1700000000000))
  = originalImage editing_state.
Proof.
  apply (proj1 (@edits_keep_the_original Z whole_numbers
                  (ApplyCreativeStyle (lit "film noir")) editing_state
                  (answering tiny_png_url 1700000000000) eq_refl)).
Defined.

(** ** Guards *)

(** X4. A handler with nothing to work on leaves the state as it is and
    calls neither the gateway nor the browser: an edit with no current
    image, a composite of fewer than two files, a batch with no pinned
    style or no files, a download with no current image, an undo at the
    first entry, a redo at the last entry, a reset of an empty history. *)
Theorem handlers_with_nothing_to_do {number : Type}
  {numbers : JSNumber number} (s : AppState number) (env : Env Answer) :
  (forall a, appendingEdit a = true -> currentImage s = None ->
             after (handler a) s env = s /\ trace (handler a) s env = [])
  /\ (length (compositeFiles s) < 2 ->
      after handleGenerateComposite s env = s
      /\ trace handleGenerateComposite s env = [])
  /\ (pinnedFrameStyle s = None \/ batchFiles s = [] ->
      after handleApplyFrameToBatch s env = s
      /\ trace handleApplyFrameToBatch s env = [])
  /\ (currentImage s = None ->
      after handleDownloadCurrentImage s env = s
      /\ trace handleDownloadCurrentImage s env = [])
  /\ (canUndo s = false -> after handleUndo s env = s)
  /\ (canRedo s = false -> after handleRedo s env = s)
  /\ (history s = [] -> after handleReset s env = s).
Proof.
  unfold after, trace, invoke. repeat split.
  1, 2: destruct a; try discriminate; cbn [handler];
    unfold handleGenerate, handleApplyCreativeStyle, handleApplyAdjustment,
      handleReplaceObject, handleApplyFrame;
    match goal with H : currentImage _ = None |- _ => rewrite H end;
    reflexivity.
  1, 2: unfold handleGenerateComposite;
    replace (length (compositeFiles s) <? 2) with true
      by (symmetry; apply Nat.ltb_lt; assumption);
    reflexivity.
  1, 2: unfold handleApplyFrameToBatch;
    match goal with
    | H : _ \/ _ |- _ =>
        destruct H as [H | H]; rewrite H;
        [reflexivity | destruct (pinnedFrameStyle s); reflexivity]
    end.
  1, 2: unfold handleDownloadCurrentImage;
    match goal with H : currentImage _ = None |- _ => rewrite H end;
    reflexivity.
  - unfold handleUndo. intros ->. reflexivity.
  - unfold handleRedo. intros ->. reflexivity.
  - unfold handleReset. intros ->. reflexivity.
Qed.

Lemma handlers_with_nothing_to_do_witness :
  after (handler (ApplyAdjustment (lit "warmer light"))) (@initial Z)
    (answering tiny_png_url 0)
  = initial.
Proof.
  apply (proj1 (@handlers_with_nothing_to_do Z whole_numbers initial
                  (answering tiny_png_url 0))
           (ApplyAdjustment (lit "warmer light")) eq_refl eq_refl).
Defined.

(** X5. An edit whose input is not valid makes no request and changes
    nothing but the error message: a localized edit with a blank prompt
    or, the prompt given, with no hotspot; a replacement with either field
    blank; a frame with a blank style. *)
Theorem invalid_input_only_sets_the_error {number : Type}
  {numbers : JSNumber number} (s : AppState number) (env : Env Answer) :
  currentImage s <> None ->
  (trim (prompt s) = [] ->
   after handleGenerate s env
   = setError (Some (lit "Please enter a description for your edit.")) s
   /\ trace handleGenerate s env = [])
  /\ (trim (prompt s) <> [] -> editHotspots s = [] ->
      after handleGenerate s env
      = setError
          (Some (lit "Please click on the image to select an area to edit."))
          s
      /\ trace handleGenerate s env = [])
  /\ (trim (prompt s) = [] \/ trim (secondaryPrompt s) = [] ->
      after handleReplaceObject s env
      = setError (Some (lit "Please fill out both fields.")) s
      /\ trace handleReplaceObject s env = [])
  /\ (forall details, trim (style details) = [] ->
      after (handleApplyFrame details) s env
      = setError (Some (lit "Please describe the frame style.")) s
      /\ trace (handleApplyFrame details) s env = []).
Proof.
  intros Hcurrent.
  destruct (currentImage s) as [image |] eqn:Himage; [| congruence].
  unfold after, trace, invoke. repeat split.
  1, 2: unfold handleGenerate; rewrite Himage;
    match goal with H : trim _ = [] |- _ => rewrite H end; reflexivity.
  1, 2: unfold handleGenerate; rewrite Himage;
    replace (negb (truthy (trim (prompt s)))) with false
      by (destruct (trim (prompt s)); [congruence | reflexivity]);
    match goal with H : editHotspots _ = [] |- _ => rewrite H end;
    reflexivity.
  1, 2: unfold handleReplaceObject; rewrite Himage;
    replace (negb (truthy (trim (prompt s)))
             || negb (truthy (trim (secondaryPrompt s))))%bool with true
      by (match goal with
          | H : _ \/ _ |- _ =>
              destruct H as [H | H]; rewrite H; cbn;
              [reflexivity | now rewrite orb_true_r]
          end);
    reflexivity.
  1, 2: unfold handleApplyFrame; rewrite Himage;
    match goal with H : trim _ = [] |- _ => rewrite H end; reflexivity.
Qed.

Lemma invalid_input_only_sets_the_error_witness :
  trace (handleApplyFrame
           {| style := lit "   "; topText := lit "The Creator";
              bottomText := [] |})
    editing_state (answering tiny_png_url 0)
  = [].
Proof.
  apply (proj2 (proj2 (proj2 (proj2
           (@invalid_input_only_sets_the_error Z whole_numbers editing_state
              (answering tiny_png_url 0)
              ltac:(vm_compute; discriminate))))
         {| style := lit "   "; topText := lit "The Creator";
            bottomText := [] |}
         ltac:(vm_compute; reflexivity))).
Defined.

(** ** The batch, for any number of sources *)

Section Batch.
Context {number : Type} {numbers : JSNumber number}.

(** The loop over sources that all succeed, started at request [n]. *)
Lemma frameEach_all (pinned : FrameStyle) (env : Env Answer)
  (files results acc : list File) (s : AppState number) (n : nat)
  (env' : Env Answer) :
  (forall k ev, env' k ev = env (n + k) ev) ->
  length results = length files ->
  (forall i file, nth_error files i = Some file ->
     exists result, nth_error results i = Some result
                    /\ framed pinned env (n + i) file = inr result) ->
  run (frameEach pinned files acc s) env'
  = (map (frameCall pinned) files, (s, inr (acc ++ results, None))).
Proof.
  revert results acc n env'.
  induction files as [| file rest IH]; intros results acc n env' Hshift Hlen Hall.
  - destruct results; [| discriminate]. cbn. now rewrite app_nil_r.
  - destruct results as [| result results]; [discriminate |].
    destruct (Hall 0 file eq_refl) as (r & Hr & Hframed).
    cbn in Hr. injection Hr as <-.
    unfold framed, frameCall in Hframed. rewrite Nat.add_0_r in Hframed.
    simpl. rewrite Hshift, Nat.add_0_r.
    destruct (env n _) as [e | url]; [discriminate |].
    simpl. rewrite Hframed. simpl.
    rewrite (IH results (acc ++ [result]) (S n) (later 1 env')).
    + cbn [map frameCall]. now rewrite <- app_assoc.
    + intros k ev. unfold later. rewrite Hshift. f_equal. lia.
    + cbn in Hlen. lia.
    + intros i f Hf. destruct (Hall (S i) f Hf) as (r' & Hr' & Hf').
      exists r'. split; [exact Hr' |].
      now replace (S n + i) with (n + S i) by lia.
Qed.

(** The loop over sources of which the one after [done] fails. *)
Lemma frameEach_stops (pinned : FrameStyle) (env : Env Answer)
  (done rest results acc : list File) (failing : File) (e : Exn)
  (s : AppState number) (n : nat) (env' : Env Answer) :
  (forall k ev, env' k ev = env (n + k) ev) ->
  length results = length done ->
  (forall i file, nth_error done i = Some file ->
     exists result, nth_error results i = Some result
                    /\ framed pinned env (n + i) file = inr result) ->
  framed pinned env (n + length done) failing = inl e ->
  run (frameEach pinned (done ++ failing :: rest) acc s) env'
  = (map (frameCall pinned) (done ++ [failing]),
     (s, inr (acc ++ results, Some e))).
Proof.
  revert results acc n env'.
  induction done as [| file done IH];
    intros results acc n env' Hshift Hlen Hall Hfail.
  - destruct results; [| discriminate].
    unfold framed, frameCall in Hfail. cbn [length] in Hfail.
    rewrite Nat.add_0_r in Hfail.
    simpl. rewrite Hshift, Nat.add_0_r, app_nil_r.
    destruct (env n _) as [e' | url].
    + injection Hfail as ->. reflexivity.
    + simpl. rewrite Hfail. reflexivity.
  - destruct results as [| result results]; [discriminate |].
    destruct (Hall 0 file eq_refl) as (r & Hr & Hframed).
    cbn in Hr. injection Hr as <-.
    unfold framed, frameCall in Hframed. rewrite Nat.add_0_r in Hframed.
    simpl. rewrite Hshift, Nat.add_0_r.
    destruct (env n _) as [e' | url]; [discriminate |].
    simpl. rewrite Hframed. simpl.
    rewrite (IH results (acc ++ [result]) (S n) (later 1 env')).
    + cbn [map frameCall]. now rewrite <- app_assoc.
    + intros k ev. unfold later. rewrite Hshift. f_equal. lia.
    + cbn in Hlen. lia.
    + intros i f Hf. destruct (Hall (S i) f Hf) as (r' & Hr' & Hf').
      exists r'. split; [exact Hr' |].
      now replace (S n + i) with (n + S i) by lia.
    + cbn [length] in Hfail.
      now replace (S n + length done) with (n + S (length done)) by lia.
Qed.

(** The state and the trace of the batch, from those of its loop. *)
Lemma batch_from_loop (s : AppState number) (env : Env Answer)
  (pinned : FrameStyle) (tr : list (Request number)) (results : list File)
  (thrown : option Exn) :
  pinnedFrameStyle s = Some pinned ->
  batchFiles s <> [] ->
  run (frameEach pinned (batchFiles s) []
         (setError None (setIsLoading true s))) env
  = (tr, (setError None (setIsLoading true s), inr (results, thrown))) ->
  trace handleApplyFrameToBatch s env = tr
  /\ after handleApplyFrameToBatch s env
     = match thrown with
       | None =>
           setIsLoading false
             (setActiveTool tool_retouch
                (setBatchFiles []
                   (setHistoryIndex (Z.of_nat (length results) - 1)
                      (setHistory results
                         (setError None (setIsLoading true s))))))
       | Some err =>
           let reported :=
             setError (Some (errorMessage err
               (lit "An error occurred during batch processing. Some images may not have been processed.")))
               (setError None (setIsLoading true s)) in
           setIsLoading false
             (if 0 <? length results
              then setHistoryIndex (Z.of_nat (length results) - 1)
                     (setHistory results reported)
              else reported)
       end.
Proof.
  intros Hpinned Hfiles Hloop.
  unfold trace, after, invoke, handleApplyFrameToBatch. rewrite Hpinned.
  replace (length (batchFiles s) =? 0) with false
    by (destruct (batchFiles s); [congruence | reflexivity]).
  split.
  all: unfold bind at 1 2; simpl io_bind; unfold bind at 1;
    rewrite run_bind, Hloop; cbn [fst snd];
    destruct thrown as [err |]; simpl;
    [destruct (0 <? length results); simpl; now rewrite ?app_nil_r
    | now rewrite ?app_nil_r].
Qed.

End Batch.

(** X6. With a pinned style and a batch of sources whose calls all
    succeed, the gateway is called once for each source, in order; the
    history becomes the results, in the order of the sources, with the
    cursor on the last; the batch is emptied, the tool is the retouch tool
    and no error is reported. *)
Theorem batch_installs_all_results {number : Type}
  {numbers : JSNumber number} (s : AppState number) (env : Env Answer)
  (pinned : FrameStyle) (results : list File) :
  pinnedFrameStyle s = Some pinned ->
  batchFiles s <> [] ->
  framedInOrder pinned env (batchFiles s) results ->
  let s' := after handleApplyFrameToBatch s env in
  trace handleApplyFrameToBatch s env
  = map (frameCall pinned) (batchFiles s)
  /\ history s' = results
  /\ length (history s') = length (batchFiles s)
  /\ historyIndex s' = (Z.of_nat (length results) - 1)%Z
  /\ batchFiles s' = []
  /\ activeTool s' = tool_retouch
  /\ error s' = None
  /\ isLoading s' = false.
Proof.
  intros Hpinned Hfiles [Hlen Hall]. cbv zeta.
  assert (Hloop :
    run (frameEach pinned (batchFiles s) []
           (setError None (setIsLoading true s))) env
    = (map (frameCall pinned) (batchFiles s),
       (setError None (setIsLoading true s), inr ([] ++ results, None)))).
  { eapply frameEach_all with (n := 0) (env := env); auto. }
  destruct (batch_from_loop _ Hpinned Hfiles Hloop) as [Htrace Hafter].
  rewrite Htrace, Hafter. cbn. repeat split. exact Hlen.
Qed.

Lemma batch_installs_all_results_witness :
  length (history (after handleApplyFrameToBatch batch_state
                     (answering tiny_png_url 0)))
  = 3.
Proof.
  assert (Hfiles : batchFiles batch_state <> []) by discriminate.
  assert (Hframed : framedInOrder gold_frame (@answering Z tiny_png_url 0)
            (batchFiles batch_state)
            (repeat {| file_name := lit "framed-batch-photo.png.png";
                       file_type := lit "image/png"; file_bytes := [65%N] |}
                    3)).
  { split; [reflexivity |]. intros i file Hfile.
    destruct i as [| [| [| i]]]; cbn in Hfile;
      try (injection Hfile as <-; eexists; split;
           [reflexivity | vm_compute; reflexivity]).
    destruct i; discriminate Hfile. }
  apply (proj1 (proj2 (proj2
    (@batch_installs_all_results Z whole_numbers batch_state
       (answering tiny_png_url 0) gold_frame _ eq_refl Hfiles Hframed)))).
Defined.

(** X7. With a pinned style, when the calls for the sources [done]
    succeed and the call for the source after them fails, whether it is
    rejected or returns what cannot be decoded, the gateway is called for
    [done] and the failing source only, and the error is reported. If
    [done] is empty the history and the cursor are as they were;
    otherwise the history becomes the results for [done], with the cursor
    on the last. The batch and the tool are as they were. *)
Theorem batch_commits_results_before_failure {number : Type}
  {numbers : JSNumber number} (s : AppState number) (env : Env Answer)
  (pinned : FrameStyle) (done rest results : list File) (failing : File)
  (e : Exn) :
  pinnedFrameStyle s = Some pinned ->
  batchFiles s = done ++ failing :: rest ->
  framedInOrder pinned env done results ->
  framed pinned env (length done) failing = inl e ->
  let s' := after handleApplyFrameToBatch s env in
  trace handleApplyFrameToBatch s env
  = map (frameCall pinned) (done ++ [failing])
  /\ error s'
     = Some (errorMessage e (lit "An error occurred during batch processing. Some images may not have been processed."))
  /\ (done = [] -> history s' = history s /\ historyIndex s' = historyIndex s)
  /\ (done <> [] ->
      history s' = results
      /\ historyIndex s' = (Z.of_nat (length results) - 1)%Z)
  /\ batchFiles s' = batchFiles s
  /\ activeTool s' = activeTool s
  /\ isLoading s' = false.
Proof.
  intros Hpinned Hbatch [Hlen Hall] Hfail. cbv zeta.
  assert (Hfiles : batchFiles s <> [])
    by (rewrite Hbatch; destruct done; discriminate).
  assert (Hloop :
    run (frameEach pinned (batchFiles s) []
           (setError None (setIsLoading true s))) env
    = (map (frameCall pinned) (done ++ [failing]),
       (setError None (setIsLoading true s), inr ([] ++ results, Some e)))).
  { rewrite Hbatch.
    eapply frameEach_stops with (n := 0) (env := env); auto. }
  destruct (batch_from_loop _ Hpinned Hfiles Hloop) as [Htrace Hafter].
  rewrite Htrace, Hafter. cbn [app]. cbv zeta.
  destruct done as [| file done]; destruct results as [| result results];
    try discriminate Hlen; cbn; repeat split; congruence.
Qed.

Lemma batch_commits_results_before_failure_witness :
  batchFiles (after handleApplyFrameToBatch batch_state
                (failing_after_first tiny_png_url))
  = [sample_file 1; sample_file 2; sample_file 3].
Proof.
  assert (Hframed : framedInOrder gold_frame
            (@failing_after_first Z tiny_png_url) [sample_file 1]
            [{| file_name := lit "framed-batch-photo.png.png";
                file_type := lit "image/png"; file_bytes := [65%N] |}]).
  { split; [reflexivity |]. intros i file Hfile.
    destruct i as [| i]; cbn in Hfile;
      [injection Hfile as <-; eexists; split;
       [reflexivity | vm_compute; reflexivity] |].
    destruct i; discriminate Hfile. }
  apply (proj1 (proj2 (proj2 (proj2 (proj2
    (@batch_commits_results_before_failure Z whole_numbers batch_state
       (failing_after_first tiny_png_url) gold_frame [sample_file 1]
       [sample_file 3] _ (sample_file 2) NonError eq_refl eq_refl Hframed
       eq_refl)))))).
Defined.

(** ** What every state of a session satisfies *)

(** Opens the guards of a handler and runs it. *)
Ltac open_handler :=
  unfold after, invoke; cbn [handler];
  unfold handleStartEditing, handleCompositeFilesSelect,
    handleBatchFilesSelect, handleGenerate, handleGenerateComposite,
    handleApplyCreativeStyle, handleApplyAdjustment, handleReplaceObject,
    handleApplyFrame, handleApplyCrop, handleUndo, handleRedo, handleReset,
    handleUploadNew, handleDownloadCurrentImage, handleToggleSelection,
    handleImageClick, handleUndoHotspot, selectThumbnail, compositeStartOver;
  repeat match goal with
         | |- context [match currentImage ?s with _ => _ end] =>
             destruct (currentImage s) eqn:?
         | |- context [match completedCrop ?s with _ => _ end] =>
             destruct (completedCrop s) eqn:?
         | |- context [if negb (truthy ?x) then _ else _] =>
             destruct (negb (truthy x)) eqn:?
         | |- context [if (negb (truthy ?x) || negb (truthy ?y))%bool
                       then _ else _] =>
             destruct (negb (truthy x) || negb (truthy y))%bool eqn:?
         | |- context [if Nat.eqb ?x ?y then _ else _] =>
             destruct (Nat.eqb x y) eqn:?
         | |- context [if Nat.ltb ?x ?y then _ else _] =>
             destruct (Nat.ltb x y) eqn:?
         | |- context [if canUndo ?s then _ else _] =>
             destruct (canUndo s) eqn:?
         | |- context [if canRedo ?s then _ else _] =>
             destruct (canRedo s) eqn:?
         | |- context [if negb (Tool_eqb ?x ?y) then _ else _] =>
             destruct (negb (Tool_eqb x y)) eqn:?
         | |- context [match ?files with Some _ => _ | None => _ end] =>
             is_var files; destruct files
         end;
  run_handler.

Section Settled.
Context {number : Type} {numbers : JSNumber number}.

Lemma toggle_NoDup (index : Z) (prev : list Z) :
  NoDup prev -> NoDup (toggle index prev).
Proof.
  intros Hprev. unfold toggle.
  destruct (existsb (Z.eqb index) prev) eqn:Hin.
  - now apply NoDup_filter.
  - apply NoDup_app; [assumption | repeat constructor; intros [] |].
    intros x Hx [Heq | []]. subst x.
    assert (existsb (Z.eqb index) prev = true)
      by (apply existsb_exists; exists index; split;
          [auto | apply Z.eqb_refl]).
    congruence.
Qed.


(** The loop of the batch ends with the results it has pushed; if it
    ends without an exception there is one result for each source. *)
Lemma frameEach_result (pinned : FrameStyle) (files acc : list File)
  (s : AppState number) (env : Env Answer) :
  exists tr results thrown,
    run (frameEach pinned files acc s) env
    = (tr, (s, inr (results, thrown)))
    /\ (thrown = None -> length results = length acc + length files).
Proof.
  revert acc env. induction files as [| file rest IH]; intros acc env.
  - exists [], acc, None. split; [reflexivity | cbn; lia].
  - simpl. destruct (env 0 _) as [e | url]; simpl.
    + eexists _, acc, (Some e). split; [reflexivity | discriminate].
    + destruct (dataURLtoFile _ _) as [e | newImageFile]; simpl.
      * eexists _, acc, (Some e). split; [reflexivity | discriminate].
      * destruct (IH (acc ++ [newImageFile]) (later 1 env))
          as (tr & results & thrown & Hrun & Hlen).
        rewrite Hrun. eexists _, results, thrown. split; [reflexivity |].
        intros H. rewrite (Hlen H), length_app. cbn. lia.
Qed.

(** The state after the batch: as it was; or the results installed after
    a full pass; or the error reported, with the results installed if
    there are any. *)
Lemma batch_after_cases (s : AppState number) (env : Env Answer) :
  after handleApplyFrameToBatch s env = s
  \/ (exists results, results <> []
       /\ after handleApplyFrameToBatch s env
          = setIsLoading false
              (setActiveTool tool_retouch
                 (setBatchFiles []
                    (setHistoryIndex (Z.of_nat (length results) - 1)
                       (setHistory results
                          (setError None (setIsLoading true s)))))))
  \/ (exists results message,
        after handleApplyFrameToBatch s env
        = setIsLoading false
            (if 0 <? length results
             then setHistoryIndex (Z.of_nat (length results) - 1)
                    (setHistory results
                       (setError (Some message)
                          (setError None (setIsLoading true s))))
             else setError (Some message)
                    (setError None (setIsLoading true s)))).
Proof.
  destruct (pinnedFrameStyle s) as [pinned |] eqn:Hpinned;
    [| left; unfold after, invoke, handleApplyFrameToBatch;
       now rewrite Hpinned].
  destruct (batchFiles s) as [| file files] eqn:Hfiles;
    [left; unfold after, invoke, handleApplyFrameToBatch;
     now rewrite Hpinned, Hfiles |].
  destruct (frameEach_result pinned (batchFiles s) []
              (setError None (setIsLoading true s)) env)
    as (tr & results & thrown & Hrun & Hlen).
  destruct (batch_from_loop _ Hpinned
              ltac:(rewrite Hfiles; discriminate) Hrun) as [_ Hafter].
  right. rewrite Hafter. destruct thrown as [err |].
  - right. eauto.
  - left. exists results. split; [| reflexivity].
    specialize (Hlen eq_refl). rewrite Hfiles in Hlen.
    destruct results; [discriminate Hlen | discriminate].
Qed.

(** The state after a download of an archive. *)
Lemma download_after_cases (files : list (option File))
  (archiveName : jsstring) (s : AppState number) (env : Env Answer) :
  (exists message,
     after (handleDownloadZip files archiveName) s env
     = setError (Some message) s)
  \/ (exists message,
        after (handleDownloadZip files archiveName) s env
        = setIsLoading false
            (setError (Some message) (setError None (setIsLoading true s))))
  \/ after (handleDownloadZip files archiveName) s env
     = setIsLoading false
         (setSelectedIndices [] (setError None (setIsLoading true s))).
Proof.
  unfold after, invoke, handleDownloadZip.
  destruct (length files =? 0); [left; simpl; eauto |].
  right. simpl. destruct (env 0 ImportJSZip); simpl; [left; eauto |].
  destruct (zipEach files 0 []); simpl; [left; eauto |].
  destruct (later 1 env 0 _); simpl; [left; eauto | right; reflexivity].
Qed.

Lemma action_keeps_settled (s : AppState number) (a : Action number)
  (env : Env Answer) :
  settled s -> offered s a -> settled (after (handler a) s env).
Proof.
  intros (Hcursor & Hsource & Hselected & Hloading) Hoffered.
  assert (Hdownload : forall files archiveName,
    settled (after (handleDownloadZip files archiveName) s env)).
  { intros files archiveName.
    destruct (download_after_cases files archiveName s env)
      as [[m ->] | [[m ->] | ->]];
      (split; [exact Hcursor | split; [exact Hsource |]]);
      (split; [simpl; auto; constructor | simpl; auto]). }
  assert (Hbatch : settled (after handleApplyFrameToBatch s env)).
  { destruct (batch_after_cases s env)
      as [-> | [(results & Hresults & ->) | (results & message & ->)]].
    - repeat split; assumption.
    - split; [| split; [exact Hsource | split; [exact Hselected |]]];
        [| reflexivity].
      right. simpl. destruct results; [contradiction | cbn [length]; lia].
    - destruct (0 <? length results) eqn:Hsome;
        (split; [| split; [exact Hsource | split; [exact Hselected |]]];
         [| reflexivity]).
      + apply Nat.ltb_lt in Hsome. right. simpl. lia.
      + exact Hcursor. }
  destruct a; try apply Hdownload; try apply Hbatch.
  all: try (open_handler; unfold settled; repeat split; simpl; try assumption).
  all: unfold cursorValid, styleSourceValid, canUndo, canRedo, offered in *;
    simpl in *;
    repeat match goal with
           | H : (_ <? _)%Z = true |- _ => apply Z.ltb_lt in H
           | H : (_ <? _) = true |- _ => apply Nat.ltb_lt in H
           end;
    rewrite ?length_app; simpl;
    try solve [ constructor | left; split; reflexivity | right; lia
              | apply toggle_NoDup; assumption
              | destruct Hcursor as [[Hh Hi] | Hi]; [lia | right; lia]
              | destruct Hcursor as [[Hh Hi] | Hi];
                [rewrite Hh in *; simpl in *; lia | right; lia]
              | destruct Hsource as [[Hf Hi] | Hi];
                [rewrite Hf in *; simpl in *; lia | right; lia] ].
Qed.

Lemma initial_settled : settled (@initial number).
Proof.
  split; [left; split; reflexivity |].
  split; [left; split; reflexivity |].
  split; [constructor | reflexivity].
Qed.

Lemma visited_settled (s : AppState number) : visited s -> settled s.
Proof.
  induction 1 as [| s a env _ IH Hoffered];
    [apply initial_settled | now apply action_keeps_settled].
Qed.
End Settled.

Section Sessions.

Lemma composing_session_visited : visited composing_session.
Proof.
  apply visited_step; [apply visited_step; [apply visited_initial | exact I] |].
  cbn. lia.
Qed.

End Sessions.

Section Cursor.
Context {number : Type} {numbers : JSNumber number}.

Lemma action_keeps_cursor (s : AppState number) (a : Action number)
  (env : Env Answer) :
  cursorValid s -> offered s a -> cursorValid (after (handler a) s env).
Proof.
  intros Hcursor Hoffered.
  assert (Hdownload : forall files archiveName,
    cursorValid (after (handleDownloadZip files archiveName) s env)).
  { intros files archiveName.
    destruct (download_after_cases files archiveName s env)
      as [[m ->] | [[m ->] | ->]]; exact Hcursor. }
  assert (Hbatch : cursorValid (after handleApplyFrameToBatch s env)).
  { destruct (batch_after_cases s env)
      as [-> | [(results & Hresults & ->) | (results & message & ->)]].
    - exact Hcursor.
    - right. simpl. destruct results; [contradiction | cbn [length]; lia].
    - destruct (0 <? length results) eqn:Hsome; [| exact Hcursor].
      apply Nat.ltb_lt in Hsome. right. simpl. lia. }
  destruct a; try apply Hdownload; try apply Hbatch.
  all: try (open_handler; simpl; try assumption).
  all: unfold cursorValid, canUndo, canRedo, offered in *;
    simpl in *;
    repeat match goal with
           | H : (_ <? _)%Z = true |- _ => apply Z.ltb_lt in H
           | H : (_ <? _) = true |- _ => apply Nat.ltb_lt in H
           end;
    rewrite ?length_app; simpl;
    try solve [ left; split; reflexivity | right; lia
              | destruct Hcursor as [[Hh Hi] | Hi]; [lia | right; lia]
              | destruct Hcursor as [[Hh Hi] | Hi];
                [rewrite Hh in *; simpl in *; lia | right; lia] ].
Qed.

End Cursor.

(** X8. The handlers keep the cursor on an entry. Take a state in which
    the cursor is on an entry of the history, or the history is empty
    and the cursor is [-1], and any handler, called with a file where it
    takes one and with the index of a rendered thumbnail where it takes
    one. Whatever the gateway and the browser answer, after the handler
    either the history is empty, the cursor is [-1] and there is no
    current image, or the cursor is on an entry of the history, which is
    the current image. The call of [handleStartEditing] with [undefined],
    which the start screen makes for an empty file list, is not among
    these calls. *)
Theorem handlers_keep_the_cursor_on_an_entry {number : Type}
  {numbers : JSNumber number} (s : AppState number) (a : Action number)
  (env : Env Answer) :
  cursorValid s ->
  offered s a ->
  let s' := after (handler a) s env in
  (history s' = [] /\ historyIndex s' = (-1)%Z /\ currentImage s' = None)
  \/ (exists file,
        currentImage s' = Some file
        /\ (0 <= historyIndex s' < Z.of_nat (length (history s')))%Z
        /\ nth_error (history s') (Z.to_nat (historyIndex s')) = Some file).
Proof.
  intros Hcursor Hoffered. cbv zeta.
  destruct (@action_keeps_cursor _ _ s a env Hcursor Hoffered) as [[Hh Hi] | Hi].
  - left. unfold currentImage. rewrite Hh, Hi. auto.
  - right. unfold currentImage, array_get.
    replace (historyIndex (after (handler a) s env) <? 0)%Z with false
      by (symmetry; apply Z.ltb_ge; lia).
    destruct (nth_error (history (after (handler a) s env))
                (Z.to_nat (historyIndex (after (handler a) s env))))
      as [file |] eqn:Hfile.
    + exists file. split; [reflexivity | split; [exact Hi | reflexivity]].
    + apply nth_error_None in Hfile. lia.
Qed.

Lemma handlers_keep_the_cursor_on_an_entry_witness :
  exists file,
    currentImage (after (handler (ApplyCreativeStyle (lit "film noir")))
                    editing_state (answering tiny_png_url 0))
    = Some file.
Proof.
  destruct (@handlers_keep_the_cursor_on_an_entry Z whole_numbers
              editing_state (ApplyCreativeStyle (lit "film noir"))
              (answering tiny_png_url 0))
    as [(Hh & _) | (file & Hfile & _)].
  - right. cbn. lia.
  - exact I.
  - vm_compute in Hh. discriminate Hh.
  - exists file. exact Hfile.
Defined.

(** X9. In every state of a session whose thumbnail indices come from
    the interface, with a working set of two files or more, composite
    generation calls the gateway with every file of the working
    set exactly once and with nothing that is not a file: the style
    source first and the others in their order. *)
Theorem composite_sends_every_file_once {number : Type}
  {numbers : JSNumber number} (s : AppState number) (env : Env Answer) :
  visited s ->
  2 <= length (compositeFiles s) ->
  exists (styleSource : File) (others : list File),
    array_get (compositeFiles s) (styleSourceIndex s) = Some styleSource
    /\ hd_error (trace handleGenerateComposite s env)
       = Some (GenerateCompositedImage (map Some (styleSource :: others)))
    /\ Permutation (styleSource :: others) (compositeFiles s).
Proof.
  intros Hvisited Hsize.
  destruct (visited_settled Hvisited) as (_ & [[Hf _] | [_ Hi]] & _);
    [rewrite Hf in Hsize; cbn in Hsize; lia |].
  destruct (nth_error (compositeFiles s) (Z.to_nat (styleSourceIndex s)))
    as [styleSource |] eqn:Hsource;
    [| apply nth_error_None in Hsource; lia].
  exists styleSource,
    (firstn (Z.to_nat (styleSourceIndex s)) (compositeFiles s)
     ++ skipn (S (Z.to_nat (styleSourceIndex s))) (compositeFiles s)).
  split; [| split].
  - unfold array_get.
    replace (styleSourceIndex s <? 0)%Z with false
      by (symmetry; apply Z.ltb_ge; lia).
    exact Hsource.
  - unfold trace, invoke, handleGenerateComposite.
    replace (length (compositeFiles s) <? 2) with false
      by (symmetry; apply Nat.ltb_ge; lia).
    pose proof (orderedFiles_in_bounds _ _ Hsource) as Hordered.
    rewrite Z2Nat.id in Hordered by lia. rewrite Hordered.
    simpl. destruct (run _ _). reflexivity.
  - rewrite <- (firstn_skipn (Z.to_nat (styleSourceIndex s))
                  (compositeFiles s)) at 3.
    rewrite (skipn_nth_error _ _ Hsource).
    apply Permutation_middle.
Qed.

Lemma composite_sends_every_file_once_witness :
  exists (styleSource : File) (others : list File),
    array_get (compositeFiles composing_session)
      (styleSourceIndex composing_session) = Some styleSource
    /\ hd_error (trace handleGenerateComposite composing_session refusing)
       = Some (GenerateCompositedImage (map Some (styleSource :: others)))
    /\ Permutation (styleSource :: others)
         (compositeFiles composing_session).
Proof.
  apply (@composite_sends_every_file_once Z whole_numbers composing_session
           refusing composing_session_visited).
  cbn. lia.
Defined.

(** ** The loading flag *)

Section Loading.
Context {number : Type} {numbers : JSNumber number}.

Lemma action_lowers_loading (s : AppState number) (a : Action number)
  (env : Env Answer) :
  isLoading s = false -> isLoading (after (handler a) s env) = false.
Proof.
  intros Hloading.
  assert (Hdownload : forall files archiveName,
    isLoading (after (handleDownloadZip files archiveName) s env) = false).
  { intros files archiveName.
    destruct (download_after_cases files archiveName s env)
      as [[m ->] | [[m ->] | ->]]; auto. }
  assert (Hbatch : isLoading (after handleApplyFrameToBatch s env) = false).
  { destruct (batch_after_cases s env)
      as [-> | [(results & _ & ->) | (results & message & ->)]]; auto. }
  destruct a; try apply Hdownload; try apply Hbatch.
  all: open_handler; simpl; auto.
Qed.

End Loading.

(** X10. Every handler that raises the loading flag lowers it before it
    is done, whatever the gateway and the browser answer, also when it
    fails: in no state that a session reaches between two handlers is the
    flag up. *)
Theorem loading_flag_down_between_handlers {number : Type}
  {numbers : JSNumber number} (s : AppState number) :
  reachable s -> isLoading s = false.
Proof.
  induction 1 as [| s a env _ IH];
    [reflexivity | now apply action_lowers_loading].
Qed.

Lemma loading_flag_down_between_handlers_witness :
  isLoading
    (after (handler Generate) editing_state
       (@refusing Z)) = false.
Proof.
  apply (@loading_flag_down_between_handlers Z whole_numbers).
  apply reachable_step.
  change editing_state with
    (after (handler (ImageClicked
                       {| clientX := 10%Z; clientY := 20%Z;
                          rect_left := 0%Z; rect_top := 0%Z;
                          naturalWidth := 400%Z; naturalHeight := 400%Z;
                          clientWidth := 100%Z; clientHeight := 100%Z |}))
       (after (handler (SetPrompt (lit "make the sky blue")))
          (after (handler (StartEditing (sample_file 1))) initial refusing)
          refusing)
       refusing).
  repeat apply reachable_step. apply reachable_initial.
Defined.

(** ** Hotspots and the selection *)

Section Picking.
Context {number : Type} {numbers : JSNumber number}.

(** [l.slice(0, -1)] is [l] without its last element. *)
Lemma slice_drop_last {A} (l : list A) : slice l 0 (-1) = removelast l.
Proof.
  rewrite removelast_firstn_len. unfold slice, relative_index.
  cbn [Z.ltb Z.compare Z.to_nat Nat.min skipn].
  f_equal. lia.
Qed.

Lemma toggle_In (index i : Z) (prev : list Z) :
  In i (toggle index prev)
  <-> (i = index /\ ~ In index prev) \/ (i <> index /\ In i prev).
Proof.
  unfold toggle. destruct (existsb (Z.eqb index) prev) eqn:Hin.
  - apply existsb_exists in Hin. destruct Hin as (j & Hj & Heq).
    apply Z.eqb_eq in Heq. subst j.
    rewrite filter_In, negb_true_iff, Z.eqb_neq. split.
    + intros [Hi Hne]. right. split; [congruence | assumption].
    + intros [[_ Hnot] | [Hne Hi]]; [contradiction |].
      split; [assumption | congruence].
  - assert (Hnot : ~ In index prev).
    { intros Hi.
      assert (existsb (Z.eqb index) prev = true)
        by (apply existsb_exists; exists index; split;
            [assumption | apply Z.eqb_refl]).
      congruence. }
    rewrite in_app_iff. cbn [In]. split.
    + intros [Hi | [<- | []]]; [right | left; auto].
      split; [intros ->; contradiction | assumption].
    + intros [[-> _] | [_ Hi]]; auto.
Qed.

End Picking.

(** X11. Undoing a hotspot removes the last element of both hotspot
    lists and nothing else. With the retouch tool a click on the image
    followed by the undo of a hotspot gives back the state before the
    click; with another tool the click changes nothing. *)
Theorem undo_hotspot_reverts_the_click {number : Type}
  {numbers : JSNumber number} (s : AppState number)
  (e : ImageClick number) (env env' : Env Answer) :
  after handleUndoHotspot s env
  = setEditHotspots (removelast (editHotspots s))
      (setDisplayHotspots (removelast (displayHotspots s)) s)
  /\ (activeTool s = tool_retouch ->
      after handleUndoHotspot (after (handleImageClick e) s env) env' = s)
  /\ (activeTool s <> tool_retouch -> after (handleImageClick e) s env = s).
Proof.
  unfold after, invoke, handleUndoHotspot, handleImageClick.
  split; [| split].
  - simpl. now rewrite !slice_drop_last.
  - intros ->. simpl. rewrite !slice_drop_last, !removelast_last.
    destruct s; reflexivity.
  - intros Htool. destruct (activeTool s); try contradiction; reflexivity.
Qed.

Lemma undo_hotspot_reverts_the_click_witness :
  after handleUndoHotspot
    (after (handleImageClick sample_click) editing_state refusing) refusing
  = editing_state.
Proof.
  apply (proj1 (proj2 (@undo_hotspot_reverts_the_click Z whole_numbers
                         editing_state sample_click refusing refusing))).
  reflexivity.
Defined.

Section Toggling.
Context {number : Type} {numbers : JSNumber number}.

Lemma filter_out_absent (index : Z) (prev : list Z) :
  ~ In index prev -> filter (fun i => negb (Z.eqb index i)) prev = prev.
Proof.
  induction prev as [| j prev IH]; intros Hnot; [reflexivity |].
  cbn [filter]. destruct (Z.eqb_spec index j) as [-> | Hne].
  - exfalso. apply Hnot. now left.
  - cbn [negb]. f_equal. apply IH. intros Hin. apply Hnot. now right.
Qed.

Lemma toggle_twice (index : Z) (prev : list Z) :
  ~ In index prev -> toggle index (toggle index prev) = prev.
Proof.
  intros Hnot. unfold toggle at 2.
  destruct (existsb (Z.eqb index) prev) eqn:Hin.
  - apply existsb_exists in Hin. destruct Hin as (j & Hj & Heq).
    apply Z.eqb_eq in Heq. subst j. contradiction.
  - unfold toggle.
    replace (existsb (Z.eqb index) (prev ++ [index])) with true
      by (symmetry; apply existsb_exists; exists index;
          split; [apply in_or_app; right; now left | apply Z.eqb_refl]).
    rewrite filter_app, filter_out_absent by assumption.
    cbn [filter]. rewrite Z.eqb_refl. cbn [negb]. apply app_nil_r.
Qed.

End Toggling.

(** X12. Toggling the selection of a thumbnail flips the membership of
    its index in the selection, leaves the membership of every other
    index and the rest of the state as they are, and makes no request.
    Toggling an index that is not selected twice gives back the state. *)
Theorem toggle_selection_flips_one_index {number : Type}
  {numbers : JSNumber number} (s : AppState number) (index : Z)
  (env env' : Env Answer) :
  let s' := after (handleToggleSelection index) s env in
  (In index (selectedIndices s') <-> ~ In index (selectedIndices s))
  /\ (forall i, i <> index ->
        (In i (selectedIndices s') <-> In i (selectedIndices s)))
  /\ s' = setSelectedIndices (selectedIndices s') s
  /\ trace (handleToggleSelection index) s env = []
  /\ (~ In index (selectedIndices s) ->
      after (handleToggleSelection index) s' env' = s).
Proof.
  cbv zeta. unfold after, trace, invoke, handleToggleSelection. simpl.
  split; [| split; [| split; [| split]]].
  - rewrite toggle_In. split.
    + intros [[_ Hnot] | [Hne _]]; [assumption | congruence].
    + intros Hnot. left. auto.
  - intros i Hne. rewrite toggle_In. split.
    + intros [[Heq _] | [_ Hi]]; [congruence | assumption].
    + intros Hi. right. auto.
  - reflexivity.
  - reflexivity.
  - intros Hnot. rewrite toggle_twice by assumption. destruct s; reflexivity.
Qed.

Lemma toggle_selection_flips_one_index_witness :
  after (handleToggleSelection 0)
    (after (handleToggleSelection 0) opened_session refusing) refusing
  = opened_session.
Proof.
  apply (proj2 (proj2 (proj2 (proj2
           (@toggle_selection_flips_one_index Z whole_numbers opened_session
              0%Z refusing refusing))))).
  intros [].
Defined.

(** ** Downloads *)

Section Downloads.
Context {number : Type} {numbers : JSNumber number}.

Lemma zipEach_undefined (files : list (option File)) (index : nat)
  (zip : JSZip) :
  In None files -> zipEach files index zip = inl not_an_object.
Proof.
  revert index zip. induction files as [| [file |] rest IH];
    intros index zip Hin; [destruct Hin | | reflexivity].
  destruct Hin as [Heq | Hin]; [discriminate |]. now apply IH.
Qed.

End Downloads.

(** X13. A download of a non-empty list of files ends with the loading
    flag down and the history as it was. Either the three steps
    succeeded: the archive built from the files was generated and
    downloaded under the given name with [.zip] after it, no error is
    reported and the selection is empty; or an error is reported, the
    selection is as it was and nothing was downloaded. *)
Theorem download_clears_selection_only_on_success {number : Type}
  {numbers : JSNumber number} (files : list (option File))
  (archiveName : jsstring) (s : AppState number) (env : Env Answer) :
  files <> [] ->
  let s' := after (handleDownloadZip files archiveName) s env in
  let requests := trace (handleDownloadZip files archiveName) s env in
  isLoading s' = false
  /\ history s' = history s
  /\ historyIndex s' = historyIndex s
  /\ ((error s' = None
       /\ selectedIndices s' = []
       /\ exists zip content,
            zipEach files 0 [] = inr zip
            /\ requests
               = [ImportJSZip; ZipGenerateAsync zip;
                  Download (BlobContent content) (archiveName ++ lit ".zip")])
      \/ (error s' <> None
          /\ selectedIndices s' = selectedIndices s
          /\ forall content name, ~ In (Download content name) requests)).
Proof.
  intros Hfiles. cbv zeta.
  unfold after, trace, invoke, handleDownloadZip.
  destruct (Nat.eqb_spec (length files) 0) as [Hnone | _];
    [apply length_zero_iff_nil in Hnone; contradiction |].
  simpl. destruct (env 0 ImportJSZip) as [e | []]; simpl.
  { repeat split. right. repeat split; [discriminate |].
    intros content name [H | []]; discriminate. }
  destruct (zipEach files 0 []) as [e | zip] eqn:Hzip; simpl.
  { repeat split. right. repeat split; [discriminate |].
    intros content name [H | []]; discriminate. }
  destruct (later 1 env 0 (ZipGenerateAsync zip)) as [e | content]; simpl.
  { repeat split. right. repeat split; [discriminate |].
    intros content name [H | [H | []]]; discriminate. }
  repeat split. left. repeat split. exists zip, content. split; reflexivity.
Qed.

Lemma download_clears_selection_only_on_success_witness :
  isLoading
    (after (handleDownloadZip [Some (sample_file 1)] (lit "archive"))
       editing_state refusing) = false.
Proof.
  apply (@download_clears_selection_only_on_success Z whole_numbers
           [Some (sample_file 1)] (lit "archive") editing_state refusing).
  discriminate.
Defined.

(** X14. When an index of the selection is not the position of an entry
    of the history, the download of the selection fails whatever the
    environment answers: an error is reported, no archive is generated
    and nothing is downloaded, and the selection, stale index included,
    is as it was. *)
Theorem stale_selection_fails_the_download {number : Type}
  {numbers : JSNumber number} (s : AppState number) (env : Env Answer)
  (i : Z) :
  In i (selectedIndices s) ->
  array_get (history s) i = None ->
  let s' := after (handler DownloadSelected) s env in
  error s' <> None
  /\ selectedIndices s' = selectedIndices s
  /\ history s' = history s
  /\ isLoading s' = false
  /\ forall req, In req (trace (handler DownloadSelected) s env) ->
                 req = ImportJSZip.
Proof.
  intros Hselected Hstale. cbv zeta.
  unfold after, trace, invoke. cbn [handler]. unfold handleDownloadZip.
  assert (Hin : In None (map (fun i => array_get (history s) i)
                           (selectedIndices s))).
  { apply in_map_iff. exists i. auto. }
  rewrite length_map.
  destruct (Nat.eqb_spec (length (selectedIndices s)) 0) as [Hnone | _];
    [apply length_zero_iff_nil in Hnone; rewrite Hnone in Hselected;
     destruct Hselected |].
  simpl. destruct (env 0 ImportJSZip) as [e | []]; simpl.
  { repeat split; [discriminate |]. intros req [<- | []]. reflexivity. }
  rewrite (zipEach_undefined _ _ _ Hin). simpl.
  repeat split; [discriminate |]. intros req [<- | []]. reflexivity.
Qed.

Lemma stale_selection_fails_the_download_witness :
  error (after (handler DownloadSelected) stale_state
           (answering tiny_png_url 0)) <> None.
Proof.
  apply (@stale_selection_fails_the_download Z whole_numbers stale_state
           (answering tiny_png_url 0) 1%Z);
    [now left | reflexivity].
Defined.

(** X30. A stale selection is reached through controls that the
    interface renders and enables: open an image, apply a creative style
    twice, select the third thumbnail, undo twice and apply the style
    again. The history then has two entries, the selection still holds
    the index of the third, and the download of the selection is
    enabled. *)
Theorem stale_selection_is_reached {number : Type}
  {numbers : JSNumber number} :
  displayed (@restyled_session number numbers)
  /\ enabled (@restyled_session number numbers) DownloadSelected
  /\ length (history (@restyled_session number numbers)) = 2
  /\ selectedIndices (@restyled_session number numbers) = [2%Z]
  /\ array_get (history (@restyled_session number numbers)) 2 = None.
Proof.
  split; [| vm_compute; repeat split; try discriminate].
  unfold restyled_session. cbv zeta.
  repeat (apply displayed_step;
          [| solve [ vm_compute; repeat split; try reflexivity;
                     try discriminate; repeat constructor ] ]).
  apply displayed_initial.
Qed.

(** ** Composite generation *)

(** X15. Composite generation on a working set of two files or more
    calls the gateway with the ordered working set and ends with the
    loading flag down. Either the call returned a data URL that
    [dataURLtoFile] decodes, under the name [composited-], the time of the
    clock and [.png]: then the history becomes that one decoded asset,
    shown, with nothing to undo or to redo; the working set is emptied,
    the style source index is [0], the tool is the retouch tool and no
    error is reported. Or the call was rejected or what it returned
    cannot be decoded: then the message of that failure is reported and
    the history, the cursor, the working set, the style source index and
    the tool are as they were. *)
Theorem composite_replaces_history_or_keeps_all {number : Type}
  {numbers : JSNumber number} (s : AppState number) (env : Env Answer) :
  2 <= length (compositeFiles s) ->
  let s' := after handleGenerateComposite s env in
  let call :=
    GenerateCompositedImage
      (orderedFiles (compositeFiles s) (styleSourceIndex s)) in
  hd_error (trace handleGenerateComposite s env) = Some call
  /\ isLoading s' = false
  /\ ((exists url result,
         env 0 call = inr url
         /\ dataURLtoFile url (stamped (lit "composited-") (env 1 DateNow))
            = inr result
         /\ error s' = None
         /\ history s' = [result]
         /\ currentImage s' = Some result
         /\ historyIndex s' = 0%Z
         /\ canUndo s' = false /\ canRedo s' = false
         /\ compositeFiles s' = [] /\ styleSourceIndex s' = 0%Z
         /\ activeTool s' = tool_retouch)
      \/ (exists e,
            (env 0 call = inl e
             \/ exists url,
                  env 0 call = inr url
                  /\ dataURLtoFile url
                       (stamped (lit "composited-") (env 1 DateNow))
                     = inl e)
            /\ error s'
               = Some (errorMessage e
                         (lit "An unknown error occurred during compositing."))
            /\ history s' = history s
            /\ historyIndex s' = historyIndex s
            /\ compositeFiles s' = compositeFiles s
            /\ styleSourceIndex s' = styleSourceIndex s
            /\ activeTool s' = activeTool s)).
Proof.
  intros Hmany. cbv zeta.
  unfold after, trace, invoke, handleGenerateComposite.
  replace (length (compositeFiles s) <? 2) with false
    by (symmetry; apply Nat.ltb_ge; assumption).
  run_handler.
  - split; [reflexivity |]. split; [reflexivity |]. right.
    eexists. split; [left; reflexivity | repeat split].
  - split; [reflexivity |]. split; [reflexivity |]. right.
    eexists. split; [right; eexists; split; [reflexivity | eassumption] |].
    repeat split.
  - split; [reflexivity |]. split; [reflexivity |]. left.
    do 2 eexists. split; [reflexivity |]. split; [eassumption |].
    repeat split.
Qed.

Lemma composite_replaces_history_or_keeps_all_witness :
  isLoading (after handleGenerateComposite composite_state
               (answering tiny_png_url 0)) = false.
Proof.
  apply (@composite_replaces_history_or_keeps_all Z whole_numbers
           composite_state (answering tiny_png_url 0)).
  cbn. lia.
Defined.

(** ** Calls of the gateway *)

Section Calls.
Context {number : Type} {numbers : JSNumber number}.

Lemma frameEach_calls (pinned : FrameStyle) (files acc : list File)
  (s : AppState number) (env : Env Answer) :
  length (fst (run (frameEach pinned files acc s) env)) <= length files.
Proof.
  revert acc env. induction files as [| file rest IH]; intros acc env.
  - cbn. lia.
  - simpl. destruct (env 0 _) as [e | url]; simpl; [lia |].
    destruct (dataURLtoFile _ _) as [e | newImageFile]; simpl; [lia |].
    specialize (IH (acc ++ [newImageFile]) (later 1 env)).
    destruct (run _ _). cbn [fst length] in *. lia.
Qed.

Lemma batch_calls (s : AppState number) (env : Env Answer) :
  length (trace handleApplyFrameToBatch s env) <= length (batchFiles s).
Proof.
  destruct (pinnedFrameStyle s) as [pinned |] eqn:Hpinned;
    [| unfold trace, invoke, handleApplyFrameToBatch;
       rewrite Hpinned; cbn; lia].
  destruct (batchFiles s) as [| file files] eqn:Hfiles;
    [unfold trace, invoke, handleApplyFrameToBatch;
     rewrite Hpinned, Hfiles; cbn; lia |].
  destruct (frameEach_result pinned (batchFiles s) []
              (setError None (setIsLoading true s)) env)
    as (tr & results & thrown & Hrun & _).
  destruct (batch_from_loop _ Hpinned
              ltac:(rewrite Hfiles; discriminate) Hrun) as [-> _].
  pose proof (frameEach_calls pinned (batchFiles s) []
                (setError None (setIsLoading true s)) env) as Hcalls.
  rewrite Hrun, Hfiles in Hcalls. exact Hcalls.
Qed.

Lemma download_calls (files : list (option File)) (archiveName : jsstring)
  (s : AppState number) (env : Env Answer) :
  filter isGatewayCall (trace (handleDownloadZip files archiveName) s env)
  = [].
Proof.
  unfold trace, invoke, handleDownloadZip.
  destruct (length files =? 0); [reflexivity |].
  simpl. destruct (env 0 ImportJSZip); simpl; [reflexivity |].
  destruct (zipEach files 0 []); simpl; [reflexivity |].
  destruct (later 1 env 0 _); reflexivity.
Qed.

End Calls.

(** X16. Whatever the state and the answers, an edit of the current
    image and a composite call the gateway at most once, the batch at
    most once for each of its sources, and no other handler calls it. *)
Theorem gateway_calls_within_budget {number : Type}
  {numbers : JSNumber number} (s : AppState number) (a : Action number)
  (env : Env Answer) :
  length (filter isGatewayCall (trace (handler a) s env)) <= callBudget s a.
Proof.
  assert (Hdownload : forall files archiveName,
    length (filter isGatewayCall
              (trace (handleDownloadZip files archiveName) s env)) <= 0)
    by (intros; now rewrite download_calls).
  assert (Hbatch :
    length (filter isGatewayCall (trace handleApplyFrameToBatch s env))
    <= length (batchFiles s))
    by (etransitivity; [apply filter_length_le | apply batch_calls]).
  destruct a; cbn [callBudget]; try apply Hdownload; try apply Hbatch.
  all: unfold trace; open_handler; lia.
Qed.

(** ** The crop *)

(** X17. With a crop rectangle drawn, the crop ends in one of four
    ways and never touches the loading flag, the hotspots or the tool.
    With no image element, or with no canvas context, it reports the
    error of that case and changes nothing else. When what the canvas
    gives cannot be decoded, the exception escapes the handler and the
    state is as it was. Otherwise it appends after the cursor, as any
    edit does, what [dataURLtoFile] decodes from the data URL of the
    canvas under the name [cropped-], the time of the clock and [.png];
    the two crop rectangles are cleared, and the error message, if there
    was one, is still there. *)
Theorem crop_appends_or_reports {number : Type} {numbers : JSNumber number}
  (s : AppState number) (env : Env Answer) (completed : CropRect number) :
  completedCrop s = Some completed ->
  let s' := after handleApplyCrop s env in
  let decoded :=
    dataURLtoFile (env 2 (CanvasToDataURL completed))
      (stamped (lit "cropped-") (env 3 DateNow)) in
  (env 0 ImgRefCurrent = false
   /\ s' = setError (Some (lit "Please select an area to crop.")) s)
  \/ (env 0 ImgRefCurrent = true /\ env 1 CanvasGetContext = false
      /\ s' = setError (Some (lit "Could not process the crop.")) s)
  \/ (env 0 ImgRefCurrent = true /\ env 1 CanvasGetContext = true
      /\ exists e,
           decoded = inl e /\ s' = s
           /\ snd (snd (invoke handleApplyCrop s env)) = inl e)
  \/ (env 0 ImgRefCurrent = true /\ env 1 CanvasGetContext = true
      /\ exists result,
           decoded = inr result
           /\ s' = after (append result) s env
           /\ history s'
              = slice (history s) 0 (historyIndex s + 1) ++ [result]
           /\ crop s' = None /\ completedCrop s' = None
           /\ error s' = error s
           /\ isLoading s' = isLoading s
           /\ editHotspots s' = editHotspots s
           /\ displayHotspots s' = displayHotspots s
           /\ activeTool s' = activeTool s).
Proof.
  intros Hcrop. cbv zeta.
  unfold after, invoke, handleApplyCrop, append, addImageToHistory.
  rewrite Hcrop.
  change (env 1) with (later 1 env 0).
  change (env 2) with (later 1 (later 1 env) 0).
  change (env 3) with (later 1 (later 1 (later 1 env)) 0).
  run_handler.
  all: repeat match goal with
              | H : inl _ = inl _ |- _ => injection H as <-
              | H : inr _ = inr _ |- _ => injection H as <-
              | H : inl _ = inr _ |- _ => discriminate H
              | H : inr _ = inl _ |- _ => discriminate H
              end.
  all: first
         [ left; split; reflexivity
         | right; left; repeat split; reflexivity
         | right; right; left; split; [reflexivity |];
           split; [reflexivity |]; eexists; repeat split; reflexivity
         | right; right; right; split; [reflexivity |];
           split; [reflexivity |]; eexists; repeat split; reflexivity ].
Qed.

Lemma crop_appends_or_reports_witness :
  exists result,
    dataURLtoFile tiny_png_url (stamped (lit "cropped-") 0) = inr result
    /\ history (after handleApplyCrop cropping_state
                  (answering tiny_png_url 0))
       = slice (history cropping_state) 0
           (historyIndex cropping_state + 1) ++ [result].
Proof.
  destruct (@crop_appends_or_reports Z whole_numbers cropping_state
              (answering tiny_png_url 0)
              {| crop_x := 0%Z; crop_y := 0%Z; crop_width := 10%Z;
                 crop_height := 10%Z |} eq_refl)
    as [[H _] | [(_ & H & _) | [(_ & _ & e & H & _)
                               | (_ & _ & result & Hfile & _ & Hh & _)]]];
    [discriminate H | discriminate H | vm_compute in H; discriminate H |].
  exists result. split; [exact Hfile | exact Hh].
Defined.

(** ** From the response of the model to the asset *)

(** The two cases of the type that the [File] constructor gives. *)
Lemma blobType_cases (t : jsstring) :
  (Forall (fun c => (32 <= c <= 126)%N) t ->
   blobType t
   = map (fun c => if (N.leb 65 c && N.leb c 90)%bool then (c + 32)%N else c)
         t)
  /\ (~ Forall (fun c => (32 <= c <= 126)%N) t -> blobType t = []).
Proof.
  unfold blobType.
  destruct (forallb (fun c => N.leb 32 c && N.leb c 126)%bool t) eqn:Hall.
  - split; [reflexivity |]. intros Hnot. exfalso. apply Hnot.
    apply Forall_forall. intros c Hc.
    rewrite forallb_forall in Hall. specialize (Hall c Hc).
    apply andb_true_iff in Hall. destruct Hall as [Hlo Hhi].
    apply N.leb_le in Hlo, Hhi. lia.
  - split; [| reflexivity]. intros Hin.
    assert (forallb (fun c => N.leb 32 c && N.leb c 126)%bool t = true).
    { apply forallb_forall. intros c Hc.
      rewrite Forall_forall in Hin. specialize (Hin c Hc).
      apply andb_true_iff. split; apply N.leb_le; lia. }
    congruence.
Qed.

(** X18. When a response is not blocked and the first of its parts with
    inline data has a MIME type without line breaks, [,] or [;] and base64
    data, [handleApiResponse] returns a data URL that [dataURLtoFile]
    decodes into the asset with the given name and the bytes that the data
    encode. Its type is what the [File] constructor makes of that MIME
    type: the MIME type in ASCII lower case, or no type if the MIME type
    has a character outside U+0020 to U+007E. *)
Theorem response_image_becomes_the_asset
  (r : Gateway.GenerateContentResponse)
  (context mime payload bstr filename : jsstring) :
  Response.notBlocked r ->
  Response.firstImage r {| Gateway.mimeType := Some mime;
                           Gateway.data := Some payload |} ->
  mime <> [] -> ~ In comma mime -> ~ In semicolon mime ->
  Forall (fun c => isLineTerminator c = false) mime ->
  ~ In comma payload -> atob payload = Some bstr ->
  exists url,
    Gateway.handleApiResponse r context = inr url
    /\ dataURLtoFile url filename
       = inr {| file_name := filename; file_type := blobType mime;
                file_bytes := bstr |}
    /\ (Forall (fun c => (32 <= c <= 126)%N) mime ->
        blobType mime
        = map (fun c => if (N.leb 65 c && N.leb c 90)%bool
                        then (c + 32)%N else c) mime)
    /\ (~ Forall (fun c => (32 <= c <= 126)%N) mime -> blobType mime = []).
Proof.
  intros Hopen Himage Hmime Hcomma Hsemi Hlines Hpayload Hbstr.
  exists (Gateway.dataUrlOf {| Gateway.mimeType := Some mime;
                               Gateway.data := Some payload |}).
  split; [| split; [now apply image_part_decodes | apply blobType_cases]].
  apply (classified_functional (r := r) (context := context));
    [apply handleApiResponse_classified | now constructor].
Qed.

Lemma response_image_becomes_the_asset_witness :
  exists url,
    Gateway.handleApiResponse Response.image_despite_safety (lit "edit")
    = inr url
    /\ dataURLtoFile url (lit "edited-1.png")
       = inr {| file_name := lit "edited-1.png";
                file_type := blobType (lit "image/png");
                file_bytes := lit "ABC" |}.
Proof.
  destruct (@response_image_becomes_the_asset Response.image_despite_safety
              (lit "edit") (lit "image/png") (lit "QUJD") (lit "ABC")
              (lit "edited-1.png")) as (url & Hurl & Hfile & _);
    [| | | | | | | | exists url; split; assumption].
  - intros reason message (pf & Hpf & _). discriminate Hpf.
  - exists [{| Gateway.inlineData := None;
               Gateway.part_text := Some (lit "here") |}],
      {| Gateway.inlineData :=
           Some {| Gateway.mimeType := Some (lit "image/png");
                   Gateway.data := Some (lit "QUJD") |};
         Gateway.part_text := None |}, [].
    split; [reflexivity | split; [repeat constructor | reflexivity]].
  - vm_compute. discriminate.
  - vm_compute. intuition discriminate.
  - vm_compute. intuition discriminate.
  - vm_compute. repeat constructor.
  - vm_compute. intuition discriminate.
  - vm_compute. reflexivity.
Defined.

(** X19. The parser of [fileToPart] and [dataURLtoFile] read a data URL
    in the same way. What [dataURLtoFile] decodes, [fileToPart] accepts,
    with the payload whose decoding gave the bytes and with the MIME type
    as it is written, of which the type of the file is the form that the
    [File] constructor gives it. What [fileToPart] accepts,
    [dataURLtoFile] decodes likewise, unless the payload is not base64,
    which only [dataURLtoFile] looks at. *)
Theorem both_parsers_read_alike (url filename : jsstring) :
  (forall file, dataURLtoFile url filename = inr file ->
     file_name file = filename
     /\ exists mime payload,
          Gateway.dataUrlToPart url
          = inr (Gateway.InlineDataPart mime payload)
          /\ file_type file = blobType mime
          /\ atob payload = Some (file_bytes file))
  /\ (forall mime payload,
        Gateway.dataUrlToPart url = inr (Gateway.InlineDataPart mime payload) ->
        (atob payload = None
         /\ dataURLtoFile url filename = inl invalid_character)
        \/ (exists bstr,
              atob payload = Some bstr
              /\ dataURLtoFile url filename
                 = inr {| file_name := filename; file_type := blobType mime;
                          file_bytes := bstr |})).
Proof.
  rewrite dataURLtoFile_outcome, dataUrlToPart_outcome.
  destruct (length (split_on comma url) <? 2);
    [split; [intros file H | intros mime payload H]; discriminate H |].
  destruct (DataURL.parsedMime url) as [mime |];
    [| split; [intros file H | intros mime payload H]; discriminate H].
  split.
  - intros file Hfile.
    destruct (atob (DataURL.payloadOf url)) as [bstr |] eqn:Hbstr;
      [| discriminate Hfile].
    injection Hfile as <-. split; [reflexivity |].
    exists mime, (DataURL.payloadOf url).
    split; [reflexivity | split; [reflexivity | exact Hbstr]].
  - intros mime' payload [= <- <-].
    destruct (atob (DataURL.payloadOf url)) as [bstr |];
      [right; eauto | left; auto].
Qed.

Lemma both_parsers_read_alike_witness :
  exists mime payload,
    Gateway.dataUrlToPart tiny_png_url
    = inr (Gateway.InlineDataPart mime payload)
    /\ blobType (lit "image/png") = blobType mime
    /\ atob payload = Some (lit "A").
Proof.
  apply (proj1 (both_parsers_read_alike tiny_png_url (lit "a.png"))
           {| file_name := lit "a.png";
              file_type := blobType (lit "image/png");
              file_bytes := lit "A" |}).
  vm_compute. reflexivity.
Defined.

(** ** What the gateway sends *)

Section Wire.
Import Gateway Operation.

Lemma run_async_bind {A B} (m : Task A) (f : A -> Task B)
  (env : Env Answer) :
  run (async_bind m f) env
  = match snd (run m env) with
    | inl e => (fst (run m env), inl e)
    | inr a =>
        (fst (run m env)
         ++ fst (run (f a) (later (length (fst (run m env))) env)),
         snd (run (f a) (later (length (fst (run m env))) env)))
    end.
Proof.
  unfold async_bind. rewrite run_bind.
  destruct (snd (run m env)); [cbn; now rewrite app_nil_r | reflexivity].
Qed.

Lemma fileToPart_run (file : File) (env : Env Answer) :
  run (fileToPart (Some file)) env
  = ([ReadAsDataURL file],
     match env 0 (ReadAsDataURL file) with
     | inl e => inl e
     | inr url => dataUrlToPart url
     end).
Proof.
  unfold fileToPart, async_bind, await. cbn [io_bind run].
  now destruct (env 0 (ReadAsDataURL file)).
Qed.

(** [Promise.all] over [fileToPart]: every file is read, in order. The
    parts come back only if every element is a file that could be read
    and parsed, and then the part at each position is the part of the
    file at that position. *)
Lemma promise_all_parts (files : list (option File)) (env : Env Answer) :
  fst (run (promise_all fileToPart files) env)
  = map ReadAsDataURL (present files)
  /\ match snd (run (promise_all fileToPart files) env) with
     | inl _ =>
         In None files
         \/ exists i file e,
              nth_error (present files) i = Some file
              /\ partOf env i file = inl e
     | inr imageParts =>
         files = map Some (present files)
         /\ length imageParts = length (present files)
         /\ forall i file,
              nth_error (present files) i = Some file ->
              exists part, nth_error imageParts i = Some part
                           /\ partOf env i file = inr part
     end.
Proof.
  revert env. induction files as [| [file |] rest IH]; intros env.
  - cbn. split; [reflexivity |]. split; [reflexivity |].
    split; [reflexivity |]. intros [| i] file H; discriminate H.
  - cbn [promise_all]. rewrite run_bind, fileToPart_run.
    cbn [fst snd length]. rewrite run_bind.
    destruct (IH (later 1 env)) as [Hreads Hparts].
    change (present (Some file :: rest)) with (file :: present rest).
    destruct (run (promise_all fileToPart rest) (later 1 env))
      as [tr [e | imageParts]]; cbn [fst snd run] in *;
      rewrite app_nil_r; (split; [cbn; now f_equal |]).
    + assert (Hrest : In None (Some file :: rest)
                      \/ exists i file' e',
                           nth_error (file :: present rest) i = Some file'
                           /\ partOf env i file' = inl e').
      { destruct Hparts as [Hin | (i & file' & e' & Hi & He)];
          [left; now right |].
        right. exists (S i), file', e'. split; [exact Hi | exact He]. }
      destruct (env 0 (ReadAsDataURL file)); [exact Hrest |].
      now destruct (dataUrlToPart _).
    + destruct Hparts as (Hfiles & Hlen & Hall).
      destruct (env 0 (ReadAsDataURL file)) as [e | url] eqn:Hread.
      * right. exists 0, file, e. split; [reflexivity |].
        unfold partOf. now rewrite Hread.
      * destruct (dataUrlToPart url) as [e | part] eqn:Hpart.
        -- right. exists 0, file, e. split; [reflexivity |].
           unfold partOf. now rewrite Hread.
        -- split; [cbn [map]; now rewrite <- Hfiles |].
           split; [cbn; now f_equal |].
           intros [| i] file' Hi.
           ++ injection Hi as <-. exists part. split; [reflexivity |].
              unfold partOf. now rewrite Hread.
           ++ exact (Hall i file' Hi).
  - cbn [promise_all fileToPart]. unfold reject. cbn [io_bind].
    rewrite run_bind. cbn [fst snd run].
    destruct (IH env) as [Hreads _].
    change (present (None :: rest)) with (present rest).
    destruct (run (promise_all fileToPart rest) env) as [tr r].
    cbn [fst snd] in *. rewrite app_nil_r.
    split; [exact Hreads | left; now left].
Qed.

End Wire.

(** X20. A composite of two elements or more reads every element that
    is a file, in order, before anything else. Either an element is
    [undefined], or the read or the parsing of a file fails: then nothing
    else is requested and the composite fails. Or every element is a file
    that is read and parsed: then one request follows, to the model, whose
    contents are the composite instruction and after it, for each file
    in order, the part that [fileToPart] made of what was read for that
    file; and the composite returns what [handleApiResponse] makes of the
    answer under the name [composite], or fails with the rejection of the
    request. *)
Theorem composite_reads_all_then_asks_once (files : list (option File))
  (env : Env Gateway.Answer) :
  2 <= length files ->
  let requests := fst (run (Gateway.generateCompositedImage files) env) in
  let outcome := snd (run (Gateway.generateCompositedImage files) env) in
  (requests = map Gateway.ReadAsDataURL (present files)
   /\ (exists e, outcome = inl e)
   /\ (In None files
       \/ exists i file e,
            nth_error (present files) i = Some file
            /\ partOf env i file = inl e))
  \/ (exists sources imageParts,
        files = map Some sources
        /\ length imageParts = length sources
        /\ (forall i file,
              nth_error sources i = Some file ->
              exists part, nth_error imageParts i = Some part
                           /\ partOf env i file = inr part)
        /\ requests
           = map Gateway.ReadAsDataURL sources
             ++ [Operation.ask
                   (Gateway.TextPart Gateway.composite_prompt :: imageParts)]
        /\ outcome
           = match env (length sources)
                     (Operation.ask
                        (Gateway.TextPart Gateway.composite_prompt
                         :: imageParts)) with
             | inl e => inl e
             | inr response =>
                 match Gateway.handleApiResponse response (lit "composite")
                 with
                 | inl failure => inl (JsError (Gateway.failure_message failure))
                 | inr url => inr url
                 end
             end).
Proof.
  intros Hmany. cbv zeta. unfold Gateway.generateCompositedImage.
  replace (length files <? 2) with false
    by (symmetry; apply Nat.ltb_ge; assumption).
  rewrite run_async_bind.
  destruct (promise_all_parts files env) as [Hreads Hparts].
  rewrite Hreads.
  destruct (snd (run (promise_all Gateway.fileToPart files) env))
    as [e | imageParts].
  - left. cbn [fst snd]. eauto.
  - right. exists (present files), imageParts.
    destruct Hparts as (Hfiles & Hlen & Hall).
    split; [exact Hfiles |]. split; [exact Hlen |]. split; [exact Hall |].
    rewrite length_map.
    unfold Gateway.generateContent, async_bind, await, Operation.ask.
    cbn [io_bind run].
    change (later (length (present files)) env 0)
      with (env (length (present files) + 0)).
    rewrite Nat.add_0_r.
    destruct (env (length (present files)) _) as [e | response];
      [split; reflexivity |].
    unfold Gateway.settle.
    destruct (Gateway.handleApiResponse response (lit "composite"));
      split; reflexivity.
Qed.

Lemma composite_reads_all_then_asks_once_witness :
  exists imageParts,
    nth_error imageParts 0
    = Some (Gateway.InlineDataPart (lit "image/png") (lit "QQ=="))
    /\ fst (run (Gateway.generateCompositedImage
                   [Some (sample_file 3); Some (sample_file 1)]) obliging)
       = map Gateway.ReadAsDataURL [sample_file 3; sample_file 1]
         ++ [Operation.ask
               (Gateway.TextPart Gateway.composite_prompt :: imageParts)].
Proof.
  destruct (@composite_reads_all_then_asks_once
              [Some (sample_file 3); Some (sample_file 1)] obliging
              (le_n 2))
    as [(_ & [e He] & _)
       | (sources & imageParts & Hfiles & _ & Hall & Hrequests & _)].
  - vm_compute in He. discriminate He.
  - destruct sources as [| first [| second [| third sources]]];
      try discriminate Hfiles.
    cbn in Hfiles. injection Hfiles as <- <-. exists imageParts.
    destruct (Hall 0 (sample_file 3) eq_refl) as (part & Hpart & Hof).
    vm_compute in Hof. injection Hof as <-.
    split; [exact Hpart | exact Hrequests].
Defined.

Section SingleImage.
Import Gateway Operation.
Context {number : Type} {numbers : JSNumber number}.

(** The shape that the four operations on one image share. *)
Lemma read_ask_settle_run (image : File) (text context : jsstring)
  (env : Env Answer) :
  run (async_bind (fileToPart (Some image)) (fun originalImagePart =>
       async_bind (generateContent [originalImagePart; TextPart text])
         (fun response => settle (handleApiResponse response context))))
      env
  = match env 0 (ReadAsDataURL image) with
    | inl e => ([ReadAsDataURL image], inl e)
    | inr url =>
        match dataUrlToPart url with
        | inl e => ([ReadAsDataURL image], inl e)
        | inr part =>
            ([ReadAsDataURL image; ask [part; TextPart text]],
             match env 1 (ask [part; TextPart text]) with
             | inl e => inl e
             | inr response =>
                 match handleApiResponse response context with
                 | inl f => inl (JsError (failure_message f))
                 | inr url => inr url
                 end
             end)
        end
    end.
Proof.
  rewrite run_async_bind, fileToPart_run. cbn [fst snd length].
  destruct (env 0 (ReadAsDataURL image)) as [e | url]; [reflexivity |].
  destruct (dataUrlToPart url) as [e | part]; [reflexivity |].
  unfold generateContent, async_bind, await, ask. cbn [io_bind run app].
  change (later 1 env 0) with (env 1).
  destruct (env 1 _) as [e | response]; [reflexivity |].
  unfold settle. now destruct (handleApiResponse response context).
Qed.

Lemma operate_run (op : Operation number) (image : File)
  (env : Env Answer) :
  run (operate op image) env
  = match env 0 (ReadAsDataURL image) with
    | inl e => ([ReadAsDataURL image], inl e)
    | inr url =>
        match dataUrlToPart url with
        | inl e => ([ReadAsDataURL image], inl e)
        | inr part =>
            ([ReadAsDataURL image;
              ask [part; TextPart (instruction op)]],
             match env 1 (ask [part; TextPart (instruction op)]) with
             | inl e => inl e
             | inr response =>
                 match handleApiResponse response (contextOf op) with
                 | inl f => inl (JsError (failure_message f))
                 | inr url => inr url
                 end
             end)
        end
    end.
Proof.
  destruct op; apply read_ask_settle_run.
Qed.

End SingleImage.

(** X21. Each of the four operations on one image first reads the
    image. If the read fails, or [fileToPart] cannot parse the data URL
    that was read, the operation makes no other request and fails with
    that error. Otherwise it makes one request more, to the model, whose
    contents are the part that [fileToPart] made of the data URL that was
    read and, after it, the instruction of the operation; it fails with
    the rejection of that request, or returns what [handleApiResponse]
    makes of the answer under the context name of the operation. *)
Theorem operation_reads_then_asks_once {number : Type}
  {numbers : JSNumber number} (op : Operation.Operation number)
  (image : File) (env : Env Gateway.Answer) :
  let requests := fst (run (Operation.operate op image) env) in
  let outcome := snd (run (Operation.operate op image) env) in
  (exists e,
     partOf env 0 image = inl e
     /\ requests = [Gateway.ReadAsDataURL image]
     /\ outcome = inl e)
  \/ (exists dataUrl part,
        env 0 (Gateway.ReadAsDataURL image) = inr dataUrl
        /\ Gateway.dataUrlToPart dataUrl = inr part
        /\ requests
           = [Gateway.ReadAsDataURL image;
              Operation.ask [part;
                             Gateway.TextPart (Operation.instruction op)]]
        /\ outcome
           = match env 1 (Operation.ask
                            [part;
                             Gateway.TextPart (Operation.instruction op)])
             with
             | inl e => inl e
             | inr response =>
                 match Gateway.handleApiResponse response
                         (Operation.contextOf op) with
                 | inl failure =>
                     inl (JsError (Gateway.failure_message failure))
                 | inr url => inr url
                 end
             end).
Proof.
  cbv zeta. rewrite operate_run. unfold partOf.
  destruct (env 0 (Gateway.ReadAsDataURL image)) as [e | dataUrl] eqn:Hread;
    [left; exists e; repeat split |].
  destruct (Gateway.dataUrlToPart dataUrl) as [e | part] eqn:Hpart;
    [left; exists e; repeat split; exact Hpart |].
  right. exists dataUrl, part. repeat split. exact Hpart.
Qed.

Lemma operation_reads_then_asks_once_witness :
  fst (run (Operation.operate (Operation.Filter (lit "film noir"))
              (sample_file 1)) obliging)
  = [Gateway.ReadAsDataURL (sample_file 1);
     Operation.ask
       [Gateway.InlineDataPart (lit "image/png") (lit "QQ==");
        Gateway.TextPart
          (Operation.instruction (@Operation.Filter Z (lit "film noir")))]].
Proof.
  destruct (@operation_reads_then_asks_once Z whole_numbers
              (Operation.Filter (lit "film noir")) (sample_file 1) obliging)
    as [(e & He & _) | (dataUrl & part & Hread & Hpart & Hrequests & _)].
  - vm_compute in He. discriminate He.
  - injection Hread as <-. vm_compute in Hpart. injection Hpart as <-.
    exact Hrequests.
Defined.

(** ** The frame panel in [App] *)

Section Pinning.
Import FramePanel Mounted.

Lemma isCurrentStylePinned_eq (p fields : FrameStyle) :
  isCurrentStylePinned p fields = true <-> fields = p.
Proof.
  unfold isCurrentStylePinned.
  rewrite !andb_true_iff, !jsstring_eqb_eq.
  destruct p, fields; cbn. split.
  - intros [[-> ->] ->]. reflexivity.
  - intros [= -> -> ->]. auto.
Qed.

(** After a render the panel shows the pin exactly when its fields are
    the pinned style. *)
Lemma render_isPinned (loading : bool) (m : Frame) :
  isPinned (panel (render loading m)) = true
  <-> pinned m = Some (form (panel m)).
Proof.
  unfold render, effect. cbn.
  destruct (pinned m) as [p |]; cbn.
  - rewrite isCurrentStylePinned_eq. split; congruence.
  - split; discriminate.
Qed.

Lemma render_form (loading : bool) (m : Frame) :
  form (panel (render loading m)) = form (panel m).
Proof. unfold render, effect. now destruct (pinned m). Qed.

End Pinning.

(** X22. In the frame panel as [App] mounts it, whatever is typed in the
    fields and however often the pin button is pressed, the pinned style
    is never one whose style field is blank, and the panel shows the pin
    exactly when its three fields are the pinned style. *)
Theorem pinned_style_is_never_blank (m : Mounted.Frame) :
  Mounted.shown m ->
  (forall p, Mounted.pinned m = Some p -> trim (style p) <> [])
  /\ (FramePanel.isPinned (Mounted.panel m) = true
      <-> Mounted.pinned m = Some (FramePanel.form (Mounted.panel m))).
Proof.
  induction 1 as [| loading e m _ [IHblank IHpin]].
  - split; [discriminate | split; discriminate].
  - unfold Mounted.step. split; [| now rewrite render_isPinned, render_form].
    cbn [Mounted.render Mounted.pinned]. destruct e; cbn; auto.
    unfold FramePanel.handlePin.
    destruct (FramePanel.isPinned (Mounted.panel m)); [discriminate |].
    destruct (truthy (trim (style (FramePanel.form (Mounted.panel m)))))
      eqn:Hstyle; cbn; [| exact IHblank].
    intros p [= <-]. now apply truthy_nonempty.
Qed.

Lemma pinned_style_is_never_blank_witness :
  trim (style gold_frame) <> [].
Proof.
  apply (proj1 (@pinned_style_is_never_blank
                  (Mounted.step false Mounted.PinPress
                     (Mounted.step false
                        (Mounted.TopTextChange (topText gold_frame))
                        (Mounted.step false
                           (Mounted.StyleChange (style gold_frame))
                           Mounted.mounted)))
                  ltac:(repeat apply Mounted.shown_step;
                        apply Mounted.shown_mounted))).
  vm_compute. reflexivity.
Defined.

(** X23. With a style that is not blank in the fields and the pin not
    shown, a press of the pin button pins the three fields and shows
    the pin; a second press, the fields untouched, unpins and hides it
    again. *)
Theorem pin_pressed_twice_unpins (m : Mounted.Frame) (loading loading' : bool) :
  FramePanel.isPinned (Mounted.panel m) = false ->
  trim (style (FramePanel.form (Mounted.panel m))) <> [] ->
  let once := Mounted.step loading Mounted.PinPress m in
  let twice := Mounted.step loading' Mounted.PinPress once in
  Mounted.pinned once = Some (FramePanel.form (Mounted.panel m))
  /\ FramePanel.isPinned (Mounted.panel once) = true
  /\ Mounted.pinned twice = None
  /\ FramePanel.isPinned (Mounted.panel twice) = false
  /\ FramePanel.form (Mounted.panel twice) = FramePanel.form (Mounted.panel m).
Proof.
  intros Hunpinned Hstyle. cbv zeta.
  apply truthy_nonempty in Hstyle.
  assert (Honce : Mounted.pinned (Mounted.step loading Mounted.PinPress m)
                  = Some (FramePanel.form (Mounted.panel m))).
  { unfold Mounted.step, FramePanel.handlePin. cbn.
    now rewrite Hunpinned, Hstyle. }
  assert (Hshown : FramePanel.isPinned
                     (Mounted.panel (Mounted.step loading Mounted.PinPress m))
                   = true).
  { unfold Mounted.step. rewrite render_isPinned. cbn.
    unfold FramePanel.handlePin. now rewrite Hunpinned, Hstyle. }
  assert (Hform : FramePanel.form
                    (Mounted.panel (Mounted.step loading Mounted.PinPress m))
                  = FramePanel.form (Mounted.panel m))
    by (unfold Mounted.step; now rewrite render_form).
  set (once := Mounted.step loading Mounted.PinPress m) in *.
  assert (Htwice : Mounted.pinned (Mounted.step loading' Mounted.PinPress once)
                   = None).
  { unfold Mounted.step. cbn [Mounted.render Mounted.pinned].
    unfold FramePanel.handlePin. now rewrite Hshown. }
  split; [exact Honce |]. split; [exact Hshown |]. split; [exact Htwice |].
  split.
  - destruct (FramePanel.isPinned
                (Mounted.panel (Mounted.step loading' Mounted.PinPress once)))
      eqn:Hpin; [| reflexivity].
    unfold Mounted.step in Hpin. apply render_isPinned in Hpin.
    cbn [Mounted.pinned] in Hpin. unfold FramePanel.handlePin in Hpin.
    rewrite Hshown in Hpin. discriminate Hpin.
  - unfold Mounted.step at 1. now rewrite render_form.
Qed.

Lemma pin_pressed_twice_unpins_witness :
  Mounted.pinned
    (Mounted.step false Mounted.PinPress
       (Mounted.step false Mounted.PinPress
          (Mounted.step false (Mounted.StyleChange (style gold_frame))
             Mounted.mounted)))
  = None.
Proof.
  apply (@pin_pressed_twice_unpins
           (Mounted.step false (Mounted.StyleChange (style gold_frame))
              Mounted.mounted) false false).
  - reflexivity.
  - vm_compute. discriminate.
Defined.

(** ** The creative panel *)

(** X24. In the creative panel a click on a preset or a change of the
    custom field makes what was chosen the active prompt and empties the
    other of the two fields. A press of the apply button, which is
    delivered only if the button is rendered and enabled, calls
    [onApplyStyle] only while nothing is loading, with the active prompt,
    which is then not blank. *)
Theorem creative_panel_applies_the_last_choice (st : CreativePanel.State)
  (e : CreativePanel.Event) (loading : bool) :
  CreativePanel.offered e ->
  let st' := CreativePanel.step e st in
  CreativePanel.activePrompt st' = CreativePanel.chosen e
  /\ (CreativePanel.selectedPresetPrompt st' = None
      \/ CreativePanel.customPrompt st' = [])
  /\ (forall p, In p (CreativePanel.pressApply loading st') ->
        loading = false /\ p = CreativePanel.chosen e /\ trim p <> []).
Proof.
  intros Hoffered. cbv zeta.
  assert (Hactive : CreativePanel.activePrompt (CreativePanel.step e st)
                    = CreativePanel.chosen e).
  { destruct e as [prompt | value]; [| reflexivity].
    unfold CreativePanel.activePrompt. cbn.
    replace (truthy prompt) with true; [reflexivity |].
    cbn in Hoffered.
    repeat (destruct Hoffered as [<- | Hoffered]; [reflexivity |]).
    destruct Hoffered. }
  split; [exact Hactive |]. split.
  - destruct e; [right | left]; reflexivity.
  - intros p. unfold CreativePanel.pressApply, CreativePanel.applyShown,
      CreativePanel.applyDisabled, CreativePanel.handleApply.
    rewrite Hactive.
    destruct (truthy (CreativePanel.chosen e)); [| intros []].
    destruct loading; [intros [] |]. cbn [orb andb].
    destruct (truthy (trim (CreativePanel.chosen e))) eqn:Hblank;
      [| intros []].
    intros [<- | []]. repeat split. now apply truthy_nonempty.
Qed.

Lemma creative_panel_applies_the_last_choice_witness :
  CreativePanel.activePrompt
    (CreativePanel.step
       (CreativePanel.PresetClick
          (lit "Recreate this image in a clean, minimalist vector art style with flat colors and bold outlines."))
       (CreativePanel.step (CreativePanel.CustomChange (lit "film noir"))
          CreativePanel.initial))
  = lit "Recreate this image in a clean, minimalist vector art style with flat colors and bold outlines.".
Proof.
  assert (Hoffered : CreativePanel.offered
            (CreativePanel.PresetClick
               (lit "Recreate this image in a clean, minimalist vector art style with flat colors and bold outlines.")))
    by (cbn; tauto).
  apply (proj1 (@creative_panel_applies_the_last_choice
                  (CreativePanel.step
                     (CreativePanel.CustomChange (lit "film noir"))
                     CreativePanel.initial)
                  _ false Hoffered)).
Defined.

(** ** The batch panel *)

(** X25. Whenever the batch panel lets its button be pressed, the guards
    of the batch pass: nothing is loading, a style is pinned, and the
    batch begins with the call of the gateway for its first source. *)
Theorem batch_button_starts_the_batch {number : Type}
  {numbers : JSNumber number} (s : AppState number) (env : Env Answer) :
  BatchPanel.canApply (BatchPanel.propsOf s) = true ->
  isLoading s = false
  /\ exists pinned file,
       pinnedFrameStyle s = Some pinned
       /\ hd_error (batchFiles s) = Some file
       /\ hd_error (trace handleApplyFrameToBatch s env)
          = Some (frameCall pinned file).
Proof.
  unfold BatchPanel.canApply, BatchPanel.applyShown, BatchPanel.applyDisabled,
    BatchPanel.propsOf. cbn.
  destruct (pinnedFrameStyle s) as [pinned |] eqn:Hpinned; [| discriminate].
  destruct (isLoading s); [discriminate |].
  destruct (batchFiles s) as [| file files] eqn:Hfiles; [discriminate |].
  intros _. split; [reflexivity |]. exists pinned, file.
  split; [reflexivity |]. split; [reflexivity |].
  unfold trace, invoke, handleApplyFrameToBatch. rewrite Hpinned, Hfiles.
  cbn [length Nat.eqb]. simpl.
  repeat match goal with
         | |- context [let (_, _) := ?r in _] => destruct r
         end.
  reflexivity.
Qed.

Lemma batch_button_starts_the_batch_witness :
  isLoading batch_state = false
  /\ exists pinned file,
       pinnedFrameStyle batch_state = Some pinned
       /\ hd_error (batchFiles batch_state) = Some file
       /\ hd_error (trace handleApplyFrameToBatch batch_state refusing)
          = Some (frameCall pinned file).
Proof.
  apply (@batch_button_starts_the_batch Z whole_numbers batch_state refusing).
  reflexivity.
Defined.

(** ** The API key *)

(** X26. The start-up script sets [process.env.API_KEY] only to a string
    that is not empty: to the key of the build if there is one, and
    otherwise to the injected key, which is then not the placeholder
    that was left unreplaced. It logs the error exactly when the build has
    no key and the injected key is missing, empty or the placeholder. *)
Theorem api_key_is_build_key_then_injected (src : Index.Sources) :
  match Index.boot src with
  | Index.SetProcessEnvApiKey key =>
      key <> []
      /\ (Index.VITE_API_KEY src = Some key
          \/ (truthy_opt (Index.VITE_API_KEY src) = false
              /\ Index.injected_API_KEY src = Some key
              /\ key <> Index.placeholder))
  | Index.ConsoleError _ =>
      truthy_opt (Index.VITE_API_KEY src) = false
      /\ (truthy_opt (Index.injected_API_KEY src) = false
          \/ Index.injected_API_KEY src = Some Index.placeholder)
  end.
Proof.
  unfold Index.boot, Index.apiKey, Index.differs.
  destruct src as [[build |] [injected |]]; cbn.
  all: try (destruct build as [| c build]; cbn).
  all: try (destruct injected as [| d injected]; cbn).
  all: try (unfold jsstring_eqb;
            destruct (list_eq_dec N.eq_dec (d :: injected) Index.placeholder)
              as [-> | Hne]; cbn).
  all: repeat split; auto; try discriminate.
  all: right; repeat split; auto; discriminate.
Qed.

(** ** The original image *)

(** X27. With an image shown, only the actions that put a new history
    in the place of the old one, which are the opening of a file, the
    choice of batch files, the composite, the batch and the upload of a
    new image, can change the first entry of the history, the original
    that the comparison shows: every other action leaves it as it is,
    whatever the gateway and the browser answer. *)
Theorem only_replacements_change_the_original {number : Type}
  {numbers : JSNumber number} (s : AppState number) (a : Action number)
  (env : Env Answer) :
  replacing a = false ->
  currentImage s <> None ->
  originalImage (after (handler a) s env) = originalImage s.
Proof.
  intros Ha Hshown.
  destruct (currentImage s) as [shownImage |] eqn:Himage; [| congruence].
  pose proof (array_get_bounds _ _ Himage) as Hcursor.
  assert (Happended : forall (x : File),
    array_get (slice (history s) 0 (historyIndex s + 1) ++ [x]) 0
    = array_get (history s) 0)
    by (intros x; apply array_get_appended; lia).
  assert (Hdownload : forall files archiveName,
    originalImage (after (handleDownloadZip files archiveName) s env)
    = originalImage s).
  { intros files archiveName.
    destruct (download_after_cases files archiveName s env)
      as [[m ->] | [[m ->] | ->]]; reflexivity. }
  destruct a; try discriminate Ha; try apply Hdownload.
  all: unfold originalImage; open_handler; auto; try congruence.
Qed.

Lemma only_replacements_change_the_original_witness :
  originalImage (after (handler ApplyCrop) cropping_state
                   (answering tiny_png_url 0))
  = originalImage cropping_state.
Proof.
  apply (@only_replacements_change_the_original Z whole_numbers
           cropping_state ApplyCrop (answering tiny_png_url 0));
    [reflexivity | discriminate].
Defined.

(** ** The handlers and the gateway together *)

(** X28. When the guards of a localized edit, a filter, an adjustment,
    a replacement or a frame pass, the image is read and parsed, and the
    model answers with a response in which [handleApiResponse] finds no
    image, the linked program has made two requests, the read and the
    request to the model; the error shown is the message that
    [handleApiResponse] built for that response; the history and the
    cursor are as they were and the loading flag is down. *)
Theorem refusal_of_the_model_is_shown {number : Type}
  {numbers : JSNumber number} (a : Action number) (s : AppState number)
  (env : Env Program.Answer) (op : Operation.Operation number)
  (image : File) (dataUrl : jsstring) (part : Gateway.RequestPart)
  (response : Gateway.GenerateContentResponse)
  (failure : Gateway.ApiFailure) :
  Linked.requested s a = Some (op, image) ->
  env 0 (Program.OfGateway (Gateway.ReadAsDataURL image)) = inr dataUrl ->
  Gateway.dataUrlToPart dataUrl = inr part ->
  env 1 (Program.OfGateway
           (Operation.ask [part; Gateway.TextPart (Operation.instruction op)]))
  = inr response ->
  Gateway.handleApiResponse response (Operation.contextOf op) = inl failure ->
  let final := fst (snd (Program.execute (handler a) s env)) in
  fst (Program.execute (handler a) s env)
  = [Program.OfGateway (Gateway.ReadAsDataURL image);
     Program.OfGateway
       (Operation.ask [part; Gateway.TextPart (Operation.instruction op)])]
  /\ error final = Some (Gateway.failure_message failure)
  /\ history final = history s
  /\ historyIndex final = historyIndex s
  /\ isLoading final = false.
Proof.
  intros Hrequested Hread Hpart Hanswer Hfailure. cbv zeta.
  unfold Linked.requested in Hrequested.
  destruct (currentImage s) as [shown |] eqn:Himage; [| discriminate].
  destruct a; try discriminate Hrequested; unfold Program.execute;
    cbn [handler];
    unfold handleGenerate, handleApplyCreativeStyle, handleApplyAdjustment,
      handleReplaceObject, handleApplyFrame;
    rewrite Himage;
    repeat match type of Hrequested with
           | (if ?b then _ else _) = _ =>
               destruct b; [discriminate Hrequested |]
           end;
    injection Hrequested as <- <-;
    unfold Operation.ask in *; cbn [Operation.instruction] in *;
    cbn [Operation.contextOf] in Hfailure;
    simpl; rewrite Hread; simpl; rewrite Hpart; simpl;
    change (later 1 env 0) with (env 1); rewrite Hanswer; simpl;
    rewrite Hfailure; simpl; repeat split.
Qed.

Lemma refusal_of_the_model_is_shown_witness :
  error (fst (snd (Program.execute
                     (handler (ApplyCreativeStyle (lit "film noir")))
                     editing_state
                     (Program.serving Program.blocked_response 0))))
  = Some (Gateway.failure_message
            (Gateway.BlockedRequest (lit "SAFETY") None)).
Proof.
  apply (@refusal_of_the_model_is_shown Z whole_numbers
           (ApplyCreativeStyle (lit "film noir")) editing_state
           (Program.serving Program.blocked_response 0)
           (Operation.Filter (lit "film noir")) (sample_file 1)
           tiny_png_url
           (Gateway.InlineDataPart (lit "image/png") (lit "QQ=="))
           Program.blocked_response
           (Gateway.BlockedRequest (lit "SAFETY") None)
           eq_refl eq_refl eq_refl eq_refl eq_refl).
Defined.

(** X29. When the guards of a localized edit, a filter, an adjustment,
    a replacement or a frame pass, the image is read and parsed, and the
    model answers with a response that is not blocked and whose first
    image part is well formed, the linked program puts after the cursor,
    and shows, the asset that has the bytes that the data of that part
    encode, as its type the MIME type of that part as the [File]
    constructor keeps it (in ASCII lower case, or empty if it has a
    character outside U+0020 to U+007E), and as its name the prefix of
    the handler, the time of the clock and [.png]. No error is
    reported. *)
Theorem image_of_the_model_is_shown {number : Type}
  {numbers : JSNumber number} (a : Action number) (s : AppState number)
  (env : Env Program.Answer) (op : Operation.Operation number)
  (image : File) (dataUrl : jsstring) (part : Gateway.RequestPart)
  (response : Gateway.GenerateContentResponse)
  (mime payload bstr : jsstring) :
  Linked.requested s a = Some (op, image) ->
  env 0 (Program.OfGateway (Gateway.ReadAsDataURL image)) = inr dataUrl ->
  Gateway.dataUrlToPart dataUrl = inr part ->
  env 1 (Program.OfGateway
           (Operation.ask [part; Gateway.TextPart (Operation.instruction op)]))
  = inr response ->
  Response.notBlocked response ->
  Response.firstImage response {| Gateway.mimeType := Some mime;
                                  Gateway.data := Some payload |} ->
  mime <> [] -> ~ In comma mime -> ~ In semicolon mime ->
  Forall (fun c => isLineTerminator c = false) mime ->
  ~ In comma payload -> atob payload = Some bstr ->
  let final := fst (snd (Program.execute (handler a) s env)) in
  let result :=
    {| file_name := stamped (resultPrefix a)
                      (env 2 (Program.OfApp DateNow));
       file_type := blobType mime; file_bytes := bstr |} in
  history final
  = firstn (Z.to_nat (historyIndex s + 1)) (history s) ++ [result]
  /\ currentImage final = Some result
  /\ error final = None
  /\ isLoading final = false.
Proof.
  intros Hrequested Hread Hpart Hanswer Hopen Himage' Hmime Hcomma Hsemi
    Hlines Hpayload Hbstr. cbv zeta.
  assert (Hurl : forall context,
    Gateway.handleApiResponse response context
    = inr (Gateway.dataUrlOf {| Gateway.mimeType := Some mime;
                                Gateway.data := Some payload |})).
  { intros context.
    apply (classified_functional (r := response) (context := context));
      [apply handleApiResponse_classified | now constructor]. }
  pose proof (fun filename =>
    @image_part_decodes mime payload filename bstr Hmime Hcomma Hsemi Hlines
      Hpayload Hbstr) as Hfile.
  unfold Linked.requested in Hrequested.
  destruct (currentImage s) as [shown |] eqn:Himage; [| discriminate].
  pose proof (array_get_bounds _ _ Himage) as Hcursor.
  destruct a; try discriminate Hrequested; unfold Program.execute;
    cbn [handler resultPrefix];
    unfold handleGenerate, handleApplyCreativeStyle, handleApplyAdjustment,
      handleReplaceObject, handleApplyFrame;
    rewrite Himage;
    repeat match type of Hrequested with
           | (if ?b then _ else _) = _ =>
               destruct b; [discriminate Hrequested |]
           end;
    injection Hrequested as <- <-;
    unfold Operation.ask in *; cbn [Operation.instruction] in *;
    simpl; rewrite Hread; simpl; rewrite Hpart; simpl;
    change (later 1 env 0) with (env 1); rewrite Hanswer; simpl;
    rewrite Hurl; simpl; rewrite Hfile; simpl;
    change (later 1 (later 1 env) 0) with (env 2);
    (split; [now rewrite slice_prefix by lia |]);
    (split; [unfold currentImage; simpl; apply array_get_last |]);
    split; reflexivity.
Qed.

Lemma image_of_the_model_is_shown_witness :
  error (fst (snd (Program.execute
                     (handler (ApplyCreativeStyle (lit "film noir")))
                     editing_state
                     (Program.serving Response.image_despite_safety 0))))
  = None.
Proof.
  assert (Hopen : Response.notBlocked Response.image_despite_safety)
    by (intros reason message (pf & Hpf & _); discriminate Hpf).
  assert (Himage : Response.firstImage Response.image_despite_safety
                     {| Gateway.mimeType := Some (lit "image/png");
                        Gateway.data := Some (lit "QUJD") |}).
  { exists [{| Gateway.inlineData := None;
               Gateway.part_text := Some (lit "here") |}],
      {| Gateway.inlineData :=
           Some {| Gateway.mimeType := Some (lit "image/png");
                   Gateway.data := Some (lit "QUJD") |};
         Gateway.part_text := None |}, [].
    split; [reflexivity | split; [repeat constructor | reflexivity]]. }
  assert (Hmime : lit "image/png" <> []) by (vm_compute; discriminate).
  assert (Hcomma : ~ In comma (lit "image/png"))
    by (vm_compute; intuition discriminate).
  assert (Hsemi : ~ In semicolon (lit "image/png"))
    by (vm_compute; intuition discriminate).
  assert (Hlines : Forall (fun c => isLineTerminator c = false)
                     (lit "image/png"))
    by (vm_compute; repeat constructor).
  assert (Hpayload : ~ In comma (lit "QUJD"))
    by (vm_compute; intuition discriminate).
  apply (@image_of_the_model_is_shown Z whole_numbers
           (ApplyCreativeStyle (lit "film noir")) editing_state
           (Program.serving Response.image_despite_safety 0)
           (Operation.Filter (lit "film noir")) (sample_file 1)
           tiny_png_url
           (Gateway.InlineDataPart (lit "image/png") (lit "QQ=="))
           Response.image_despite_safety
           (lit "image/png") (lit "QUJD") (lit "ABC")
           eq_refl eq_refl eq_refl eq_refl Hopen Himage Hmime Hcomma Hsemi
           Hlines Hpayload eq_refl).
Defined.

